(** * Session and query lifecycle of the Telegram bot: a shallow embedding

    This development embeds [src/session.ts] (the functions
    [getThinkingLevel] and [getTextFromMessage] and the class
    [ClaudeSession]), the tool-status part and the blockquotes of
    [src/formatting.ts], and the checks, the download and the text
    extraction of [src/handlers/document.ts], and proves properties of the
    embedding.

    Conventions.
    - A JavaScript string is a [string]; lengths count the characters of the
      Rocq string, which is what JavaScript counts on ASCII text, and letter
      case is changed on the letters A-Z and a-z.
    - The session object, the locals of one [sendMessageStreaming] call, the
      session file and the log of status-callback invocations form one state
      record, [World], that a state-and-exception monad threads.
    - The surroundings are part of that state: the clock and the answers of
      [checkPendingAskUserRequests] are functions of the number of earlier
      readings.  The generator that [query] returns is a [stream]; calls of
      [stop] and firings of the inactivity timer are arrivals of the stream,
      placed where the loop waits for the next event.
    - What [src/session.ts] imports from [./config] and [./security], and the
      four helpers of [./formatting] that the sources at hand do not contain,
      are fields of the record [Config] and stay abstract in every theorem.
    - Not modelled: console output, the environment variable
      [TELEGRAM_CHAT_ID], the delays around the ask-user polls, a rejection
      of the promise the status callback returns, and a failure of the write
      of the session file. *)

From Stdlib Require Import ZArith Ascii String List Bool Lia.
From stdpp Require Import base tactics option list gmap strings pretty.

Local Open Scope Z_scope.

(** ** JavaScript string primitives *)

Module Js.

(** [s.startsWith(p)] *)
Definition startsWith (s p : string) : bool := String.prefix p s.

(** [s.includes(k)]: [k] starts at some position of [s]. *)
Fixpoint includes (s k : string) : bool :=
  startsWith s k ||
  match s with
  | EmptyString => false
  | String _ s' => includes s' k
  end.

(** [s.endsWith(p)] *)
Definition endsWith (s p : string) : bool :=
  startsWith (String.rev s) (String.rev p).

Definition lower_ascii (c : ascii) : ascii :=
  let n := N_of_ascii c in
  if ((65 <=? n) && (n <=? 90))%N then ascii_of_N (n + 32) else c.

Definition upper_ascii (c : ascii) : ascii :=
  let n := N_of_ascii c in
  if ((97 <=? n) && (n <=? 122))%N then ascii_of_N (n - 32) else c.

Fixpoint map_string (f : ascii -> ascii) (s : string) : string :=
  match s with
  | EmptyString => EmptyString
  | String c s' => String (f c) (map_string f s')
  end.

(** [s.toLowerCase()] and [s.toUpperCase()], on the letters A-Z and a-z. *)
Definition toLowerCase : string -> string := map_string lower_ascii.

(** Truthiness of a string: [if (s)]. *)
Definition truthy (s : string) : bool :=
  match s with EmptyString => false | _ => true end.

(** [a || b] on strings. *)
Definition or_else (a b : string) : string := if truthy a then a else b.

(** [s.slice(0, n)] for [n >= 0]. *)
Definition slice0 (n : nat) (s : string) : string := String.substring 0 n s.

(** [s.slice(n)] for [n >= 0]. *)
Fixpoint slice_from (n : nat) (s : string) : string :=
  match n, s with
  | O, _ => s
  | S n', String _ s' => slice_from n' s'
  | S _, EmptyString => EmptyString
  end.

(** The line feed, and the text a template writes as two of them. *)
Definition nl : string := String "010" "".
Definition nlnl : string := nl +:+ nl.

(** [parts.join(sep)] *)
Fixpoint join (sep : string) (parts : list string) : string :=
  match parts with
  | [] => ""
  | [p] => p
  | p :: rest => p +:+ sep +:+ join sep rest
  end.

(** [xs.some(p)] *)
Definition some {A} (p : A -> bool) (xs : list A) : bool := existsb p xs.

(** [s.split(sep)] for a separator that is not empty.  [skip] counts the
    characters of a separator found that are still to be passed over. *)
Fixpoint split_go (sep s : string) (skip : nat) (cur : string) : list string :=
  match s with
  | EmptyString => [cur]
  | String c s' =>
      match skip with
      | S k => split_go sep s' k cur
      | O =>
          if startsWith s sep
          then cur :: split_go sep s' (String.length sep - 1) ""
          else split_go sep s' 0 (cur +:+ String c "")
      end
  end.

Definition split (s sep : string) : list string := split_go sep s 0 "".

(** [s.trim()], for the blank characters of ASCII. *)
Fixpoint trimStart (s : string) : string :=
  match s with
  | String c s' => if Ascii.is_space c then trimStart s' else s
  | EmptyString => EmptyString
  end.

Definition trim (s : string) : string :=
  String.rev (trimStart (String.rev (trimStart s))).

(** [s.replace(pat, rep)] for a pattern that is one of the literal texts
    [pats] (tried in this order at every position): the leftmost match is
    replaced; [None] when there is no match ([pat.test(s)] is false). *)
Fixpoint replace_first (pats : list string) (rep s : string) : option string :=
  match List.find (startsWith s) pats with
  | Some p => Some (rep +:+ slice_from (String.length p) s)
  | None =>
      match s with
      | EmptyString => None
      | String c s' => String c <$> replace_first pats rep s'
      end
  end.

(** [xs.slice(-2)] *)
Definition last2 {A} (xs : list A) : list A := drop (length xs - 2) xs.

End Js.

(** ** Imports of [src/session.ts] from modules outside the sources *)

(** A tool's [input] object ([Record<string, unknown>]), restricted to the
    fields whose value is a string; an absent field reads as [undefined]. *)
Abbreviation tool_input := (gmap string string).

(** [String(input.k || dflt)] *)
Definition field_or (input : tool_input) (k dflt : string) : string :=
  match input !! k with
  | Some v => Js.or_else v dflt
  | None => dflt
  end.

Record Config := {
  (* ./config *)
  WORKING_DIR : string;
  TEMP_PATHS : list string;
  THINKING_DEEP_KEYWORDS : list string;
  THINKING_KEYWORDS : list string;
  STREAMING_THROTTLE_MS : Z;
  (* ./security *)
  checkCommandSafety : string -> bool * string;
  isPathAllowed : string -> bool;
  (* ./formatting, beyond the part at hand *)
  formatToolErrorStatus : string -> string;
  summarizeToolOutput : string -> string;
  extractToolResultText : string -> string;
  looksLikeError : string -> bool;
  (* Date.prototype.toLocaleDateString with the options of line 195 *)
  toLocaleDateString : Z -> string;
  (* Date.prototype.toISOString *)
  toISOString : Z -> string
}.

(** ** Tool status formatting (formatting.ts, lines 10-16 and 229-441) *)

Module Formatting.

Definition escape_char (c : ascii) : string :=
  if decide (c = "&"%char) then "&amp;"
  else if decide (c = "<"%char) then "&lt;"
  else if decide (c = ">"%char) then "&gt;"
  else if decide (c = "034"%char) then "&quot;"
  else String c "".

Fixpoint escapeHtml (text : string) : string :=
  match text with
  | EmptyString => ""
  | String c rest => escape_char c +:+ escapeHtml rest
  end.

Definition shortenPath (path : string) : string :=
  if negb (Js.truthy path) then "file"
  else
    let parts := Js.split path "/" in
    if (2 <=? length parts)%nat then Js.join "/" (Js.last2 parts)
    else Js.or_else (List.last parts "") path.

Definition truncate (text : string) (maxLen : nat) : string :=
  if negb (Js.truthy text) then ""
  else
    let cleaned :=
      Js.trim (Js.map_string (fun c => if decide (c = "010"%char) then " "%char else c) text) in
    if (String.length cleaned <=? maxLen)%nat then cleaned
    else Js.slice0 maxLen cleaned +:+ "...".

Definition code (text : string) : string :=
  "<code>" +:+ escapeHtml text +:+ "</code>".

Definition emojiMap : list (string * string) :=
  [ ("Read", "📖"); ("Write", "📝"); ("Edit", "✏️"); ("Bash", "▶️");
    ("Glob", "🔍"); ("Grep", "🔎"); ("WebSearch", "🔍"); ("WebFetch", "🌐");
    ("Task", "🎯"); ("TodoWrite", "📋"); ("mcp__", "🔧") ].

Definition imageExtensions : list string :=
  [".jpg"; ".jpeg"; ".png"; ".gif"; ".webp"; ".bmp"; ".svg"; ".ico"].

(** [action.charAt(0).toUpperCase() + action.slice(1)] *)
Definition capitalize (action : string) : string :=
  match action with
  | EmptyString => ""
  | String c rest => String (Js.upper_ascii c) rest
  end.

(** [input.k1 || input.k2 || ... || ""] *)
Fixpoint first_truthy (input : tool_input) (keys : list string) : string :=
  match keys with
  | [] => ""
  | k :: rest =>
      match input !! k with
      | Some v => if Js.truthy v then v else first_truthy input rest
      | None => first_truthy input rest
      end
  end.

Definition formatMcp (toolName : string) (toolInput : tool_input) : string :=
  match Js.split toolName "__" with
  | _ :: server :: action0 :: _ =>
      let action :=
        if Js.startsWith action0 (server +:+ "_")
        then Js.slice_from (String.length server + 1) action0 else action0 in
      let action := Js.map_string (fun c => if decide (c = "_"%char) then " "%char else c) action in
      let summary :=
        first_truthy toolInput
          ["name"; "title"; "query"; "description"; "content"; "text"; "id"] in
      let label := capitalize action in
      if Js.truthy summary then
        let detail := escapeHtml (truncate summary 40) in
        let date := first_truthy toolInput ["start_date"; "date"] in
        let detail :=
          if Js.truthy date
          then detail +:+ " (" +:+ escapeHtml (Js.slice0 10 date) +:+ ")"
          else detail in
        "🔧 " +:+ label +:+ ": " +:+ detail
      else "🔧 " +:+ label
  | _ => "🔧 " +:+ escapeHtml toolName
  end.

Definition formatToolStatus (toolName : string) (toolInput : tool_input) : string :=
  let emoji :=
    match List.find (fun kv => Js.includes toolName (fst kv)) emojiMap with
    | Some kv => snd kv
    | None => "🔧"
    end in
  if decide (toolName = "Read") then
    let filePath := field_or toolInput "file_path" "file" in
    let shortPath := shortenPath filePath in
    if Js.some (fun ext => Js.endsWith (Js.toLowerCase filePath) ext) imageExtensions
    then "👀 Viewing"
    else emoji +:+ " Reading " +:+ code shortPath
  else if decide (toolName = "Write") then
    emoji +:+ " Writing " +:+ code (shortenPath (field_or toolInput "file_path" "file"))
  else if decide (toolName = "Edit") then
    emoji +:+ " Editing " +:+ code (shortenPath (field_or toolInput "file_path" "file"))
  else if decide (toolName = "Bash") then
    let cmd := field_or toolInput "command" "" in
    let desc := field_or toolInput "description" "" in
    if Js.truthy desc then emoji +:+ " " +:+ escapeHtml desc
    else emoji +:+ " " +:+ code (truncate cmd 50)
  else if decide (toolName = "Grep") then
    let pattern := field_or toolInput "pattern" "" in
    let path := field_or toolInput "path" "" in
    if Js.truthy path
    then emoji +:+ " Searching " +:+ code (truncate pattern 30) +:+ " in " +:+ code (shortenPath path)
    else emoji +:+ " Searching " +:+ code (truncate pattern 40)
  else if decide (toolName = "Glob") then
    emoji +:+ " Finding " +:+ code (truncate (field_or toolInput "pattern" "") 50)
  else if decide (toolName = "WebSearch") then
    emoji +:+ " Searching: " +:+ escapeHtml (truncate (field_or toolInput "query" "") 50)
  else if decide (toolName = "WebFetch") then
    emoji +:+ " Fetching " +:+ code (truncate (field_or toolInput "url" "") 50)
  else if decide (toolName = "Task") then
    let desc := field_or toolInput "description" "" in
    if Js.truthy desc then emoji +:+ " Agent: " +:+ escapeHtml desc
    else emoji +:+ " Running agent..."
  else if decide (toolName = "Skill") then
    let skillName := field_or toolInput "skill" "" in
    if Js.truthy skillName then "💭 Using skill: " +:+ escapeHtml skillName
    else "💭 Using skill..."
  else if Js.startsWith toolName "mcp__" then formatMcp toolName toolInput
  else emoji +:+ " " +:+ escapeHtml toolName.

(** The patterns of [formatToolDoneStatus], each as the literal texts it
    matches, with its replacement. *)
Definition replacements : list (list string * string) :=
  [ (["🌐 Fetching "], "✅ Fetched ");
    (["🔍 Searching: "; "🔍 Searching "], "✅ Searched ");
    (["🔎 Searching "], "✅ Searched ");
    (["📖 Reading "], "✅ Read ");
    (["📝 Writing "], "✅ Wrote ");
    (["✏️ Editing "], "✅ Edited ");
    (["▶️ "], "✅ Ran ");
    (["🎯 Agent: "], "✅ Agent: ");
    (["🔧 "], "✅ ");
    (["👀 Viewing"], "✅ Viewed");
    (["🔍 Finding "], "✅ Found ") ].

Fixpoint formatToolDone_go (rs : list (list string * string)) (toolStatus : string) : string :=
  match rs with
  | [] => "✅ " +:+ toolStatus
  | (pats, replacement) :: rest =>
      match Js.replace_first pats replacement toolStatus with
      | Some done => done
      | None => formatToolDone_go rest toolStatus
      end
  end.

Definition formatToolDoneStatus (toolStatus : string) : string :=
  formatToolDone_go replacements toolStatus.

End Formatting.

(** ** [getThinkingLevel] (session.ts, lines 41-56) *)

Definition getThinkingLevel (cfg : Config) (message : string) : Z :=
  let msgLower := Js.toLowerCase message in
  if Js.some (fun k => Js.includes msgLower k) (THINKING_DEEP_KEYWORDS cfg) then 50000
  else if Js.some (fun k => Js.includes msgLower k) (THINKING_KEYWORDS cfg) then 10000
  else 0.

(** ** Data of the session module *)

(** [SavedSession] and [SessionHistory] (./types). *)
Record SavedSession := {
  session_id : string;
  saved_at : string;
  working_dir : string;
  title : string
}.

Definition MAX_SESSIONS : nat := 5.

Record TokenUsage := {
  input_tokens : Z;
  output_tokens : Z;
  cache_read_input_tokens : option Z;
  cache_creation_input_tokens : option Z
}.

(** Content blocks of a streamed message, by their [type]. *)
Inductive block :=
| Thinking (thinking : string)
| ToolUse (name : string) (input : tool_input) (id : option string)
| Text (text : string)
| ToolResult (tool_use_id : option string) (is_error : bool) (content : string)
| OtherBlock (type : string).

(** Streamed events ([SDKMessage]), by their [type]; the content of a user
    message is [None] when it is not an array. *)
Inductive event_body :=
| Assistant (content : list block)
| User (content : option (list block))
| Result (usage : option TokenUsage)
| OtherEvent (type : string).

Record event := {
  ev_session_id : option string;
  ev_body : event_body
}.

(** A thrown [Error] object. *)
Record JsError := {
  err_name : string;
  err_message : string
}.

(** [new Error(message)] *)
Definition Error (message : string) : JsError :=
  {| err_name := "Error"; err_message := message |}.

(** [String(error)], as [Error.prototype.toString] renders it. *)
Definition String_of_error (e : JsError) : string :=
  if negb (Js.truthy (err_name e)) then err_message e
  else if negb (Js.truthy (err_message e)) then err_name e
  else err_name e +:+ ": " +:+ err_message e.

(** Truthiness of [string | null | undefined]. *)
Definition truthy_opt (o : option string) : bool :=
  match o with Some s => Js.truthy s | None => false end.

(** Truthiness of [number | undefined]. *)
Definition truthy_num (o : option Z) : bool :=
  match o with Some n => negb (n =? 0) | None => false end.

(** The kinds of status update ([StatusCallback], ./types). *)
Inductive kind := thinking_k | tool_k | tool_done_k | text_k | segment_end_k | done_k.

#[global] Instance kind_eq_dec : EqDecision kind.
Proof. solve_decision. Defined.

(** One invocation [statusCallback(kind, payload, segmentId, toolId)];
    [awaited] tells whether the call site awaits the returned promise
    ([await statusCallback(...)]) or detaches it ([.catch(...)]). *)
Record StatusCall := {
  call_kind : kind;
  payload : string;
  segmentId : option nat;
  toolId : option string;
  awaited : bool
}.

(** The fields of [ClaudeSession]; [abortController] holds the token's
    [aborted] flag when a token exists. *)
Record ClaudeSession := {
  sessionId : option string;
  lastActivity : option Z;
  queryStarted : option Z;
  currentTool : option string;
  lastTool : option string;
  lastError : option string;
  lastErrorTime : option Z;
  lastUsage : option TokenUsage;
  conversationTitle : option string;
  abortController : option bool;
  isQueryRunning : bool;
  stopRequested : bool;
  _isProcessing : bool;
  _wasInterruptedByNewMessage : bool
}.

(** The session as the module creates it ([new ClaudeSession()]). *)
Definition new_ClaudeSession : ClaudeSession := {|
  sessionId := None; lastActivity := None; queryStarted := None;
  currentTool := None; lastTool := None; lastError := None;
  lastErrorTime := None; lastUsage := None; conversationTitle := None;
  abortController := None; isQueryRunning := false; stopRequested := false;
  _isProcessing := false; _wasInterruptedByNewMessage := false
|}.

(** The local variables of one [sendMessageStreaming] call (lines 264-276). *)
Record Locals := {
  responseParts : list string;
  currentSegmentId : nat;
  currentSegmentText : string;
  lastTextUpdate : Z;
  queryCompleted : bool;
  askUserTriggered : bool;
  pendingTools : gmap string string;
  timedOut : bool
}.

Definition new_Locals : Locals := {|
  responseParts := []; currentSegmentId := 0; currentSegmentText := "";
  lastTextUpdate := 0; queryCompleted := false; askUserTriggered := false;
  pendingTools := ∅; timedOut := false
|}.

(** What [query({prompt, options})] is called with, as far as it varies. *)
Record QueryRequest := {
  prompt : string;
  maxThinkingTokens : Z;
  resume : option string
}.

(** The state a call runs in: the session object, the locals of the running
    [sendMessageStreaming], the status-callback invocations so far (oldest
    first), the parsed content of [SESSION_FILE] ([None]: missing, empty or
    unreadable), the [query] calls so far, and what the surroundings will
    answer: the clock by the number of earlier readings, and
    [checkPendingAskUserRequests] by the number of earlier calls. *)
Record World := {
  session : ClaudeSession;
  locals : Locals;
  calls : list StatusCall;
  sessionFile : option (list SavedSession);
  queries : list QueryRequest;
  clock : nat -> Z;
  ticks : nat;
  buttons : nat -> bool;
  polls : nat
}.

Definition on_session (f : ClaudeSession -> ClaudeSession) (w : World) : World :=
  {| session := f (session w); locals := locals w; calls := calls w;
     sessionFile := sessionFile w; queries := queries w;
     clock := clock w; ticks := ticks w; buttons := buttons w; polls := polls w |}.

Definition on_locals (f : Locals -> Locals) (w : World) : World :=
  {| session := session w; locals := f (locals w); calls := calls w;
     sessionFile := sessionFile w; queries := queries w;
     clock := clock w; ticks := ticks w; buttons := buttons w; polls := polls w |}.

Definition on_calls (f : list StatusCall -> list StatusCall) (w : World) : World :=
  {| session := session w; locals := locals w; calls := f (calls w);
     sessionFile := sessionFile w; queries := queries w;
     clock := clock w; ticks := ticks w; buttons := buttons w; polls := polls w |}.

Definition on_sessionFile (f : option (list SavedSession) -> option (list SavedSession))
  (w : World) : World :=
  {| session := session w; locals := locals w; calls := calls w;
     sessionFile := f (sessionFile w); queries := queries w;
     clock := clock w; ticks := ticks w; buttons := buttons w; polls := polls w |}.

Definition on_queries (f : list QueryRequest -> list QueryRequest) (w : World) : World :=
  {| session := session w; locals := locals w; calls := calls w;
     sessionFile := sessionFile w; queries := f (queries w);
     clock := clock w; ticks := ticks w; buttons := buttons w; polls := polls w |}.

Definition tick (w : World) : World :=
  {| session := session w; locals := locals w; calls := calls w;
     sessionFile := sessionFile w; queries := queries w;
     clock := clock w; ticks := S (ticks w); buttons := buttons w; polls := polls w |}.

Definition poll (w : World) : World :=
  {| session := session w; locals := locals w; calls := calls w;
     sessionFile := sessionFile w; queries := queries w;
     clock := clock w; ticks := ticks w; buttons := buttons w; polls := S (polls w) |}.

(** Field updates of the session object. *)
Definition set_sessionId v (s : ClaudeSession) : ClaudeSession :=
  {| sessionId := v; lastActivity := lastActivity s; queryStarted := queryStarted s;
     currentTool := currentTool s; lastTool := lastTool s; lastError := lastError s;
     lastErrorTime := lastErrorTime s; lastUsage := lastUsage s;
     conversationTitle := conversationTitle s; abortController := abortController s;
     isQueryRunning := isQueryRunning s; stopRequested := stopRequested s;
     _isProcessing := _isProcessing s;
     _wasInterruptedByNewMessage := _wasInterruptedByNewMessage s |}.

Definition set_lastActivity v (s : ClaudeSession) : ClaudeSession :=
  {| sessionId := sessionId s; lastActivity := v; queryStarted := queryStarted s;
     currentTool := currentTool s; lastTool := lastTool s; lastError := lastError s;
     lastErrorTime := lastErrorTime s; lastUsage := lastUsage s;
     conversationTitle := conversationTitle s; abortController := abortController s;
     isQueryRunning := isQueryRunning s; stopRequested := stopRequested s;
     _isProcessing := _isProcessing s;
     _wasInterruptedByNewMessage := _wasInterruptedByNewMessage s |}.

Definition set_queryStarted v (s : ClaudeSession) : ClaudeSession :=
  {| sessionId := sessionId s; lastActivity := lastActivity s; queryStarted := v;
     currentTool := currentTool s; lastTool := lastTool s; lastError := lastError s;
     lastErrorTime := lastErrorTime s; lastUsage := lastUsage s;
     conversationTitle := conversationTitle s; abortController := abortController s;
     isQueryRunning := isQueryRunning s; stopRequested := stopRequested s;
     _isProcessing := _isProcessing s;
     _wasInterruptedByNewMessage := _wasInterruptedByNewMessage s |}.

Definition set_currentTool v (s : ClaudeSession) : ClaudeSession :=
  {| sessionId := sessionId s; lastActivity := lastActivity s; queryStarted := queryStarted s;
     currentTool := v; lastTool := lastTool s; lastError := lastError s;
     lastErrorTime := lastErrorTime s; lastUsage := lastUsage s;
     conversationTitle := conversationTitle s; abortController := abortController s;
     isQueryRunning := isQueryRunning s; stopRequested := stopRequested s;
     _isProcessing := _isProcessing s;
     _wasInterruptedByNewMessage := _wasInterruptedByNewMessage s |}.

Definition set_lastTool v (s : ClaudeSession) : ClaudeSession :=
  {| sessionId := sessionId s; lastActivity := lastActivity s; queryStarted := queryStarted s;
     currentTool := currentTool s; lastTool := v; lastError := lastError s;
     lastErrorTime := lastErrorTime s; lastUsage := lastUsage s;
     conversationTitle := conversationTitle s; abortController := abortController s;
     isQueryRunning := isQueryRunning s; stopRequested := stopRequested s;
     _isProcessing := _isProcessing s;
     _wasInterruptedByNewMessage := _wasInterruptedByNewMessage s |}.

Definition set_lastError v (s : ClaudeSession) : ClaudeSession :=
  {| sessionId := sessionId s; lastActivity := lastActivity s; queryStarted := queryStarted s;
     currentTool := currentTool s; lastTool := lastTool s; lastError := v;
     lastErrorTime := lastErrorTime s; lastUsage := lastUsage s;
     conversationTitle := conversationTitle s; abortController := abortController s;
     isQueryRunning := isQueryRunning s; stopRequested := stopRequested s;
     _isProcessing := _isProcessing s;
     _wasInterruptedByNewMessage := _wasInterruptedByNewMessage s |}.

Definition set_lastErrorTime v (s : ClaudeSession) : ClaudeSession :=
  {| sessionId := sessionId s; lastActivity := lastActivity s; queryStarted := queryStarted s;
     currentTool := currentTool s; lastTool := lastTool s; lastError := lastError s;
     lastErrorTime := v; lastUsage := lastUsage s;
     conversationTitle := conversationTitle s; abortController := abortController s;
     isQueryRunning := isQueryRunning s; stopRequested := stopRequested s;
     _isProcessing := _isProcessing s;
     _wasInterruptedByNewMessage := _wasInterruptedByNewMessage s |}.

Definition set_lastUsage v (s : ClaudeSession) : ClaudeSession :=
  {| sessionId := sessionId s; lastActivity := lastActivity s; queryStarted := queryStarted s;
     currentTool := currentTool s; lastTool := lastTool s; lastError := lastError s;
     lastErrorTime := lastErrorTime s; lastUsage := v;
     conversationTitle := conversationTitle s; abortController := abortController s;
     isQueryRunning := isQueryRunning s; stopRequested := stopRequested s;
     _isProcessing := _isProcessing s;
     _wasInterruptedByNewMessage := _wasInterruptedByNewMessage s |}.

Definition set_conversationTitle v (s : ClaudeSession) : ClaudeSession :=
  {| sessionId := sessionId s; lastActivity := lastActivity s; queryStarted := queryStarted s;
     currentTool := currentTool s; lastTool := lastTool s; lastError := lastError s;
     lastErrorTime := lastErrorTime s; lastUsage := lastUsage s;
     conversationTitle := v; abortController := abortController s;
     isQueryRunning := isQueryRunning s; stopRequested := stopRequested s;
     _isProcessing := _isProcessing s;
     _wasInterruptedByNewMessage := _wasInterruptedByNewMessage s |}.

Definition set_abortController v (s : ClaudeSession) : ClaudeSession :=
  {| sessionId := sessionId s; lastActivity := lastActivity s; queryStarted := queryStarted s;
     currentTool := currentTool s; lastTool := lastTool s; lastError := lastError s;
     lastErrorTime := lastErrorTime s; lastUsage := lastUsage s;
     conversationTitle := conversationTitle s; abortController := v;
     isQueryRunning := isQueryRunning s; stopRequested := stopRequested s;
     _isProcessing := _isProcessing s;
     _wasInterruptedByNewMessage := _wasInterruptedByNewMessage s |}.

Definition set_isQueryRunning v (s : ClaudeSession) : ClaudeSession :=
  {| sessionId := sessionId s; lastActivity := lastActivity s; queryStarted := queryStarted s;
     currentTool := currentTool s; lastTool := lastTool s; lastError := lastError s;
     lastErrorTime := lastErrorTime s; lastUsage := lastUsage s;
     conversationTitle := conversationTitle s; abortController := abortController s;
     isQueryRunning := v; stopRequested := stopRequested s;
     _isProcessing := _isProcessing s;
     _wasInterruptedByNewMessage := _wasInterruptedByNewMessage s |}.

Definition set_stopRequested v (s : ClaudeSession) : ClaudeSession :=
  {| sessionId := sessionId s; lastActivity := lastActivity s; queryStarted := queryStarted s;
     currentTool := currentTool s; lastTool := lastTool s; lastError := lastError s;
     lastErrorTime := lastErrorTime s; lastUsage := lastUsage s;
     conversationTitle := conversationTitle s; abortController := abortController s;
     isQueryRunning := isQueryRunning s; stopRequested := v;
     _isProcessing := _isProcessing s;
     _wasInterruptedByNewMessage := _wasInterruptedByNewMessage s |}.

Definition set_isProcessing v (s : ClaudeSession) : ClaudeSession :=
  {| sessionId := sessionId s; lastActivity := lastActivity s; queryStarted := queryStarted s;
     currentTool := currentTool s; lastTool := lastTool s; lastError := lastError s;
     lastErrorTime := lastErrorTime s; lastUsage := lastUsage s;
     conversationTitle := conversationTitle s; abortController := abortController s;
     isQueryRunning := isQueryRunning s; stopRequested := stopRequested s;
     _isProcessing := v;
     _wasInterruptedByNewMessage := _wasInterruptedByNewMessage s |}.

Definition set_wasInterruptedByNewMessage v (s : ClaudeSession) : ClaudeSession :=
  {| sessionId := sessionId s; lastActivity := lastActivity s; queryStarted := queryStarted s;
     currentTool := currentTool s; lastTool := lastTool s; lastError := lastError s;
     lastErrorTime := lastErrorTime s; lastUsage := lastUsage s;
     conversationTitle := conversationTitle s; abortController := abortController s;
     isQueryRunning := isQueryRunning s; stopRequested := stopRequested s;
     _isProcessing := _isProcessing s;
     _wasInterruptedByNewMessage := v |}.

(** Updates of the locals. *)
Definition set_responseParts v (l : Locals) : Locals :=
  {| responseParts := v; currentSegmentId := currentSegmentId l;
     currentSegmentText := currentSegmentText l; lastTextUpdate := lastTextUpdate l;
     queryCompleted := queryCompleted l; askUserTriggered := askUserTriggered l;
     pendingTools := pendingTools l; timedOut := timedOut l |}.

Definition set_currentSegmentId v (l : Locals) : Locals :=
  {| responseParts := responseParts l; currentSegmentId := v;
     currentSegmentText := currentSegmentText l; lastTextUpdate := lastTextUpdate l;
     queryCompleted := queryCompleted l; askUserTriggered := askUserTriggered l;
     pendingTools := pendingTools l; timedOut := timedOut l |}.

Definition set_currentSegmentText v (l : Locals) : Locals :=
  {| responseParts := responseParts l; currentSegmentId := currentSegmentId l;
     currentSegmentText := v; lastTextUpdate := lastTextUpdate l;
     queryCompleted := queryCompleted l; askUserTriggered := askUserTriggered l;
     pendingTools := pendingTools l; timedOut := timedOut l |}.

Definition set_lastTextUpdate v (l : Locals) : Locals :=
  {| responseParts := responseParts l; currentSegmentId := currentSegmentId l;
     currentSegmentText := currentSegmentText l; lastTextUpdate := v;
     queryCompleted := queryCompleted l; askUserTriggered := askUserTriggered l;
     pendingTools := pendingTools l; timedOut := timedOut l |}.

Definition set_queryCompleted v (l : Locals) : Locals :=
  {| responseParts := responseParts l; currentSegmentId := currentSegmentId l;
     currentSegmentText := currentSegmentText l; lastTextUpdate := lastTextUpdate l;
     queryCompleted := v; askUserTriggered := askUserTriggered l;
     pendingTools := pendingTools l; timedOut := timedOut l |}.

Definition set_askUserTriggered v (l : Locals) : Locals :=
  {| responseParts := responseParts l; currentSegmentId := currentSegmentId l;
     currentSegmentText := currentSegmentText l; lastTextUpdate := lastTextUpdate l;
     queryCompleted := queryCompleted l; askUserTriggered := v;
     pendingTools := pendingTools l; timedOut := timedOut l |}.

Definition set_pendingTools v (l : Locals) : Locals :=
  {| responseParts := responseParts l; currentSegmentId := currentSegmentId l;
     currentSegmentText := currentSegmentText l; lastTextUpdate := lastTextUpdate l;
     queryCompleted := queryCompleted l; askUserTriggered := askUserTriggered l;
     pendingTools := v; timedOut := timedOut l |}.

Definition set_timedOut v (l : Locals) : Locals :=
  {| responseParts := responseParts l; currentSegmentId := currentSegmentId l;
     currentSegmentText := currentSegmentText l; lastTextUpdate := lastTextUpdate l;
     queryCompleted := queryCompleted l; askUserTriggered := askUserTriggered l;
     pendingTools := pendingTools l; timedOut := v |}.

(** ** The monad of session code: state and exceptions *)

Inductive outcome (A : Type) :=
| Returns (a : A)
| Throws (e : JsError).
Arguments Returns {A} a.
Arguments Throws {A} e.

Definition M (A : Type) : Type := World -> outcome A * World.

#[global] Instance M_ret : MRet M := fun A a w => (Returns a, w).

#[global] Instance M_bind : MBind M := fun A B f m w =>
  match m w with
  | (Returns a, w') => f a w'
  | (Throws e, w') => (Throws e, w')
  end.

Definition throw {A} (e : JsError) : M A := fun w => (Throws e, w).

(** [try { body } catch (error) { handler }] *)
Definition try_catch {A} (body : M A) (handler : JsError -> M A) : M A := fun w =>
  match body w with
  | (Throws e, w') => handler e w'
  | r => r
  end.

(** [try { body } finally { fin }] *)
Definition try_finally {A} (body : M A) (fin : M unit) : M A := fun w =>
  match body w with
  | (r, w') =>
      match fin w' with
      | (Returns _, w'') => (r, w'')
      | (Throws e, w'') => (Throws e, w'')
      end
  end.

Definition get_session : M ClaudeSession := fun w => (Returns (session w), w).
Definition get_locals : M Locals := fun w => (Returns (locals w), w).
Definition update_session (f : ClaudeSession -> ClaudeSession) : M unit :=
  fun w => (Returns (), on_session f w).
Definition update_locals (f : Locals -> Locals) : M unit :=
  fun w => (Returns (), on_locals f w).

(** The empty statement. *)
Definition skip : M unit := mret ().

(** [for (const x of xs) { f(x) }], with no [break] in the body. *)
Fixpoint for_of {A} (f : A -> M unit) (xs : list A) : M unit :=
  match xs with
  | [] => mret ()
  | x :: rest => f x ;; for_of f rest
  end.

(** [Date.now()] and [new Date()]: one reading of the clock. *)
Definition Date_now : M Z := fun w => (Returns (clock w (ticks w)), tick w).

(** The two ways the module calls the status callback. *)
Definition awaiting : bool := true.
Definition detached : bool := false.

Definition statusCallback (aw : bool) (k : kind) (text : string)
  (seg : option nat) (tid : option string) : M unit := fun w =>
  (Returns (),
   on_calls (fun cs => cs ++ [ {| call_kind := k; payload := text; segmentId := seg;
                                  toolId := tid; awaited := aw |} ]) w).

(** One call of [checkPendingAskUserRequests(ctx, chatId)]. *)
Definition checkPendingAskUserRequests : M bool :=
  fun w => (Returns (buttons w (polls w)), poll w).

(** ** Methods of [ClaudeSession] outside a query *)

(** [get isActive] *)
Definition isActive (s : ClaudeSession) : bool :=
  match sessionId s with Some _ => true | None => false end.

(** [get isRunning] *)
Definition isRunning (s : ClaudeSession) : bool :=
  isQueryRunning s || _isProcessing s.

Definition consumeInterruptFlag : M bool :=
  s ← get_session;
  let was := _wasInterruptedByNewMessage s in
  update_session (set_wasInterruptedByNewMessage false) ;;
  (if was then update_session (set_stopRequested false) else mret ()) ;;
  mret was.

Definition markInterrupt : M unit :=
  update_session (set_wasInterruptedByNewMessage true).

Definition clearStopRequested : M unit :=
  update_session (set_stopRequested false).

(** [startProcessing] and the cleanup function it returns. *)
Definition startProcessing : M unit := update_session (set_isProcessing true).
Definition startProcessing_cleanup : M unit := update_session (set_isProcessing false).

(** The result of [stop]: ["stopped"], ["pending"] or [false]. *)
Inductive StopResult := stopped | pending | nothing_running.

(** [abortController.abort()] *)
Definition abort (s : ClaudeSession) : ClaudeSession :=
  set_abortController (const true <$> abortController s) s.

Definition stop : M StopResult :=
  s ← get_session;
  if isQueryRunning s && bool_decide (is_Some (abortController s)) then
    update_session (set_stopRequested true) ;;
    update_session abort ;;
    mret stopped
  else if _isProcessing s then
    update_session (set_stopRequested true) ;;
    mret pending
  else mret nothing_running.

Definition kill : M unit :=
  update_session (set_sessionId None) ;;
  update_session (set_lastActivity None) ;;
  update_session (set_conversationTitle None).

(** [loadSessionHistory]: the sessions of the file, none when the file is
    missing, empty or unreadable. *)
Definition loadSessionHistory : M (list SavedSession) :=
  fun w => (Returns (default [] (sessionFile w)), w).

(** Lines 611-623 of [saveSession]: the new list of sessions. *)
Definition upsert (newSession : SavedSession) (sessions : list SavedSession)
  : list SavedSession :=
  let sessions :=
    match list_find (fun s => session_id s = session_id newSession) sessions with
    | Some (existingIndex, _) => <[existingIndex := newSession]> sessions
    | None => newSession :: sessions
    end in
  take MAX_SESSIONS sessions.

(** [Bun.write(SESSION_FILE, JSON.stringify(history))] *)
Definition write_sessionFile (sessions : list SavedSession) : M unit :=
  fun w => (Returns (), on_sessionFile (fun _ => Some sessions) w).

Definition saveSession (cfg : Config) : M unit :=
  s ← get_session;
  if truthy_opt (sessionId s) then
    sessions ← loadSessionHistory;
    now ← Date_now;
    let newSession :=
      {| session_id := default "" (sessionId s);
         saved_at := toISOString cfg now;
         working_dir := WORKING_DIR cfg;
         title := Js.or_else (default "" (conversationTitle s)) "Sessione senza titolo" |} in
    write_sessionFile (upsert newSession sessions)
  else mret ().

Definition getSessionList (cfg : Config) : M (list SavedSession) :=
  sessions ← loadSessionHistory;
  mret (List.filter
          (fun s => negb (Js.truthy (working_dir s))
                    || bool_decide (working_dir s = WORKING_DIR cfg))
          sessions).

Definition resumeSession (cfg : Config) (id : string) : M (bool * string) :=
  sessions ← loadSessionHistory;
  match List.find (fun s => bool_decide (session_id s = id)) sessions with
  | None => mret (false, "Sessione non trovata")
  | Some sessionData =>
      if Js.truthy (working_dir sessionData)
         && negb (bool_decide (working_dir sessionData = WORKING_DIR cfg))
      then mret (false, "Sessione per directory diversa: " +:+ working_dir sessionData)
      else
        update_session (set_sessionId (Some (session_id sessionData))) ;;
        update_session (set_conversationTitle (Some (title sessionData))) ;;
        now ← Date_now;
        update_session (set_lastActivity (Some now)) ;;
        mret (true, "Ripresa sessione: " +:+ String "034" (title sessionData +:+ String "034" ""))
  end.

Definition resumeLast (cfg : Config) : M (bool * string) :=
  sessions ← getSessionList cfg;
  match sessions with
  | [] => mret (false, "Nessuna sessione salvata")
  | first :: _ => resumeSession cfg (session_id first)
  end.

(** ** [sendMessageStreaming]: reduction of one event (lines 300-518) *)

(** [if (id) { f(id) }] for an identifier that may be absent or empty. *)
Definition when_id (o : option string) (f : string -> M unit) : M unit :=
  match o with
  | Some i => if Js.truthy i then f i else skip
  | None => skip
  end.

(** Lines 329-337: a thinking block. *)
Definition thinkingBlock (thinkingText : string) : M unit :=
  if Js.truthy thinkingText
  then statusCallback detached thinking_k thinkingText None None
  else skip.

(** Lines 345-353: the safety check of Bash commands. *)
Definition checkBash (cfg : Config) (toolName : string) (toolInput : tool_input) : M unit :=
  if bool_decide (toolName = "Bash") then
    let command := field_or toolInput "command" "" in
    let (isSafe, reason) := checkCommandSafety cfg command in
    if negb isSafe then
      statusCallback awaiting tool_k ("BLOCKED: " +:+ reason) None None ;;
      throw (A := unit) (Error ("Unsafe command blocked: " +:+ reason))
    else skip
  else skip.

(** Line 360: reads from temp paths and [.claude] directories. *)
Definition isTmpRead (cfg : Config) (toolName filePath : string) : bool :=
  bool_decide (toolName = "Read")
  && (Js.some (fun p => Js.startsWith filePath p) (TEMP_PATHS cfg)
      || Js.includes filePath "/.claude/").

(** Lines 356-373: the safety check of file operations. *)
Definition checkFile (cfg : Config) (toolName : string) (toolInput : tool_input) : M unit :=
  if bool_decide (toolName ∈ ["Read"; "Write"; "Edit"]) then
    let filePath := field_or toolInput "file_path" "" in
    if Js.truthy filePath then
      if negb (isTmpRead cfg toolName filePath) && negb (isPathAllowed cfg filePath) then
        statusCallback awaiting tool_k ("Access denied: " +:+ filePath) None None ;;
        throw (A := unit) (Error ("File access blocked: " +:+ filePath))
      else skip
    else skip
  else skip.

(** Lines 376-384: the open segment ends when a tool starts. *)
Definition closeSegment : M unit :=
  l ← get_locals;
  if Js.truthy (currentSegmentText l) then
    let segText := currentSegmentText l in
    let segId := currentSegmentId l in
    statusCallback detached segment_end_k segText (Some segId) None ;;
    update_locals (fun l => set_currentSegmentId (S (currentSegmentId l)) l) ;;
    update_locals (set_currentSegmentText "")
  else skip.

(** Lines 415-427: up to [attempts] polls for ask-user buttons. *)
Fixpoint pollAskUser (attempts : nat) : M unit :=
  match attempts with
  | O => skip
  | S n =>
      buttonsSent ← checkPendingAskUserRequests;
      if (buttonsSent : bool) then update_locals (set_askUserTriggered true)
      else pollAskUser n
  end.

(** Lines 340-429: a tool-use block.  [ctx] tells whether a grammY context
    was passed. *)
Definition toolUseBlock (cfg : Config) (chatId : option Z) (ctx : bool)
  (toolName : string) (toolInput : tool_input) (toolUseId : option string) : M unit :=
  checkBash cfg toolName toolInput ;;
  checkFile cfg toolName toolInput ;;
  closeSegment ;;
  let toolDisplay := Formatting.formatToolStatus toolName toolInput in
  update_session (set_currentTool (Some toolDisplay)) ;;
  update_session (set_lastTool (Some toolDisplay)) ;;
  when_id toolUseId (fun i =>
    update_locals (fun l => set_pendingTools (<[i := toolDisplay]> (pendingTools l)) l)) ;;
  (if negb (Js.startsWith toolName "mcp__ask-user") then
     statusCallback detached tool_k toolDisplay None toolUseId
   else
     when_id toolUseId (fun i =>
       update_locals (fun l => set_pendingTools (delete i (pendingTools l)) l))) ;;
  if Js.startsWith toolName "mcp__ask-user" && ctx && truthy_num chatId
  then pollAskUser 3
  else skip.

(** Lines 441-458: a text block. *)
Definition textBlock (cfg : Config) (text : string) : M unit :=
  update_locals (fun l => set_responseParts (responseParts l ++ [text]) l) ;;
  update_locals (fun l => set_currentSegmentText (currentSegmentText l +:+ text) l) ;;
  now ← Date_now;
  l ← get_locals;
  if (STREAMING_THROTTLE_MS cfg <? now - lastTextUpdate l)
     && (20 <? String.length (currentSegmentText l))%nat
  then
    statusCallback awaiting text_k (currentSegmentText l) (Some (currentSegmentId l)) None ;;
    update_locals (set_lastTextUpdate now)
  else skip.

(** Lines 327-459: one content block of an assistant message. *)
Definition assistantBlock (cfg : Config) (chatId : option Z) (ctx : bool) (b : block) : M unit :=
  match b with
  | Thinking thinkingText => thinkingBlock thinkingText
  | ToolUse toolName toolInput toolUseId => toolUseBlock cfg chatId ctx toolName toolInput toolUseId
  | Text text => textBlock cfg text
  | ToolResult _ _ _ | OtherBlock _ => skip
  end.

(** Lines 473-497: a tool result in a user message. *)
Definition toolResultBlock (cfg : Config) (tool_use_id : option string)
  (is_error : bool) (content : string) : M unit :=
  when_id tool_use_id (fun i =>
    l ← get_locals;
    match pendingTools l !! i with
    | Some toolDisplay =>
        if Js.truthy toolDisplay then
          update_locals (fun l => set_pendingTools (delete i (pendingTools l)) l) ;;
          let resultText := extractToolResultText cfg content in
          let isError := is_error || looksLikeError cfg resultText in
          let doneDisplay :=
            (if isError then formatToolErrorStatus cfg toolDisplay
             else Formatting.formatToolDoneStatus toolDisplay)
            +:+ summarizeToolOutput cfg content in
          statusCallback detached tool_done_k doneDisplay None (Some i)
        else skip
    | None => skip
    end).

Definition userBlock (cfg : Config) (b : block) : M unit :=
  match b with
  | ToolResult tool_use_id is_error content => toolResultBlock cfg tool_use_id is_error content
  | _ => skip
  end.

(** How the body of the [for await] loop ends: with its last statement, or
    with [break]. *)
Inductive LoopExit := next_event | break.

(** Lines 319-323: the session id of the first message that has one. *)
Definition captureSessionId (cfg : Config) (e : event) : M unit :=
  s ← get_session;
  if negb (truthy_opt (sessionId s)) && truthy_opt (ev_session_id e) then
    update_session (set_sessionId (ev_session_id e)) ;;
    saveSession cfg
  else skip.

(** Lines 300-518: the body of the [for await] loop on one event. *)
Definition onEvent (cfg : Config) (chatId : option Z) (ctx : bool) (e : event) : M LoopExit :=
  s ← get_session;
  if stopRequested s then mret break
  else
    captureSessionId cfg e ;;
    match ev_body e with
    | Assistant content =>
        for_of (assistantBlock cfg chatId ctx) content ;;
        l ← get_locals;
        if askUserTriggered l then mret break else mret next_event
    | User content =>
        match content with
        | Some blocks => for_of (userBlock cfg) blocks
        | None => skip
        end ;;
        mret next_event
    | Result usage =>
        update_locals (set_queryCompleted true) ;;
        match usage with
        | Some u => update_session (set_lastUsage (Some u))
        | None => skip
        end ;;
        mret next_event
    | OtherEvent _ => mret next_event
    end.

(** ** The stream of one query *)

(** What happens while the loop waits for the generator: it yields an event,
    or, before that, [stop()] is called on the session or the inactivity timer
    set by [resetInactivityTimer] fires. *)
Inductive arrival :=
| Yields (e : event)
| StopCalled
| TimerFires.

(** How the generator ends once its arrivals are used up: by completing, or
    by raising. *)
Inductive stream_end :=
| Completes
| Raises (e : JsError).

Record stream := {
  arrivals : list arrival;
  ending : stream_end
}.

(** Lines 279-285: the callback of the inactivity timer. *)
Definition inactivityTimeout : M unit :=
  update_locals (set_timedOut true) ;;
  update_session abort.

(** Lines 300-518: the events the loop consumes.  The result tells how the
    loop body was left last: [break] ends the loop, [next_event] asks the
    generator for more. *)
Fixpoint consume (cfg : Config) (chatId : option Z) (ctx : bool)
  (items : list arrival) : M LoopExit :=
  match items with
  | [] => mret next_event
  | Yields e :: rest =>
      exit ← onEvent cfg chatId ctx e;
      match exit with
      | break => mret break
      | next_event => consume cfg chatId ctx rest
      end
  | StopCalled :: rest => stop ;; consume cfg chatId ctx rest
  | TimerFires :: rest => inactivityTimeout ;; consume cfg chatId ctx rest
  end.

(** Lines 300-518: the [for await] loop over a stream. *)
Definition forAwait (cfg : Config) (chatId : option Z) (ctx : bool) (str : stream) : M unit :=
  exit ← consume cfg chatId ctx (arrivals str);
  match exit, ending str with
  | break, _ => skip
  | next_event, Completes => skip
  | next_event, Raises e => throw e
  end.

(** ** [sendMessageStreaming] (lines 172-580) *)

Definition timeoutNotice : string :=
  "⏱ Response timed out (a tool call may have stalled). Try rephrasing or asking me to skip web lookups.".

(** Lines 522-524: the text of an error names a cancellation or an abort. *)
Definition isCleanupError (error : JsError) : bool :=
  let errorStr := Js.toLowerCase (String_of_error error) in
  Js.includes errorStr "cancel" || Js.includes errorStr "abort".

(** Lines 526-529: the condition under which an error is suppressed. *)
Definition isSuppressed (error : JsError) (s : ClaudeSession) (l : Locals) : bool :=
  isCleanupError error
  && (queryCompleted l || askUserTriggered l || stopRequested s || timedOut l).

(** Lines 521-540: the [catch] clause. *)
Definition onError (error : JsError) : M unit :=
  s ← get_session;
  l ← get_locals;
  if isSuppressed error s l then skip
  else
    update_session (set_lastError (Some (Js.slice0 100 (String_of_error error)))) ;;
    now ← Date_now;
    update_session (set_lastErrorTime (Some now)) ;;
    throw error.

(** Lines 541-547: the [finally] clause. *)
Definition cleanup : M unit :=
  update_session (set_isQueryRunning false) ;;
  update_session (set_abortController None) ;;
  update_session (set_queryStarted None) ;;
  update_session (set_currentTool None).

(** [query({prompt, options})]: the call is recorded; what the generator
    does is the [stream] passed to [sendMessageStreaming]. *)
Definition query (q : QueryRequest) : M unit :=
  fun w => (Returns (), on_queries (fun qs => qs ++ [q]) w).

(** Lines 553-579: the result of the call once the stream is left. *)
Definition assemble : M string :=
  l ← get_locals;
  if askUserTriggered l then
    statusCallback awaiting done_k "" None None ;;
    mret "[Waiting for user selection]"
  else
    (if Js.truthy (currentSegmentText l)
     then statusCallback awaiting segment_end_k (currentSegmentText l)
            (Some (currentSegmentId l)) None
     else skip) ;;
    if timedOut l then
      let partial := Js.join "" (responseParts l) in
      let noticeSegId := (currentSegmentId l + 1)%nat in
      statusCallback awaiting text_k timeoutNotice (Some noticeSegId) None ;;
      statusCallback awaiting segment_end_k timeoutNotice (Some noticeSegId) None ;;
      statusCallback awaiting done_k "" None None ;;
      mret (if Js.truthy partial then partial +:+ Js.nlnl +:+ timeoutNotice
            else timeoutNotice)
    else
      statusCallback awaiting done_k "" None None ;;
      mret (Js.or_else (Js.join "" (responseParts l)) "No response from Claude.").

(** Lines 185-254: the request to make, unless a stop is pending. *)
Definition preamble (cfg : Config) (message : string) : M QueryRequest :=
  s ← get_session;
  let isNewSession := negb (isActive s) in
  let thinkingTokens := getThinkingLevel cfg message in
  messageToSend ←
    (if isNewSession then
       now ← Date_now;
       mret ("[Current date/time: " +:+ toLocaleDateString cfg now +:+ "]"
             +:+ Js.nlnl +:+ message)
     else mret message);
  let q := {| prompt := messageToSend;
              maxThinkingTokens := thinkingTokens;
              resume := if truthy_opt (sessionId s) then sessionId s else None |} in
  (if truthy_opt (sessionId s) && negb isNewSession then skip
   else update_session (set_sessionId None)) ;;
  s ← get_session;
  if stopRequested s then
    update_session (set_stopRequested false) ;;
    throw (Error "Query cancelled")
  else mret q.

(** Lines 256-287: the token, the running flag and the locals. *)
Definition begin : M unit :=
  update_session (set_abortController (Some false)) ;;
  update_session (set_isQueryRunning true) ;;
  update_session (set_stopRequested false) ;;
  now ← Date_now;
  update_session (set_queryStarted (Some now)) ;;
  update_session (set_currentTool None) ;;
  update_locals (fun _ => new_Locals).

(** Lines 549-551. *)
Definition recordActivity : M unit :=
  now ← Date_now;
  update_session (set_lastActivity (Some now)) ;;
  update_session (set_lastError None) ;;
  update_session (set_lastErrorTime None).

Definition sendMessageStreaming (cfg : Config) (message : string)
  (chatId : option Z) (ctx : bool) (str : stream) : M string :=
  q ← preamble cfg message;
  begin ;;
  try_finally
    (try_catch (query q ;; forAwait cfg chatId ctx str) onError)
    cleanup ;;
  recordActivity ;;
  assemble.

(** A call of [sendMessageStreaming] up to the point where its loop starts:
    [enter] returns if no stop is pending, and leaves the world in which the
    first arrival is awaited. *)
Definition enter (cfg : Config) (message : string) : M unit :=
  q ← preamble cfg message;
  begin ;;
  query q.

(** ** A sample configuration and sample surroundings, for the examples *)

Module Sample.

Definition cfg : Config := {|
  WORKING_DIR := "/home/bot/work";
  TEMP_PATHS := ["/tmp/"; "/private/tmp/"];
  THINKING_DEEP_KEYWORDS := ["ultrathink"; "think hard"];
  THINKING_KEYWORDS := ["think"];
  STREAMING_THROTTLE_MS := 500;
  checkCommandSafety := fun command =>
    if Js.includes command "rm -rf /" then (false, "dangerous pattern")
    else (true, "");
  isPathAllowed := fun p => Js.startsWith p "/home/bot/";
  formatToolErrorStatus := fun toolStatus => "❌ " +:+ toolStatus;
  summarizeToolOutput := fun _ => "";
  extractToolResultText := fun content => content;
  looksLikeError := fun resultText => Js.startsWith resultText "Error";
  toLocaleDateString := fun _ => "Monday, January 1, 2024";
  toISOString := fun _ => "2024-01-01T00:00:00.000Z"
|}.

(** A fresh process: the session as created, no session file, a clock that
    advances by a second at every reading, and ask-user buttons that are
    sent at the first poll. *)
Definition world : World := {|
  session := new_ClaudeSession;
  locals := new_Locals;
  calls := [];
  sessionFile := None;
  queries := [];
  clock := fun n => 1000 * (Z.of_nat n + 1);
  ticks := 0;
  buttons := fun _ => true;
  polls := 0
|}.

Definition assistant (content : list block) : arrival :=
  Yields {| ev_session_id := Some "sess-1"; ev_body := Assistant content |}.

Definition user (content : list block) : arrival :=
  Yields {| ev_session_id := Some "sess-1"; ev_body := User (Some content) |}.

Definition result : arrival :=
  Yields {| ev_session_id := Some "sess-1"; ev_body := Result None |}.

Definition AbortError : JsError :=
  {| err_name := "AbortError"; err_message := "The operation was aborted" |}.

(** A reply in two segments around a file read. *)
Definition tool_stream : stream := {|
  arrivals :=
    [ assistant [Text "Let me read the file you mentioned."];
      assistant [ToolUse "Read" {[ "file_path" := "/home/bot/work/notes.txt" ]} (Some "toolu_1")];
      user [ToolResult (Some "toolu_1") false "three lines of notes"];
      assistant [Text "The file holds three lines of notes."];
      result ];
  ending := Completes
|}.

(** Text, an ask-user tool, and more text in one message. *)
Definition ask_stream : stream := {|
  arrivals :=
    [ assistant [ Text "One question first.";
                  ToolUse "mcp__ask-user__ask_user" ∅ (Some "toolu_2");
                  Text "Please pick one of the options below." ] ];
  ending := Completes
|}.

(** An unsafe shell command. *)
Definition unsafe_stream : stream := {|
  arrivals :=
    [ assistant [ToolUse "Bash" {[ "command" := "rm -rf / --no-preserve-root" ]}
                   (Some "toolu_3")] ];
  ending := Completes
|}.

(** The generator goes silent after some text; the timer fires, [stop] is
    called, and one more event still arrives before the generator raises. *)
Definition silent_arrivals : list arrival :=
  [ assistant [Text "Here are the result"]; TimerFires ].

Definition stopped_stream : stream := {|
  arrivals := silent_arrivals ++ [StopCalled; result];
  ending := Raises AbortError
|}.


(** A session file with two sessions, and the second of them resumed under
    a new title. *)
Definition two_sessions : list SavedSession :=
  [ {| session_id := "sess-a"; saved_at := "2023-12-31T10:00:00.000Z";
       working_dir := "/home/bot/work"; title := "First" |};
    {| session_id := "sess-b"; saved_at := "2023-12-30T10:00:00.000Z";
       working_dir := "/home/bot/work"; title := "Second" |} ].

Definition resumed_world : World :=
  on_sessionFile (fun _ => Some two_sessions)
    (on_session (fun s => set_conversationTitle (Some "Renamed")
                            (set_sessionId (Some "sess-b") s)) world).

(** A handler has called [startProcessing] and no query runs yet. *)
Definition processing_world : World := (startProcessing world).2.

(** The world in which the loop of a call for ["hello"] starts, and the one
    in which the tool of [tool_stream] is pending. *)
Definition entered_world : World := (enter cfg "hello" world).2.


End Sample.

(** ** [getTextFromMessage] (session.ts, lines 61-71) *)

Definition getTextFromMessage (msg : event) : option string :=
  match ev_body msg with
  | Assistant content =>
      let textParts :=
        omap (fun b => match b with Text text => Some text | _ => None end) content in
      if (0 <? length textParts)%nat then Some (Js.join "" textParts) else None
  | _ => None
  end.

(** ** Blockquotes (formatting.ts, lines 189-223) *)

Module Markdown.

(** The variables of the loop of [convertBlockquotes]. *)
Record quoting := {
  result : list string;
  inBlockquote : bool;
  blockquoteLines : list string
}.

(** [result.push("<blockquote>" + blockquoteLines.join("\n") + "</blockquote>")] *)
Definition blockquote (blockquoteLines : list string) : string :=
  "<blockquote>" +:+ Js.join Js.nl blockquoteLines +:+ "</blockquote>".

(** [line.slice(5).replace(/#/g, "")] *)
Fixpoint strip_hashes (s : string) : string :=
  match s with
  | EmptyString => ""
  | String c rest =>
      if decide (c = "#"%char) then strip_hashes rest else String c (strip_hashes rest)
  end.

(** The body of the loop, on one line. *)
Definition quote_line (st : quoting) (line : string) : quoting :=
  if Js.startsWith line "&gt; " || bool_decide (line = "&gt;") then
    {| result := result st;
       inBlockquote := true;
       blockquoteLines :=
         blockquoteLines st ++
         [ if bool_decide (line = "&gt;") then ""
           else strip_hashes (Js.slice_from 5 line) ] |}
  else if inBlockquote st then
    {| result := result st ++ [blockquote (blockquoteLines st); line];
       inBlockquote := false;
       blockquoteLines := [] |}
  else
    {| result := result st ++ [line];
       inBlockquote := false;
       blockquoteLines := blockquoteLines st |}.

Definition convertBlockquotes (text : string) : string :=
  let lines := Js.split text Js.nl in
  let st :=
    foldl quote_line {| result := []; inBlockquote := false; blockquoteLines := [] |}
      lines in
  let result :=
    if inBlockquote st then result st ++ [blockquote (blockquoteLines st)]
    else result st in
  Js.join Js.nl result.

End Markdown.

(** ** The document handler (handlers/document.ts) *)

Module Document.

Definition TEXT_EXTENSIONS : list string :=
  [ ".md"; ".txt"; ".json"; ".yaml"; ".yml"; ".csv"; ".xml"; ".html"; ".css";
    ".js"; ".ts"; ".py"; ".sh"; ".env"; ".log"; ".cfg"; ".ini"; ".toml" ].

Definition MAX_FILE_SIZE : Z := 10 * 1024 * 1024.

(** [ctx.message.document], as far as the handler reads it. *)
Record document := {
  file_name : option string;
  mime_type : option string;
  file_size : option Z
}.

(** What the handler finds around it: [TEMP_DIR] of ./config,
    [isAuthorized(userId, ALLOWED_USERS)] of ./security, and the files, as
    [Bun.file(path).text()] and pdf-parse read them. *)
Record Env := {
  TEMP_DIR : string;
  isAuthorized : Z -> bool;
  fileText : string -> outcome string;
  pdfText : string -> outcome string
}.

(** A character that the class [[^a-zA-Z0-9._-]] leaves out. *)
Definition name_char (c : ascii) : bool :=
  let n := N_of_ascii c in
  (((97 <=? n) && (n <=? 122)) || ((65 <=? n) && (n <=? 90))
   || ((48 <=? n) && (n <=? 57)) || (n =? 46) || (n =? 95) || (n =? 45))%N.

(** Line 61: [fileName.replace(/[^a-zA-Z0-9._-]/g, "_")] *)
Definition safeName (fileName : string) : string :=
  Js.map_string (fun c => if name_char c then c else "_"%char) fileName.

(** Lines 51-72.  [now] is what [Date.now()] answers, and [transfer] how
    [ctx.getFile()], the download and the write to disk end. *)
Definition downloadDocument (env : Env) (doc : option document) (now : Z)
  (transfer : outcome unit) : outcome string :=
  match doc with
  | None => Throws (Error "No document in message")
  | Some doc =>
      match transfer with
      | Throws e => Throws e
      | Returns _ =>
          let fileName := Js.or_else (default "" (file_name doc)) ("doc_" +:+ pretty now) in
          let docPath := TEMP_DIR env +:+ "/" +:+ safeName fileName in
          Returns docPath
      end
  end.

(** ["." + (fileName.split(".").pop() || "").toLowerCase()] (lines 79 and
    227). *)
Definition extension_of (fileName : string) : string :=
  "." +:+ Js.toLowerCase (Js.or_else (List.last (Js.split fileName ".") "") "").

(** [`${extension || mimeType}`] *)
Definition shown_type (extension : string) (mimeType : option string) : string :=
  if Js.truthy extension then extension else default "undefined" mimeType.

(** Lines 77-97. *)
Definition extractText (env : Env) (filePath : string) (mimeType : option string)
  : outcome string :=
  let fileName := Js.or_else (List.last (Js.split filePath "/") "") "" in
  let extension := extension_of fileName in
  if bool_decide (mimeType = Some "application/pdf") || bool_decide (extension = ".pdf")
  then pdfText env filePath
  else if bool_decide (extension ∈ TEXT_EXTENSIONS)
          || from_option (fun m => Js.startsWith m "text/") false mimeType
  then
    match fileText env filePath with
    | Returns text => Returns (Js.slice0 (N.to_nat 100000) text)
    | Throws e => Throws e
    end
  else Throws (Error ("Unsupported file type: " +:+ shown_type extension mimeType)).

(** How the checks of [handleDocument] end: the handler returns without a
    word, it replies and returns, or it goes on to the download. *)
Inductive checked :=
| Ignored
| Refused (reply : string)
| Accepted.

(** Lines 203-237 of [handleDocument]: the checks before the download. *)
Definition checks (env : Env) (userId chatId : option Z) (doc : option document)
  : checked :=
  match userId, doc with
  | Some userId, Some doc =>
      if negb (userId =? 0) && truthy_num chatId then
        if negb (isAuthorized env userId)
        then Refused "Unauthorized. Contact the bot owner for access."
        else if truthy_num (file_size doc)
                && from_option (fun size => MAX_FILE_SIZE <? size) false (file_size doc)
        then Refused "‚ùå File too large. Maximum size is 10MB."
        else
          let fileName := default "" (file_name doc) in
          let extension := extension_of fileName in
          let isPdf :=
            bool_decide (mime_type doc = Some "application/pdf")
            || bool_decide (extension = ".pdf") in
          let isText :=
            bool_decide (extension ∈ TEXT_EXTENSIONS)
            || from_option (fun m => Js.startsWith m "text/") false (mime_type doc) in
          if negb isPdf && negb isText then
            Refused ("‚ùå Unsupported file type: " +:+ shown_type extension (mime_type doc)
                     +:+ Js.nlnl +:+ "Supported: PDF, " +:+ Js.join ", " TEXT_EXTENSIONS)
          else Accepted
      else Ignored
  | _, _ => Ignored
  end.

End Document.

(** ** Notions the statements use *)


(** The sessions on file. *)
Definition persisted (w : World) : list SavedSession := default [] (sessionFile w).

(** Lines 320-322: a session id is captured and the session is saved. *)
Definition saveAs (cfg : Config) (id : string) : M unit :=
  update_session (set_sessionId (Some id)) ;; saveSession cfg.

(** The record [saveSession] writes for the session of [w]. *)
Definition newSession_of (cfg : Config) (w : World) : SavedSession :=
  {| session_id := default "" (sessionId (session w));
     saved_at := toISOString cfg (clock w (ticks w));
     working_dir := WORKING_DIR cfg;
     title := Js.or_else (default "" (conversationTitle (session w)))
                "Sessione senza titolo" |}.

(** Arrivals among which the generator yields nothing. *)
Definition quiet (items : list arrival) : Prop :=
  Forall (fun a => match a with Yields _ => False | _ => True end) items.

(** The segment ids that [segment_end] calls carry, in the order of the
    calls, and the number of [segment_end] calls that carry [k]. *)
Definition seg_ends (cs : list StatusCall) : list nat :=
  omap (fun c => if decide (call_kind c = segment_end_k) then segmentId c else None) cs.

Definition ends_count (cs : list StatusCall) (k : nat) : nat :=
  count_occ Nat.eq_dec (seg_ends cs) k.

(** Some call of [cs] carries the segment id [k]. *)
Definition carried (cs : list StatusCall) (k : nat) : Prop :=
  exists c, c ∈ cs /\ segmentId c = Some k.

(** The segment ids never decrease along the calls. *)
Definition ids_nondecreasing (cs : list StatusCall) : Prop :=
  forall i j c d a b,
    cs !! i = Some c -> cs !! j = Some d ->
    segmentId c = Some a -> segmentId d = Some b ->
    (i <= j)%nat -> (a <= b)%nat.

(** Every segment id carried is below [n]. *)
Definition ids_below (n : nat) (cs : list StatusCall) : Prop :=
  forall k, carried cs k -> (k < n)%nat.

(** A status call that reports a blocked tool invocation. *)
Definition denial (c : StatusCall) : Prop :=
  (exists reason, payload c = "BLOCKED: " +:+ reason)
  \/ (exists filePath, payload c = "Access denied: " +:+ filePath).

(** How the calls made while the stream is consumed treat the promise. *)
Definition loop_call (c : StatusCall) : Prop :=
  match call_kind c with
  | text_k => awaited c = true
  | segment_end_k | thinking_k | tool_done_k => awaited c = false
  | tool_k => awaited c = true -> denial c
  | done_k => False
  end.


(** Every pending tool has an identifier and a display that are not empty. *)
Definition pending_ok (pt : gmap string string) : Prop :=
  forall i d, pt !! i = Some d -> Js.truthy i = true /\ Js.truthy d = true.

(** A query is running: the flag is set and the token exists. *)
Definition running (s : ClaudeSession) : Prop :=
  isQueryRunning s = true /\ is_Some (abortController s).

(** What the status calls [cs] of a query and its locals have in common
    while the stream is consumed. *)
Record seg_inv (cs : list StatusCall) (l : Locals) : Prop := {
  ends_seq : seg_ends cs = seq 0 (currentSegmentId l);
  ids_le : ids_below (S (currentSegmentId l)) cs;
  ids_mono : ids_nondecreasing cs;
  ids_lt : currentSegmentText l = "" -> ids_below (currentSegmentId l) cs
}.

(** The invariant of the loop of a call that found the status calls [base]
    made before it. *)
Definition Inv (base : list StatusCall) (w : World) : Prop :=
  (exists cs, calls w = base ++ cs /\ seg_inv cs (locals w) /\ Forall loop_call cs)
  /\ pending_ok (pendingTools (locals w))
  /\ running (session w).



(** [m] keeps the property [I] of worlds, whatever its outcome. *)
Definition keeps (I : World -> Prop) {A} (m : M A) : Prop :=
  forall w, I w -> I (m w).2.

(** The world once the stream is left without a failure to report: after
    the [finally] clause and lines 549-551. *)
Definition leave (w : World) : World := ((cleanup ;; recordActivity) w).2.

(** The world once the stream is left with the failure [error] to report:
    after the [catch] and [finally] clauses. *)
Definition fail_with (error : JsError) (w : World) : World :=
  (cleanup
     (on_session (set_lastErrorTime (Some (clock w (ticks w))))
        (tick (on_session
                 (set_lastError (Some (Js.slice0 100 (String_of_error error)))) w)))).2.

(** The status calls of lines 559-573 for the locals [l]: the open segment
    if it has text, then the timeout notice if the timer fired. *)
Definition flush_calls (l : Locals) : list StatusCall :=
  if Js.truthy (currentSegmentText l) then
    [ {| call_kind := segment_end_k; payload := currentSegmentText l;
         segmentId := Some (currentSegmentId l); toolId := None; awaited := true |} ]
  else [].

Definition notice_calls (l : Locals) : list StatusCall :=
  [ {| call_kind := text_k; payload := timeoutNotice;
       segmentId := Some (S (currentSegmentId l)); toolId := None; awaited := true |};
    {| call_kind := segment_end_k; payload := timeoutNotice;
       segmentId := Some (S (currentSegmentId l)); toolId := None; awaited := true |} ].

Definition done_call : StatusCall :=
  {| call_kind := done_k; payload := ""; segmentId := None; toolId := None;
     awaited := true |}.

Definition final_calls (l : Locals) : list StatusCall :=
  if askUserTriggered l then [done_call]
  else flush_calls l ++ (if timedOut l then notice_calls l else []) ++ [done_call].


(** [w'] differs from [w] at most in flags that [stop] and the timer set:
    the calls and the text gathered are the same, the timer has fired in
    [w'] if it had in [w], and so for the request to stop. *)
Definition flagged (w w' : World) : Prop :=
  calls w' = calls w
  /\ responseParts (locals w') = responseParts (locals w)
  /\ currentSegmentId (locals w') = currentSegmentId (locals w)
  /\ currentSegmentText (locals w') = currentSegmentText (locals w)
  /\ askUserTriggered (locals w') = askUserTriggered (locals w)
  /\ (timedOut (locals w) = true -> timedOut (locals w') = true)
  /\ (stopRequested (session w) = true -> stopRequested (session w') = true).

(** ** Notions the statements about formatting use *)

(** The characters of a string, and how often [c] is among them. *)
Definition chars : string -> list ascii := list_ascii_of_string.

Definition count_char (c : ascii) (s : string) : nat :=
  length (List.filter (fun d => bool_decide (d = c)) (chars s)).

(** The characters that open or close markup: [<], [>] and the double
    quote; a string is plain when it has none of them. *)
Definition markup_char (c : ascii) : bool :=
  bool_decide (c ∈ ["<"; ">"; "034"]%char).

Definition plain (s : string) : Prop :=
  forallb (fun c => negb (markup_char c)) (chars s) = true.

(** The characters that [escapeHtml] rewrites. *)
Definition special_char (c : ascii) : bool :=
  bool_decide (c ∈ ["&"; "<"; ">"; "034"]%char).

(** A display made of plain text and of [<code>] elements whose content is
    plain. *)
Inductive piece :=
| Plain (s : string)
| Code (s : string).

Definition piece_text (p : piece) : string :=
  match p with Plain s | Code s => s end.

Definition render (p : piece) : string :=
  match p with
  | Plain s => s
  | Code s => "<code>" +:+ s +:+ "</code>"
  end.

Definition well_marked (s : string) : Prop :=
  exists ps, s = Js.join "" (render <$> ps) /\ Forall (fun p => plain (piece_text p)) ps.

(** ** Notions the statements about the session use *)

(** The fields of the session that the handlers set for themselves. *)
Definition handler_fields (s : ClaudeSession) : bool * bool * option string :=
  (_isProcessing s, _wasInterruptedByNewMessage s, conversationTitle s).

(** No query holds the session. *)
Definition released (s : ClaudeSession) : Prop :=
  isQueryRunning s = false /\ abortController s = None
  /\ queryStarted s = None /\ currentTool s = None.

(** Lines 325-517: what the loop does with an event once the stop flag was
    read and the session id captured. *)
Definition eventBody (cfg : Config) (chatId : option Z) (ctx : bool) (e : event)
  : M LoopExit :=
  match ev_body e with
  | Assistant content =>
      for_of (assistantBlock cfg chatId ctx) content ;;
      l ← get_locals;
      if askUserTriggered l then mret break else mret next_event
  | User content =>
      match content with
      | Some blocks => for_of (userBlock cfg) blocks
      | None => skip
      end ;;
      mret next_event
  | Result usage =>
      update_locals (set_queryCompleted true) ;;
      match usage with
      | Some u => update_session (set_lastUsage (Some u))
      | None => skip
      end ;;
      mret next_event
  | OtherEvent _ => mret next_event
  end.

(** The reply for the locals [l] of a call that returns (lines 553-579). *)
Definition reply_of (l : Locals) : string :=
  let partial := Js.join "" (responseParts l) in
  if askUserTriggered l then "[Waiting for user selection]"
  else if timedOut l then
    (if Js.truthy partial then partial +:+ Js.nlnl +:+ timeoutNotice else timeoutNotice)
  else Js.or_else partial "No response from Claude.".

(** The handler fields of the session are those of [s0]. *)
Definition same_handler_fields (s0 : ClaudeSession) (w : World) : Prop :=
  handler_fields (session w) = handler_fields s0.

(** The time of the last activity is [a]. *)
Definition same_activity (a : option Z) (w : World) : Prop :=
  lastActivity (session w) = a.

(** The session has the id [id], the session file holds [file] and the
    queries made are [qs]. *)
Definition resumed (id : string) (file : option (list SavedSession))
  (qs : list QueryRequest) (w : World) : Prop :=
  sessionId (session w) = Some id /\ sessionFile w = file /\ queries w = qs.

(** A tool invocation that passes the checks of lines 345-373. *)
Definition passes (cfg : Config) (toolName : string) (toolInput : tool_input) : Prop :=
  (toolName = "Bash" ->
   (checkCommandSafety cfg (field_or toolInput "command" "")).1 = true)
  /\ (toolName ∈ ["Read"; "Write"; "Edit"] ->
      Js.truthy (field_or toolInput "file_path" "") = true ->
      isTmpRead cfg toolName (field_or toolInput "file_path" "")
      || isPathAllowed cfg (field_or toolInput "file_path" "") = true).

(** An event none of whose tool invocations is blocked or asks the user. *)
Definition calm_block (cfg : Config) (b : block) : Prop :=
  match b with
  | ToolUse toolName toolInput _ =>
      passes cfg toolName toolInput /\ Js.startsWith toolName "mcp__ask-user" = false
  | _ => True
  end.

Definition calm (cfg : Config) (e : event) : Prop :=
  match ev_body e with
  | Assistant content => Forall (calm_block cfg) content
  | _ => True
  end.

(** The texts of the text blocks of a content, and of an event. *)
Definition texts_of (content : list block) : list string :=
  omap (fun b => match b with Text text => Some text | _ => None end) content.

Definition event_texts (e : event) : list string :=
  match ev_body e with
  | Assistant content => texts_of content
  | _ => []
  end.

(** A world in which no stop is requested, no ask-user interaction was
    triggered and the timer has not fired; and code that, run in such a
    world, returns [a] in such a world with [texts] added to the text
    gathered. *)
Definition steady (w : World) : Prop :=
  stopRequested (session w) = false
  /\ askUserTriggered (locals w) = false
  /\ timedOut (locals w) = false.

Definition gathers {A} (m : M A) (texts : list string) (a : A) : Prop :=
  forall w, steady w ->
    exists w', m w = (Returns a, w') /\ steady w'
               /\ responseParts (locals w') = responseParts (locals w) ++ texts.

(** ** Notions the statements about documents use *)

(** All characters of [s] are lower-case letters. *)
Definition lower_letters (s : string) : bool :=
  forallb (fun c => (97 <=? N_of_ascii c)%N && (N_of_ascii c <=? 122)%N) (chars s).

(** The text of a file, cut as [extractText] cuts it. *)
Definition cut_text (o : outcome string) : outcome string :=
  match o with
  | Returns text => Returns (Js.slice0 (N.to_nat 100000) text)
  | Throws e => Throws e
  end.

(** ** Notions the statements about blockquotes use *)

(** A line that [convertBlockquotes] takes for a quoted line, and what it
    keeps of it. *)
Definition quoted_line (line : string) : bool :=
  Js.startsWith line "&gt; " || bool_decide (line = "&gt;").

Definition quoted_text (line : string) : string :=
  if bool_decide (line = "&gt;") then ""
  else Markdown.strip_hashes (Js.slice_from 5 line).

(** ** Notions the statement about segments uses *)

(** The texts that the [segment_end] calls among [cs] carry, in order. *)
Definition segment_texts (cs : list StatusCall) : list string :=
  payload <$> List.filter (fun c => bool_decide (call_kind c = segment_end_k)) cs.

(** The calls made since [base] and the locals agree: the segments that
    were ended and the segment that is open add up to the text gathered. *)
Definition adds_up (base : list StatusCall) (w : World) : Prop :=
  exists cs,
    calls w = base ++ cs
    /\ Js.join "" (segment_texts cs) +:+ currentSegmentText (locals w)
       = Js.join "" (responseParts (locals w)).

(** ** Notions the statements about queries use *)

(** The request that a call for [message] makes when it starts in the world
    [w] (lines 185-233 and 291-297). *)
Definition request_of (cfg : Config) (message : string) (w : World) : QueryRequest :=
  {| prompt :=
       if isActive (session w) then message
       else "[Current date/time: " +:+ toLocaleDateString cfg (clock w (ticks w))
            +:+ "]" +:+ Js.nlnl +:+ message;
     maxThinkingTokens := getThinkingLevel cfg message;
     resume := if truthy_opt (sessionId (session w)) then sessionId (session w) else None |}.

(** The queries made are [qs]. *)
Definition same_queries (qs : list QueryRequest) (w : World) : Prop := queries w = qs.

(** * Properties *)

(** ** Running monadic code on a world *)

(** Unfolds the operations of the monad, then the field updates met. *)
Ltac unfold_m :=
  cbv [mbind M_bind mret M_ret skip throw get_session get_locals update_session
       update_locals statusCallback Date_now checkPendingAskUserRequests
       loadSessionHistory write_sessionFile query try_catch try_finally when_id].

Ltac wsimpl :=
  cbn [fst snd
       session locals calls sessionFile queries clock ticks buttons polls
       on_session on_locals on_calls on_sessionFile on_queries tick poll
       sessionId lastActivity queryStarted currentTool lastTool lastError
       lastErrorTime lastUsage conversationTitle abortController isQueryRunning
       stopRequested _isProcessing _wasInterruptedByNewMessage
       set_sessionId set_lastActivity set_queryStarted set_currentTool set_lastTool
       set_lastError set_lastErrorTime set_lastUsage set_conversationTitle
       set_abortController set_isQueryRunning set_stopRequested set_isProcessing
       set_wasInterruptedByNewMessage abort
       responseParts currentSegmentId currentSegmentText lastTextUpdate
       queryCompleted askUserTriggered pendingTools timedOut
       set_responseParts set_currentSegmentId set_currentSegmentText
       set_lastTextUpdate set_queryCompleted set_askUserTriggered set_pendingTools
       set_timedOut new_Locals] in *.

Ltac run := unfold_m; wsimpl.

Lemma bind_run {A B} (m : M A) (f : A -> M B) (w : World) :
  (m ≫= f) w =
  match m w with
  | (Returns a, w') => f a w'
  | (Throws e, w') => (Throws e, w')
  end.
Proof. reflexivity. Qed.

(** ** String primitives *)

Lemma append_nil_l (s : string) : "" +:+ s = s.
Proof. reflexivity. Qed.

Lemma append_cons (c : ascii) (s t : string) : String c s +:+ t = String c (s +:+ t).
Proof. reflexivity. Qed.

Lemma startsWith_spec (s p : string) :
  Js.startsWith s p = true <-> exists post, s = p +:+ post.
Proof.
  unfold Js.startsWith. revert s.
  induction p as [|c p IH]; intros [|d s]; simpl.
  - split; [intros _; by exists "" | done].
  - split; [intros _; by exists (String d s) | done].
  - split; [done | intros [post Hpost]; by rewrite append_cons in Hpost].
  - destruct (ascii_dec c d) as [->|Hne].
    + rewrite IH. split; intros [post Hpost]; exists post;
        rewrite append_cons in *; congruence.
    + split; [done | intros [post Hpost]; rewrite append_cons in Hpost; congruence].
Qed.

Lemma includes_nil (k : string) : Js.includes "" k = Js.startsWith "" k.
Proof. unfold Js.includes. apply orb_false_r. Qed.

Lemma includes_cons (c : ascii) (s k : string) :
  Js.includes (String c s) k = Js.startsWith (String c s) k || Js.includes s k.
Proof. reflexivity. Qed.

Lemma includes_spec (s k : string) :
  Js.includes s k = true <-> exists pre post, s = pre +:+ k +:+ post.
Proof.
  induction s as [|c s IH].
  - rewrite includes_nil, startsWith_spec. split.
    + intros [post Hpost]. by exists "", post.
    + intros ([|d pre] & post & Hpost).
      * by exists post.
      * by rewrite append_cons in Hpost.
  - rewrite includes_cons, orb_true_iff, startsWith_spec, IH. split.
    + intros [[post Hpost] | (pre & post & Hpost)].
      * by exists "", post.
      * exists (String c pre), post. by rewrite append_cons, Hpost.
    + intros ([|d pre] & post & Hpost).
      * left. by exists post.
      * right. exists pre, post. rewrite append_cons in Hpost. congruence.
Qed.





(** ** The thinking level *)





Example getThinkingLevel_sample :
  getThinkingLevel Sample.cfg "Please THINK HARD about what to think" = 50000
  /\ getThinkingLevel Sample.cfg "I Think so" = 10000
  /\ getThinkingLevel Sample.cfg "hi" = 0.
Proof. by vm_compute. Qed.

(** ** The session index *)

Lemma upsert_fresh (r : SavedSession) (l : list SavedSession) :
  session_id r ∉ session_id <$> l ->
  upsert r l = take MAX_SESSIONS (r :: l).
Proof.
  intros Hfresh. unfold upsert.
  destruct (list_find _ l) as [[i x]|] eqn:Hfind; [|done].
  apply list_find_Some in Hfind as (Hi & Hx & _).
  exfalso. apply Hfresh. rewrite <- Hx.
  apply list_elem_of_fmap. exists x. split; [done|]. by eapply list_elem_of_lookup_2.
Qed.

Lemma upsert_existing (r : SavedSession) (l : list SavedSession) :
  session_id r ∈ session_id <$> l ->
  exists i x, l !! i = Some x /\ session_id x = session_id r
    /\ (forall j y, l !! j = Some y -> (j < i)%nat -> session_id y <> session_id r)
    /\ upsert r l = take MAX_SESSIONS (<[i := r]> l).
Proof.
  intros Hin. unfold upsert.
  destruct (list_find _ l) as [[i x]|] eqn:Hfind.
  - apply list_find_Some in Hfind as (Hi & Hx & Hfirst). by exists i, x.
  - exfalso. apply list_find_None in Hfind.
    apply list_elem_of_fmap in Hin as (y & Hy & Hyl).
    rewrite Forall_forall in Hfind. by apply (Hfind y Hyl).
Qed.

(** The ids of the index after an upsert depend on the ids before only. *)
Lemma upsert_ids (r : SavedSession) (l : list SavedSession) :
  session_id <$> upsert r l =
  if decide (session_id r ∈ session_id <$> l)
  then take MAX_SESSIONS (session_id <$> l)
  else take MAX_SESSIONS (session_id r :: (session_id <$> l)).
Proof.
  destruct (decide _) as [Hin|Hfresh].
  - destruct (upsert_existing r l Hin) as (i & x & Hi & Hx & _ & ->).
    rewrite fmap_take, list_fmap_insert. f_equal.
    apply list_insert_id. by rewrite list_lookup_fmap, Hi, <- Hx.
  - rewrite (upsert_fresh r l Hfresh). by rewrite fmap_take.
Qed.

Lemma NoDup_take {A} (n : nat) (l : list A) : NoDup l -> NoDup (take n l).
Proof.
  intros Hl. rewrite <- (take_drop n l) in Hl. by apply NoDup_app in Hl as (? & _ & _).
Qed.

Lemma take_app_take {A} (n : nat) (a b : list A) :
  take n (a ++ take n b) = take n (a ++ b).
Proof.
  rewrite !take_app, take_take. do 2 f_equal. lia.
Qed.

Lemma upsert_NoDup (r : SavedSession) (l : list SavedSession) :
  NoDup (session_id <$> l) -> NoDup (session_id <$> upsert r l).
Proof.
  intros Hl. rewrite upsert_ids. destruct (decide _).
  - by apply NoDup_take.
  - apply NoDup_take. by constructor.
Qed.

Lemma upsert_length (r : SavedSession) (l : list SavedSession) :
  (length (upsert r l) <= MAX_SESSIONS)%nat.
Proof. unfold upsert. rewrite length_take. lia. Qed.

(** What [saveSession] does to the session file. *)
Lemma saveSession_file (cfg : Config) (w : World) :
  truthy_opt (sessionId (session w)) = true ->
  sessionFile (saveSession cfg w).2 = Some (upsert (newSession_of cfg w) (persisted w)).
Proof.
  intros Hid. unfold saveSession. run. by rewrite Hid.
Qed.

Lemma saveSession_falsy (cfg : Config) (w : World) :
  truthy_opt (sessionId (session w)) = false ->
  saveSession cfg w = (Returns (), w).
Proof.
  intros Hid. unfold saveSession. run. by rewrite Hid.
Qed.

Lemma saveAs_file (cfg : Config) (id : string) (w : World) :
  Js.truthy id = true ->
  exists r, session_id r = id
    /\ persisted (saveAs cfg id w).2 = upsert r (persisted w).
Proof.
  intros Hid. unfold saveAs. rewrite bind_run. unfold update_session at 1.
  set (w1 := on_session (set_sessionId (Some id)) w).
  exists (newSession_of cfg w1). split; [done|].
  unfold persisted at 1. rewrite saveSession_file by done. done.
Qed.

Lemma for_of_cons {A} (f : A -> M unit) (x : A) (xs : list A) (w : World) :
  (for_of f (x :: xs) w).2 =
  match f x w with
  | (Returns _, w') => (for_of f xs w').2
  | (Throws _, w') => w'
  end.
Proof.
  cbn [for_of]. rewrite bind_run. by destruct (f x w) as [[]].
Qed.

Lemma saveAs_returns (cfg : Config) (id : string) (w : World) :
  (saveAs cfg id w).1 = Returns ().
Proof.
  unfold saveAs, saveSession. run. by destruct (truthy_opt _).
Qed.

(** The ids on file after a series of captures of fresh, pairwise distinct
    ids: the latest first, cut to the bound. *)
Lemma saveAs_series_ids (cfg : Config) (ids : list string) (w : World) :
  NoDup ids ->
  (forall id, id ∈ ids -> Js.truthy id = true) ->
  (forall id, id ∈ ids -> id ∉ session_id <$> persisted w) ->
  (length (persisted w) <= MAX_SESSIONS)%nat ->
  session_id <$> persisted (for_of (saveAs cfg) ids w).2 =
  take MAX_SESSIONS (reverse ids ++ (session_id <$> persisted w)).
Proof.
  revert w. induction ids as [|id ids IH]; intros w Hnd Htruthy Hfresh Hlen.
  - simpl. symmetry. apply take_ge. by rewrite length_fmap.
  - rewrite for_of_cons.
    pose proof (saveAs_returns cfg id w) as Hret.
    destruct (saveAs_file cfg id w) as (r & Hr & Hfile); [apply Htruthy; left|].
    destruct (saveAs cfg id w) as [[[]|e] w1]; simpl in *; [|done].
    apply NoDup_cons in Hnd as [Hid Hnd].
    assert (Hids1 : session_id <$> persisted w1
                    = take MAX_SESSIONS (id :: (session_id <$> persisted w))).
    { rewrite Hfile, upsert_ids, Hr. rewrite decide_False; [done|].
      apply Hfresh. left. }
    rewrite IH.
    + rewrite Hids1, reverse_cons, <- app_assoc. apply take_app_take.
    + done.
    + intros i Hi. apply Htruthy. by right.
    + intros i Hi. rewrite Hids1. intros Hin.
      apply elem_of_take in Hin as (j & Hj & _).
      apply list_elem_of_lookup_2 in Hj.
      apply elem_of_cons in Hj as [->|Hj]; [done|].
      revert Hj. apply Hfresh. by right.
    + rewrite Hfile. apply upsert_length.
Qed.

Lemma saveAs_series_NoDup (cfg : Config) (ids : list string) (w : World) :
  NoDup (session_id <$> persisted w) ->
  NoDup (session_id <$> persisted (for_of (saveAs cfg) ids w).2).
Proof.
  revert w. induction ids as [|id ids IH]; intros w Hnd; [done|].
  rewrite for_of_cons.
  pose proof (saveAs_returns cfg id w) as Hret.
  destruct (saveAs cfg id w) as [[[]|e] w1] eqn:Hrun; simpl in Hret; [|done].
  apply IH.
  assert (Hw1 : w1 = (saveAs cfg id w).2) by by rewrite Hrun.
  rewrite Hw1. unfold saveAs. rewrite bind_run. unfold update_session at 1.
  set (w0 := on_session (set_sessionId (Some id)) w).
  destruct (truthy_opt (sessionId (session w0))) eqn:Hid.
  - unfold persisted at 1. rewrite saveSession_file by done.
    by apply upsert_NoDup.
  - by rewrite saveSession_falsy.
Qed.

(** C7.  Starting from an empty session file, the capture of
    [MAX_SESSIONS + k] pairwise distinct session ids leaves exactly
    [MAX_SESSIONS] (5) records on file: those of the ids from the [k]-th
    captured (counting from 0) to the last captured, the latest first.  And
    whatever ids are captured in whatever order, no two records on file
    share an id. *)
Theorem sessionIndex_bound (cfg : Config) (ids : list string) (k : nat) (w : World) :
  sessionFile w = None ->
  NoDup ids ->
  (forall id, id ∈ ids -> Js.truthy id = true) ->
  length ids = (MAX_SESSIONS + k)%nat ->
  let w' := (for_of (saveAs cfg) ids w).2 in
  length (persisted w') = MAX_SESSIONS
  /\ session_id <$> persisted w' = reverse (drop k ids)
  /\ (forall ids', NoDup (session_id <$> persisted (for_of (saveAs cfg) ids' w).2)).
Proof.
  intros Hfile Hnd Htruthy Hlen w'.
  assert (Hempty : persisted w = []) by (unfold persisted; by rewrite Hfile).
  assert (Hids : session_id <$> persisted w' = reverse (drop k ids)).
  { unfold w'. rewrite saveAs_series_ids; try done.
    - rewrite Hempty, app_nil_r. cbn [fmap list_fmap].
      rewrite <- (take_drop k ids) at 1. rewrite reverse_app, take_app_length'; [done|].
      rewrite length_reverse, length_drop. lia.
    - intros id _. rewrite Hempty. apply not_elem_of_nil.
    - rewrite Hempty. simpl. lia. }
  split; [|split].
  - rewrite <- (length_fmap session_id), Hids, length_reverse, length_drop. lia.
  - done.
  - intros ids'. apply saveAs_series_NoDup. rewrite Hempty. constructor.
Qed.

(** Seven sessions saved in turn into an empty file: the last five are left,
    the latest first. *)
Lemma sessionIndex_bound_witness :
  session_id <$> persisted
    (for_of (saveAs Sample.cfg) ["s1"; "s2"; "s3"; "s4"; "s5"; "s6"; "s7"] Sample.world).2
  = ["s7"; "s6"; "s5"; "s4"; "s3"].
Proof.
  refine (proj1 (proj2 (sessionIndex_bound Sample.cfg
            ["s1"; "s2"; "s3"; "s4"; "s5"; "s6"; "s7"] 2 Sample.world _ _ _ _))).
  - reflexivity.
  - refine (bool_decide_unpack _ _). by vm_compute.
  - intros id Hid. repeat (apply elem_of_cons in Hid as [->|Hid]; [reflexivity|]).
    by apply elem_of_nil in Hid.
  - reflexivity.
Defined.

(** C2, as the code has it.  When a session is saved, the record of an id
    that is not on file is put at the front of the list; the record of an id
    that is on file replaces the first record of that id at its position,
    and the order of the ids on file does not change.  In both cases the
    list is then cut to [MAX_SESSIONS] records. *)
Theorem upsert_position (cfg : Config) (w : World) :
  truthy_opt (sessionId (session w)) = true ->
  let r := newSession_of cfg w in
  let before := persisted w in
  let after := persisted (saveSession cfg w).2 in
  (session_id r ∉ session_id <$> before ->
     after = take MAX_SESSIONS (r :: before))
  /\ (session_id r ∈ session_id <$> before ->
      exists i x,
        before !! i = Some x /\ session_id x = session_id r
        /\ (forall j y, before !! j = Some y -> (j < i)%nat ->
                        session_id y <> session_id r)
        /\ after = take MAX_SESSIONS (<[i := r]> before)
        /\ session_id <$> after = take MAX_SESSIONS (session_id <$> before)).
Proof.
  intros Hid r before after.
  assert (Hafter : after = upsert r before).
  { unfold after, persisted at 1. by rewrite saveSession_file. }
  split.
  - intros Hfresh. rewrite Hafter. by apply upsert_fresh.
  - intros Hin. destruct (upsert_existing r before Hin) as (i & x & Hi & Hx & Hfirst & Hup).
    exists i, x. repeat split; try done; [congruence|].
    rewrite Hafter, upsert_ids. by rewrite decide_True.
Qed.

(** The sample session, second on file, is saved again: the order of the ids
    on file is the one before. *)
Lemma upsert_position_witness :
  session_id <$> persisted (saveSession Sample.cfg Sample.resumed_world).2
  = ["sess-a"; "sess-b"].
Proof.
  destruct (upsert_position Sample.cfg Sample.resumed_world) as [_ Hexisting].
  - by vm_compute.
  - destruct Hexisting as (i & x & _ & _ & _ & _ & Hids).
    + refine (bool_decide_unpack _ _). by vm_compute.
    + exact Hids.
Defined.

(** C2 as stated fails: the sample session is second on file and is saved
    under a new title; its record is replaced where it stood, second, and is
    not moved to the front. *)
Lemma upsert_keeps_position :
  (fun r => (session_id r, title r)) <$> persisted Sample.resumed_world
  = [("sess-a", "First"); ("sess-b", "Second")]
  /\ (fun r => (session_id r, title r)) <$>
     persisted (saveSession Sample.cfg Sample.resumed_world).2
     = [("sess-a", "First"); ("sess-b", "Renamed")].
Proof. split; by vm_compute. Qed.

(** ** Composition of monadic code *)

Lemma keeps_ret (I : World -> Prop) {A} (a : A) : keeps I (mret a : M A).
Proof. by intros w Hw. Qed.

Lemma keeps_skip (I : World -> Prop) : keeps I skip.
Proof. by intros w Hw. Qed.

Lemma keeps_throw (I : World -> Prop) {A} (e : JsError) : keeps I (throw (A := A) e).
Proof. by intros w Hw. Qed.

Lemma keeps_bind (I : World -> Prop) {A B} (m : M A) (f : A -> M B) :
  keeps I m -> (forall a, keeps I (f a)) -> keeps I (m ≫= f).
Proof.
  intros Hm Hf w Hw. rewrite bind_run. specialize (Hm w Hw).
  destruct (m w) as [[a|e] w1]; simpl in *; [by apply Hf | done].
Qed.

Lemma keeps_get_session (I : World -> Prop) : keeps I get_session.
Proof. by intros w Hw. Qed.

Lemma keeps_get_locals (I : World -> Prop) : keeps I get_locals.
Proof. by intros w Hw. Qed.

Lemma keeps_for_of (I : World -> Prop) {A} (f : A -> M unit) (xs : list A) :
  (forall x, keeps I (f x)) -> keeps I (for_of f xs).
Proof.
  intros Hf. induction xs as [|x xs IH]; cbn [for_of].
  - apply keeps_skip.
  - apply keeps_bind; auto.
Qed.

Lemma keeps_when_id (I : World -> Prop) (o : option string) (f : string -> M unit) :
  (forall i, Js.truthy i = true -> keeps I (f i)) -> keeps I (when_id o f).
Proof.
  intros Hf. unfold when_id. destruct o as [i|]; [|apply keeps_skip].
  destruct (Js.truthy i) eqn:Hi; [by apply Hf | apply keeps_skip].
Qed.

Lemma for_of_app {A} (f : A -> M unit) (xs ys : list A) (w : World) :
  for_of f (xs ++ ys) w =
  match for_of f xs w with
  | (Returns _, w') => for_of f ys w'
  | (Throws e, w') => (Throws e, w')
  end.
Proof.
  revert w. induction xs as [|x xs IH]; intros w; [done|].
  cbn [for_of app]. rewrite !bind_run.
  destruct (f x w) as [[[]|e] w1]; [apply IH | done].
Qed.

Lemma consume_app cfg chatId ctx (pre post : list arrival) (w : World) :
  consume cfg chatId ctx (pre ++ post) w =
  match consume cfg chatId ctx pre w with
  | (Returns next_event, w') => consume cfg chatId ctx post w'
  | r => r
  end.
Proof.
  revert w. induction pre as [|a pre IH]; intros w; [done|].
  destruct a as [e| |]; cbn [consume app]; rewrite !bind_run.
  - destruct (onEvent cfg chatId ctx e w) as [[[]|err] w1]; [apply IH | done | done].
  - destruct (stop w) as [[r|err] w1]; [apply IH | done].
  - destruct (inactivityTimeout w) as [[r|err] w1]; [apply IH | done].
Qed.

(** ** Displays are never empty *)

Lemma truthy_app (a b : string) : Js.truthy a = true -> Js.truthy (a +:+ b) = true.
Proof. by destruct a. Qed.

Lemma emoji_truthy (toolName : string) :
  Js.truthy
    match List.find (fun kv => Js.includes toolName (fst kv)) Formatting.emojiMap with
    | Some kv => snd kv
    | None => "🔧"
    end = true.
Proof.
  unfold Formatting.emojiMap. cbn [List.find fst snd].
  repeat (destruct (Js.includes toolName _); [reflexivity|]). reflexivity.
Qed.

Lemma formatMcp_truthy (toolName : string) (toolInput : tool_input) :
  Js.truthy (Formatting.formatMcp toolName toolInput) = true.
Proof.
  unfold Formatting.formatMcp.
  destruct (Js.split toolName "__") as [|? [|? [|? ?]]]; try reflexivity.
  cbv zeta. destruct (Js.truthy (Formatting.first_truthy _ _)); reflexivity.
Qed.

Lemma formatToolStatus_truthy (toolName : string) (toolInput : tool_input) :
  Js.truthy (Formatting.formatToolStatus toolName toolInput) = true.
Proof.
  unfold Formatting.formatToolStatus. cbv zeta.
  pose proof (emoji_truthy toolName) as Hemoji.
  revert Hemoji.
  generalize (match List.find (fun kv => Js.includes toolName (fst kv))
                      Formatting.emojiMap with
              | Some kv => snd kv
              | None => "🔧"
              end).
  intros emoji Hemoji.
  repeat (case_decide; [repeat case_match; first [reflexivity | by apply truthy_app]|]).
  destruct (Js.startsWith toolName "mcp__"); [apply formatMcp_truthy | by apply truthy_app].
Qed.

(** ** The invariant of the loop *)

Lemma seg_ends_snoc (cs : list StatusCall) (c : StatusCall) :
  seg_ends (cs ++ [c]) =
  seg_ends cs ++ (if decide (call_kind c = segment_end_k)
                  then from_option (fun k => [k]) [] (segmentId c) else []).
Proof.
  unfold seg_ends. rewrite omap_app. cbn.
  destruct (decide _); [by destruct (segmentId c) | done].
Qed.

Lemma carried_snoc (cs : list StatusCall) (c : StatusCall) (k : nat) :
  carried (cs ++ [c]) k <-> carried cs k \/ segmentId c = Some k.
Proof.
  unfold carried. split.
  - intros (d & Hd & Hk). apply elem_of_app in Hd as [Hd|Hd]; [left; eauto|].
    apply list_elem_of_singleton in Hd as ->. by right.
  - intros [(d & Hd & Hk)|Hk].
    + exists d. split; [|done]. apply elem_of_app. by left.
    + exists c. split; [|done]. apply elem_of_app. right. by apply list_elem_of_singleton.
Qed.

Lemma carried_app (cs ds : list StatusCall) (k : nat) :
  carried (cs ++ ds) k <-> carried cs k \/ carried ds k.
Proof.
  unfold carried. split.
  - intros (d & Hd & Hk). apply elem_of_app in Hd as [Hd|Hd]; eauto.
  - intros [(d & Hd & Hk)|(d & Hd & Hk)]; exists d; split; try done;
      apply elem_of_app; auto.
Qed.

Lemma ids_below_mono (n m : nat) (cs : list StatusCall) :
  (n <= m)%nat -> ids_below n cs -> ids_below m cs.
Proof. intros Hnm Hcs k Hk. specialize (Hcs k Hk). lia. Qed.

Lemma ids_below_snoc (n : nat) (cs : list StatusCall) (c : StatusCall) :
  ids_below n cs ->
  (forall k, segmentId c = Some k -> (k < n)%nat) ->
  ids_below n (cs ++ [c]).
Proof.
  intros Hcs Hc k Hk. apply carried_snoc in Hk as [Hk|Hk]; auto.
Qed.

Lemma ids_nondecreasing_snoc (cs : list StatusCall) (d : StatusCall) :
  ids_nondecreasing cs ->
  (forall b, segmentId d = Some b -> ids_below (S b) cs) ->
  ids_nondecreasing (cs ++ [d]).
Proof.
  intros Hcs Hd i j c1 c2 a b Hi Hj Ha Hb Hij.
  apply lookup_snoc_Some in Hi as [[Hi1 Hi]|[Hi1 <-]];
    apply lookup_snoc_Some in Hj as [[Hj1 Hj]|[Hj1 <-]].
  - exact (Hcs i j c1 c2 a b Hi Hj Ha Hb Hij).
  - assert (a < S b)%nat; [|lia]. apply (Hd b Hb). exists c1. split; [|done].
    by eapply list_elem_of_lookup_2.
  - lia.
  - assert (a = b) by congruence. lia.
Qed.

Lemma seg_inv_nil : seg_inv [] new_Locals.
Proof.
  split; try done.
  - intros k (c & Hc & _). by apply elem_of_nil in Hc.
  - intros _ k (c & Hc & _). by apply elem_of_nil in Hc.
Qed.

Lemma seg_inv_locals (cs : list StatusCall) (l l' : Locals) :
  seg_inv cs l ->
  currentSegmentId l' = currentSegmentId l ->
  (currentSegmentText l' = "" -> currentSegmentText l = "") ->
  seg_inv cs l'.
Proof.
  intros [He Hle Hm Hlt] Hcur Htext. split; rewrite ?Hcur; auto.
Qed.

Lemma seg_inv_plain (cs : list StatusCall) (l : Locals) (c : StatusCall) :
  seg_inv cs l -> segmentId c = None -> seg_inv (cs ++ [c]) l.
Proof.
  intros [He Hle Hm Hlt] Hc. split.
  - rewrite seg_ends_snoc, Hc. cbn. by destruct (decide _); rewrite app_nil_r.
  - apply ids_below_snoc; [done|]. by rewrite Hc.
  - apply ids_nondecreasing_snoc; [done|]. by rewrite Hc.
  - intros Htext. apply ids_below_snoc; [auto|]. by rewrite Hc.
Qed.

Lemma seg_inv_current (cs : list StatusCall) (l : Locals) (c : StatusCall) :
  seg_inv cs l ->
  segmentId c = Some (currentSegmentId l) ->
  call_kind c <> segment_end_k ->
  currentSegmentText l <> "" ->
  seg_inv (cs ++ [c]) l.
Proof.
  intros [He Hle Hm Hlt] Hc Hk Htext. split.
  - rewrite seg_ends_snoc, decide_False by done. by rewrite app_nil_r.
  - apply ids_below_snoc; [done|]. rewrite Hc. intros k [= <-]. lia.
  - apply ids_nondecreasing_snoc; [done|]. rewrite Hc. by intros b [= <-].
  - done.
Qed.

Lemma seg_inv_close (cs : list StatusCall) (l l' : Locals) (c : StatusCall) :
  seg_inv cs l ->
  call_kind c = segment_end_k ->
  segmentId c = Some (currentSegmentId l) ->
  currentSegmentId l' = S (currentSegmentId l) ->
  seg_inv (cs ++ [c]) l'.
Proof.
  intros [He Hle Hm Hlt] Hk Hc Hcur.
  assert (Hall : ids_below (currentSegmentId l') (cs ++ [c])).
  { rewrite Hcur. apply ids_below_snoc; [done|]. rewrite Hc. intros k [= <-]. lia. }
  split.
  - rewrite seg_ends_snoc, Hc, decide_True by done. cbn [from_option].
    by rewrite Hcur, seq_S, He.
  - eapply ids_below_mono; [|exact Hall]. lia.
  - apply ids_nondecreasing_snoc; [done|]. rewrite Hc. by intros b [= <-].
  - done.
Qed.

Section Invariant.

Variable base : list StatusCall.

Lemma Inv_on_session (f : ClaudeSession -> ClaudeSession) (w : World) :
  Inv base w -> running (f (session w)) -> Inv base (on_session f w).
Proof. intros (Hcs & Hpt & _) Hrun. by split. Qed.

Lemma Inv_on_locals (f : Locals -> Locals) (w : World) :
  Inv base w ->
  currentSegmentId (f (locals w)) = currentSegmentId (locals w) ->
  (currentSegmentText (f (locals w)) = "" -> currentSegmentText (locals w) = "") ->
  pending_ok (pendingTools (f (locals w))) ->
  Inv base (on_locals f w).
Proof.
  intros ((cs & Hcalls & Hseg & Hloop) & _ & Hrun) Hcur Htext Hpt.
  split; [|by split]. exists cs. split; [done|]. split; [|done].
  by eapply seg_inv_locals.
Qed.

Lemma Inv_call (c : StatusCall) (w : World) :
  Inv base w -> segmentId c = None -> loop_call c ->
  Inv base (on_calls (fun cs => cs ++ [c]) w).
Proof.
  intros ((cs & Hcalls & Hseg & Hloop) & Hpt & Hrun) Hc Hok.
  split; [|by split]. exists (cs ++ [c]). cbn. rewrite Hcalls, app_assoc.
  split; [done|]. split; [by apply seg_inv_plain|].
  apply Forall_app. split; [done|]. by constructor.
Qed.

Lemma Inv_text_call (c : StatusCall) (w : World) :
  Inv base w ->
  call_kind c = text_k -> awaited c = true ->
  segmentId c = Some (currentSegmentId (locals w)) ->
  currentSegmentText (locals w) <> "" ->
  Inv base (on_calls (fun cs => cs ++ [c]) w).
Proof.
  intros ((cs & Hcalls & Hseg & Hloop) & Hpt & Hrun) Hk Haw Hc Htext.
  split; [|by split]. exists (cs ++ [c]). cbn. rewrite Hcalls, app_assoc.
  split; [done|]. split.
  - apply seg_inv_current; try done. by rewrite Hk.
  - apply Forall_app. split; [done|]. constructor; [|done].
    unfold loop_call. by rewrite Hk.
Qed.

Lemma Inv_close (c : StatusCall) (f : Locals -> Locals) (w : World) :
  Inv base w ->
  call_kind c = segment_end_k -> awaited c = false ->
  segmentId c = Some (currentSegmentId (locals w)) ->
  currentSegmentId (f (locals w)) = S (currentSegmentId (locals w)) ->
  pendingTools (f (locals w)) = pendingTools (locals w) ->
  Inv base (on_locals f (on_calls (fun cs => cs ++ [c]) w)).
Proof.
  intros ((cs & Hcalls & Hseg & Hloop) & Hpt & Hrun) Hk Haw Hc Hcur Hsame.
  split; [|split; [by cbn; rewrite Hsame | done]].
  exists (cs ++ [c]). cbn. rewrite Hcalls, app_assoc.
  split; [done|]. split.
  - by eapply seg_inv_close.
  - apply Forall_app. split; [done|]. constructor; [|done].
    unfold loop_call. by rewrite Hk.
Qed.

Lemma keeps_Inv_update_session (f : ClaudeSession -> ClaudeSession) :
  (forall s, running s -> running (f s)) -> keeps (Inv base) (update_session f).
Proof.
  intros Hf w Hw. apply Inv_on_session; [done|]. apply Hf, Hw.
Qed.

Lemma keeps_Inv_Date_now : keeps (Inv base) Date_now.
Proof. by intros w Hw. Qed.

Lemma keeps_Inv_poll : keeps (Inv base) checkPendingAskUserRequests.
Proof. by intros w Hw. Qed.

Lemma keeps_Inv_call (aw : bool) (k : kind) (text : string) (tid : option string) :
  loop_call {| call_kind := k; payload := text; segmentId := None;
               toolId := tid; awaited := aw |} ->
  keeps (Inv base) (statusCallback aw k text None tid).
Proof. intros Hok w Hw. by apply Inv_call. Qed.

Lemma keeps_Inv_update_locals (f : Locals -> Locals) :
  (forall l, currentSegmentId (f l) = currentSegmentId l) ->
  (forall l, currentSegmentText (f l) = "" -> currentSegmentText l = "") ->
  (forall l, pending_ok (pendingTools l) -> pending_ok (pendingTools (f l))) ->
  keeps (Inv base) (update_locals f).
Proof.
  intros Hcur Htext Hpt w Hw. apply Inv_on_locals; auto. apply Hpt, Hw.
Qed.

Lemma keeps_Inv_write (sessions : list SavedSession) :
  keeps (Inv base) (write_sessionFile sessions).
Proof. by intros w Hw. Qed.

Lemma keeps_Inv_load : keeps (Inv base) loadSessionHistory.
Proof. by intros w Hw. Qed.

End Invariant.

Lemma pending_ok_empty : pending_ok ∅.
Proof. intros i d Hi. by rewrite lookup_empty in Hi. Qed.

Lemma pending_ok_insert (i d : string) (pt : gmap string string) :
  Js.truthy i = true -> Js.truthy d = true ->
  pending_ok pt -> pending_ok (<[i := d]> pt).
Proof.
  intros Hi Hd Hpt j e Hj.
  destruct (decide (i = j)) as [<-|Hne].
  - rewrite lookup_insert_eq in Hj. by injection Hj as <-.
  - rewrite lookup_insert_ne in Hj by done. by eapply Hpt.
Qed.

Lemma pending_ok_delete (i : string) (pt : gmap string string) :
  pending_ok pt -> pending_ok (delete i pt).
Proof.
  intros Hpt j e Hj. apply lookup_delete_Some in Hj as [_ Hj]. by eapply Hpt.
Qed.

Lemma running_abort (s : ClaudeSession) : running s -> running (abort s).
Proof.
  intros [Hrun [b Hb]]. split; [done|]. unfold abort. wsimpl. by rewrite Hb.
Qed.

Lemma append_empty (a b : string) : a +:+ b = "" -> a = "".
Proof. by destruct a. Qed.

Lemma truthy_true (s : string) : Js.truthy s = true <-> s <> "".
Proof. by destruct s. Qed.

(** One step of the search for a proof that code keeps a property: by the
    structure of the code, then by what the property is. *)
Ltac keeps_struct :=
  lazymatch goal with
  | |- keeps _ (_ ≫= _) => apply keeps_bind; [|intros ?]
  | |- keeps _ (mret _) => apply keeps_ret
  | |- keeps _ skip => apply keeps_skip
  | |- keeps _ (throw _) => apply keeps_throw
  | |- keeps _ get_session => apply keeps_get_session
  | |- keeps _ get_locals => apply keeps_get_locals
  | |- keeps _ (when_id _ _) => apply keeps_when_id; intros ? ?
  | |- keeps _ (for_of _ _) => apply keeps_for_of; intros ?
  | |- keeps _ (if ?b then _ else _) => destruct b eqn:?
  | |- keeps _ (match ?x with _ => _ end) => destruct x eqn:?
  end.

Ltac keeps_Inv :=
  lazymatch goal with
  | |- keeps (Inv _) Date_now => apply keeps_Inv_Date_now
  | |- keeps (Inv _) checkPendingAskUserRequests => apply keeps_Inv_poll
  | |- keeps (Inv _) loadSessionHistory => apply keeps_Inv_load
  | |- keeps (Inv _) (write_sessionFile _) => apply keeps_Inv_write
  | |- keeps (Inv _) (update_session _) =>
      apply keeps_Inv_update_session; intros ? ?
  | |- keeps (Inv _) (update_locals _) =>
      apply keeps_Inv_update_locals; intros ?
  | |- keeps (Inv _) (statusCallback _ _ _ None _) => apply keeps_Inv_call
  end.

Ltac keeps_step := first [keeps_struct | keeps_Inv].

Section LoopKeeps.

Variable base : list StatusCall.
Variable cfg : Config.
Variable chatId : option Z.
Variable ctx : bool.

Lemma keeps_thinkingBlock (thinkingText : string) :
  keeps (Inv base) (thinkingBlock thinkingText).
Proof. unfold thinkingBlock. repeat keeps_step. done. Qed.

Lemma keeps_checkBash (toolName : string) (toolInput : tool_input) :
  keeps (Inv base) (checkBash cfg toolName toolInput).
Proof.
  unfold checkBash. repeat keeps_step.
  intros _. left. by eexists.
Qed.

Lemma keeps_checkFile (toolName : string) (toolInput : tool_input) :
  keeps (Inv base) (checkFile cfg toolName toolInput).
Proof.
  unfold checkFile. repeat keeps_step.
  intros _. right. by eexists.
Qed.

Lemma keeps_closeSegment : keeps (Inv base) closeSegment.
Proof.
  intros w Hw. unfold closeSegment. run.
  destruct (Js.truthy (currentSegmentText (locals w))); [|done].
  by apply (Inv_close base _
    (fun l => set_currentSegmentText "" (set_currentSegmentId (S (currentSegmentId l)) l))).
Qed.

Lemma keeps_pollAskUser (attempts : nat) : keeps (Inv base) (pollAskUser attempts).
Proof.
  induction attempts as [|n IH]; cbn [pollAskUser]; repeat keeps_step; done.
Qed.

Lemma keeps_toolUseBlock (toolName : string) (toolInput : tool_input)
  (toolUseId : option string) :
  keeps (Inv base) (toolUseBlock cfg chatId ctx toolName toolInput toolUseId).
Proof.
  unfold toolUseBlock.
  repeat first
    [ apply keeps_checkBash | apply keeps_checkFile | apply keeps_closeSegment
    | apply keeps_pollAskUser | keeps_step ]; try done.
  - wsimpl. apply pending_ok_insert; [done | apply formatToolStatus_truthy].
  - wsimpl. apply pending_ok_delete.
Qed.

Lemma keeps_textBlock (text : string) : keeps (Inv base) (textBlock cfg text).
Proof.
  unfold textBlock.
  apply keeps_bind; [|intros ?]; [repeat keeps_step; done|].
  apply keeps_bind; [|intros ?].
  { keeps_step; [done | wsimpl; apply append_empty | done]. }
  apply keeps_bind; [|intros now]; [keeps_step|].
  intros w Hw. run.
  destruct (_ && _) eqn:Hcond; [|done].
  apply andb_true_iff in Hcond as [_ Hlen].
  apply Inv_on_locals; try done; [|apply Hw].
  apply Inv_text_call; try done.
  intros Hempty. rewrite Hempty in Hlen. done.
Qed.

Lemma keeps_assistantBlock (b : block) :
  keeps (Inv base) (assistantBlock cfg chatId ctx b).
Proof.
  destruct b; cbn [assistantBlock];
    auto using keeps_thinkingBlock, keeps_toolUseBlock, keeps_textBlock, keeps_skip.
Qed.

Lemma keeps_toolResultBlock (tool_use_id : option string) (is_error : bool)
  (content : string) :
  keeps (Inv base) (toolResultBlock cfg tool_use_id is_error content).
Proof.
  unfold toolResultBlock. repeat keeps_step; try done.
  wsimpl. apply pending_ok_delete.
Qed.

Lemma keeps_userBlock (b : block) : keeps (Inv base) (userBlock cfg b).
Proof.
  destruct b; cbn [userBlock]; auto using keeps_toolResultBlock, keeps_skip.
Qed.

Lemma keeps_saveSession : keeps (Inv base) (saveSession cfg).
Proof. unfold saveSession. repeat keeps_step. Qed.

Lemma keeps_captureSessionId (e : event) : keeps (Inv base) (captureSessionId cfg e).
Proof.
  unfold captureSessionId.
  repeat first [apply keeps_saveSession | keeps_step]. done.
Qed.

Lemma keeps_onEvent (e : event) : keeps (Inv base) (onEvent cfg chatId ctx e).
Proof.
  unfold onEvent.
  repeat first
    [ apply keeps_captureSessionId | apply keeps_assistantBlock
    | apply keeps_userBlock | keeps_step ]; done.
Qed.

Lemma keeps_stop : keeps (Inv base) stop.
Proof.
  unfold stop. repeat keeps_step; try done. by apply running_abort.
Qed.

Lemma keeps_inactivityTimeout : keeps (Inv base) inactivityTimeout.
Proof.
  unfold inactivityTimeout. repeat keeps_step; try done. by apply running_abort.
Qed.

Lemma keeps_consume (items : list arrival) :
  keeps (Inv base) (consume cfg chatId ctx items).
Proof.
  induction items as [|[e| |] items IH]; cbn [consume];
    repeat first
      [ apply keeps_onEvent | apply keeps_stop | apply keeps_inactivityTimeout
      | apply IH | keeps_step ].
Qed.

End LoopKeeps.

(** ** The parts of [sendMessageStreaming] *)

Lemma enter_world (cfg : Config) (message : string) (w w0 : World) :
  enter cfg message w = (Returns (), w0) ->
  calls w0 = calls w
  /\ locals w0 = new_Locals
  /\ running (session w0)
  /\ stopRequested (session w0) = false
  /\ stopRequested (session w) = false
  /\ length (queries w0) = S (length (queries w))
  /\ sessionFile w0 = sessionFile w.
Proof.
  unfold enter, preamble, begin. run.
  destruct (isActive (session w)); cbn [negb]; run;
    destruct (truthy_opt (sessionId (session w))); cbn [andb negb]; run;
    destruct (stopRequested (session w)) eqn:Hstop; try done;
    intros [= <-]; wsimpl; rewrite ?length_app; cbn;
    repeat split; eauto; lia.
Qed.

Lemma enter_throws (cfg : Config) (message : string) (w : World) :
  stopRequested (session w) = true ->
  exists w', enter cfg message w = (Throws (Error "Query cancelled"), w')
    /\ stopRequested (session w') = false
    /\ queries w' = queries w
    /\ calls w' = calls w.
Proof.
  intros Hstop. unfold enter, preamble, begin. run.
  destruct (isActive (session w)); cbn [negb]; run;
    destruct (truthy_opt (sessionId (session w))); cbn [andb negb]; run;
    rewrite Hstop; eexists; split; try reflexivity; by wsimpl.
Qed.

Lemma send_enter_throws (cfg : Config) (message : string) (chatId : option Z)
  (ctx : bool) (str : stream) (w w' : World) (e : JsError) :
  enter cfg message w = (Throws e, w') ->
  sendMessageStreaming cfg message chatId ctx str w = (Throws e, w').
Proof.
  unfold enter, sendMessageStreaming. rewrite !bind_run.
  destruct (preamble cfg message w) as [[q|e'] w1]; cbv beta iota;
    [|by intros [= <- <-]].
  unfold begin. run. done.
Qed.

Lemma send_entered (cfg : Config) (message : string) (chatId : option Z)
  (ctx : bool) (str : stream) (w w0 : World) :
  enter cfg message w = (Returns (), w0) ->
  sendMessageStreaming cfg message chatId ctx str w =
  (try_finally (try_catch (forAwait cfg chatId ctx str) onError) cleanup ;;
   recordActivity ;; assemble) w0.
Proof.
  unfold enter, sendMessageStreaming. rewrite !bind_run.
  destruct (preamble cfg message w) as [[q|e'] w1]; cbv beta iota; [|done].
  unfold begin. run. by intros [= <-].
Qed.

Lemma forAwait_run (cfg : Config) (chatId : option Z) (ctx : bool) (str : stream)
  (w : World) :
  forAwait cfg chatId ctx str w =
  match consume cfg chatId ctx (arrivals str) w with
  | (Returns break, w1) => (Returns (), w1)
  | (Returns next_event, w1) =>
      match ending str with
      | Completes => (Returns (), w1)
      | Raises e => (Throws e, w1)
      end
  | (Throws e, w1) => (Throws e, w1)
  end.
Proof.
  unfold forAwait. rewrite bind_run.
  destruct (consume cfg chatId ctx (arrivals str) w) as [[[]|e] w1]; try done.
  by destruct (ending str).
Qed.

Lemma leave_world (w : World) :
  calls (leave w) = calls w
  /\ locals (leave w) = locals w
  /\ sessionFile (leave w) = sessionFile w
  /\ queries (leave w) = queries w
  /\ isQueryRunning (session (leave w)) = false
  /\ abortController (session (leave w)) = None
  /\ lastError (session (leave w)) = None
  /\ lastErrorTime (session (leave w)) = None
  /\ stopRequested (session (leave w)) = stopRequested (session w).
Proof. unfold leave, cleanup, recordActivity. run. by repeat split. Qed.

Lemma fail_with_world (e : JsError) (w : World) :
  calls (fail_with e w) = calls w
  /\ locals (fail_with e w) = locals w
  /\ isQueryRunning (session (fail_with e w)) = false
  /\ abortController (session (fail_with e w)) = None
  /\ lastError (session (fail_with e w)) = Some (Js.slice0 100 (String_of_error e))
  /\ lastErrorTime (session (fail_with e w)) = Some (clock w (ticks w)).
Proof. unfold fail_with, cleanup. run. by repeat split. Qed.

Lemma send_left (cfg : Config) (message : string) (chatId : option Z) (ctx : bool)
  (str : stream) (w w0 w1 : World) (o : outcome unit) :
  enter cfg message w = (Returns (), w0) ->
  forAwait cfg chatId ctx str w0 = (o, w1) ->
  match o with
  | Returns _ => True
  | Throws e => isSuppressed e (session w1) (locals w1) = true
  end ->
  sendMessageStreaming cfg message chatId ctx str w = assemble (leave w1).
Proof.
  intros Henter Hloop Ho. rewrite (send_entered _ _ _ _ _ _ _ Henter).
  unfold leave. rewrite !bind_run. unfold try_finally, try_catch. rewrite Hloop.
  destruct o as [[]|e].
  - unfold cleanup, recordActivity. run. done.
  - unfold onError. run. rewrite Ho. unfold cleanup, recordActivity. run. done.
Qed.

Lemma send_failed (cfg : Config) (message : string) (chatId : option Z) (ctx : bool)
  (str : stream) (w w0 w1 : World) (e : JsError) :
  enter cfg message w = (Returns (), w0) ->
  forAwait cfg chatId ctx str w0 = (Throws e, w1) ->
  isSuppressed e (session w1) (locals w1) = false ->
  sendMessageStreaming cfg message chatId ctx str w = (Throws e, fail_with e w1).
Proof.
  intros Henter Hloop Ho. rewrite (send_entered _ _ _ _ _ _ _ Henter).
  unfold fail_with. rewrite !bind_run. unfold try_finally, try_catch. rewrite Hloop.
  unfold onError. run. rewrite Ho. unfold cleanup. run. done.
Qed.

Lemma assemble_world (w : World) :
  calls (assemble w).2 = calls w ++ final_calls (locals w)
  /\ locals (assemble w).2 = locals w
  /\ session (assemble w).2 = session w
  /\ sessionFile (assemble w).2 = sessionFile w
  /\ exists r, (assemble w).1 = Returns r.
Proof.
  unfold assemble, final_calls, flush_calls, notice_calls, done_call. run.
  destruct (askUserTriggered (locals w)); run; [by eauto 10|].
  destruct (Js.truthy (currentSegmentText (locals w))); run;
    destruct (timedOut (locals w)); run;
    rewrite <- ?app_assoc, ?Nat.add_1_r; cbn [app]; eauto 10.
Qed.


(** ** Status calls of a whole call *)

Lemma enter_calls (cfg : Config) (message : string) (w : World) :
  calls (enter cfg message w).2 = calls w.
Proof.
  unfold enter, preamble, begin. run.
  destruct (isActive (session w)); cbn [negb]; run;
    destruct (truthy_opt (sessionId (session w))); cbn [andb negb]; run;
    by destruct (stopRequested (session w)).
Qed.

Lemma Inv_enter (cfg : Config) (message : string) (w w0 : World) :
  enter cfg message w = (Returns (), w0) -> Inv (calls w) w0.
Proof.
  intros Henter.
  destruct (enter_world _ _ _ _ Henter) as (Hcalls & Hlocals & Hrun & _).
  split; [|split; [|done]].
  - exists []. rewrite app_nil_r, Hlocals. split; [done|].
    split; [apply seg_inv_nil | constructor].
  - rewrite Hlocals. apply pending_ok_empty.
Qed.

Lemma forAwait_world (cfg : Config) (chatId : option Z) (ctx : bool) (str : stream)
  (w : World) :
  (forAwait cfg chatId ctx str w).2 = (consume cfg chatId ctx (arrivals str) w).2.
Proof.
  rewrite forAwait_run.
  destruct (consume cfg chatId ctx (arrivals str) w) as [[[]|e] w1]; try done.
  by destruct (ending str).
Qed.

Lemma keeps_forAwait (base : list StatusCall) (cfg : Config) (chatId : option Z)
  (ctx : bool) (str : stream) :
  keeps (Inv base) (forAwait cfg chatId ctx str).
Proof. intros w Hw. rewrite forAwait_world. by apply keeps_consume. Qed.

(** The status calls of a call of [sendMessageStreaming]: those of the loop,
    which satisfy the invariant with some locals [l], then, unless the call
    fails, those of the result assembly for [l]. *)
Lemma send_calls (cfg : Config) (message : string) (chatId : option Z) (ctx : bool)
  (str : stream) (w : World) :
  exists cs l,
    seg_inv cs l /\ Forall loop_call cs
    /\ ((exists e, (sendMessageStreaming cfg message chatId ctx str w).1 = Throws e
                   /\ calls (sendMessageStreaming cfg message chatId ctx str w).2
                      = calls w ++ cs)
        \/ (exists r, (sendMessageStreaming cfg message chatId ctx str w).1 = Returns r
                      /\ locals (sendMessageStreaming cfg message chatId ctx str w).2 = l
                      /\ calls (sendMessageStreaming cfg message chatId ctx str w).2
                         = calls w ++ cs ++ final_calls l)).
Proof.
  destruct (enter cfg message w) as [[[]|e] w0] eqn:Henter.
  - pose proof (Inv_enter _ _ _ _ Henter) as Hinv0.
    pose proof (keeps_forAwait _ cfg chatId ctx str _ Hinv0) as Hinv1.
    destruct (forAwait cfg chatId ctx str w0) as [o w1] eqn:Hloop.
    cbn [snd] in Hinv1. destruct Hinv1 as ((cs & Hcalls & Hseg & Hcs) & _ & _).
    exists cs, (locals w1). split; [done|]. split; [done|].
    assert (Hleft : match o with
                    | Returns _ => True
                    | Throws e => isSuppressed e (session w1) (locals w1) = true
                    end ->
                    sendMessageStreaming cfg message chatId ctx str w = assemble (leave w1))
      by (intros Ho; by eapply send_left).
    assert (Hassemble :
      sendMessageStreaming cfg message chatId ctx str w = assemble (leave w1) ->
      exists r, (sendMessageStreaming cfg message chatId ctx str w).1 = Returns r
        /\ locals (sendMessageStreaming cfg message chatId ctx str w).2 = locals w1
        /\ calls (sendMessageStreaming cfg message chatId ctx str w).2
           = calls w ++ cs ++ final_calls (locals w1)).
    { intros ->.
      destruct (assemble_world (leave w1)) as (Hc & Hl & _ & _ & r & Hr).
      destruct (leave_world w1) as (Hc' & Hl' & _).
      exists r. rewrite Hc, Hl, Hl', Hc', Hcalls, app_assoc. done. }
    destruct o as [[]|e].
    + right. by apply Hassemble, Hleft.
    + destruct (isSuppressed e (session w1) (locals w1)) eqn:Hsup.
      * right. by apply Hassemble, Hleft.
      * left. exists e. rewrite (send_failed _ _ _ _ _ _ _ _ _ Henter Hloop Hsup).
        destruct (fail_with_world e w1) as (Hc & _). cbn [fst snd]. by rewrite Hc.
  - exists [], new_Locals. split; [apply seg_inv_nil|]. split; [constructor|].
    left. exists e. rewrite (send_enter_throws _ _ _ _ _ _ _ _ Henter).
    pose proof (enter_calls cfg message w) as Hc. rewrite Henter in Hc.
    cbn [fst snd]. by rewrite app_nil_r.
Qed.

Lemma seg_ends_app (cs ds : list StatusCall) :
  seg_ends (cs ++ ds) = seg_ends cs ++ seg_ends ds.
Proof. apply omap_app. Qed.

Lemma ids_nondecreasing_app (cs ds : list StatusCall) (n : nat) :
  ids_nondecreasing cs -> ids_below n cs ->
  ids_nondecreasing ds -> (forall k, carried ds k -> (n <= S k)%nat) ->
  ids_nondecreasing (cs ++ ds).
Proof.
  intros Hcs Hn Hds Hge i j c d a b Hi Hj Ha Hb Hij.
  apply lookup_app_Some in Hi as [Hi|[Hi1 Hi]];
    apply lookup_app_Some in Hj as [Hj|[Hj1 Hj]].
  - exact (Hcs i j c d a b Hi Hj Ha Hb Hij).
  - assert (a < n)%nat.
    { apply Hn. exists c. split; [by eapply list_elem_of_lookup_2 | done]. }
    assert (n <= S b)%nat; [|lia].
    apply Hge. exists d. split; [by eapply list_elem_of_lookup_2 | done].
  - apply lookup_lt_Some in Hj. lia.
  - apply (Hds (i - length cs)%nat (j - length cs)%nat c d a b); auto. lia.
Qed.

Lemma ends_count_le (cs : list StatusCall) (k : nat) :
  NoDup (seg_ends cs) -> (ends_count cs k <= 1)%nat.
Proof.
  intros Hnd. apply NoDup_ListNoDup in Hnd.
  by apply (proj1 (NoDup_count_occ Nat.eq_dec _)).
Qed.

Lemma ends_count_one (cs : list StatusCall) (k : nat) :
  NoDup (seg_ends cs) -> k ∈ seg_ends cs -> ends_count cs k = 1%nat.
Proof.
  intros Hnd Hk. pose proof (ends_count_le cs k Hnd) as Hle.
  apply list_elem_of_In, (count_occ_In Nat.eq_dec) in Hk. unfold ends_count in *. lia.
Qed.

(** The open segment is flushed: all ids carried so far are closed. *)
Lemma flush_props (cs : list StatusCall) (l : Locals) :
  seg_inv cs l ->
  exists n, (n <= S (currentSegmentId l))%nat
    /\ seg_ends (cs ++ flush_calls l) = seq 0 n
    /\ ids_below n (cs ++ flush_calls l)
    /\ ids_nondecreasing (cs ++ flush_calls l).
Proof.
  intros Hseg. unfold flush_calls.
  destruct (Js.truthy (currentSegmentText l)) eqn:Htext.
  - exists (S (currentSegmentId l)). split; [done|].
    set (c := {| call_kind := segment_end_k |}).
    destruct (seg_inv_close cs l
                (set_currentSegmentText "" (set_currentSegmentId (S (currentSegmentId l)) l))
                c Hseg) as [He _ Hm Hlt]; try done.
    split; [done|]. split; [by apply Hlt | done].
  - exists (currentSegmentId l). split; [lia|]. rewrite app_nil_r.
    destruct Hseg as [He _ Hm Hlt]. split; [done|]. split; [|done].
    apply Hlt. by destruct (currentSegmentText l).
Qed.

Lemma final_props_ask (cs : list StatusCall) (l : Locals) :
  seg_inv cs l ->
  NoDup (seg_ends (cs ++ [done_call])) /\ ids_nondecreasing (cs ++ [done_call]).
Proof.
  intros [He _ Hm _]. split.
  - rewrite seg_ends_app, He. cbn. rewrite app_nil_r. apply NoDup_seq.
  - by apply ids_nondecreasing_snoc.
Qed.

Lemma final_props (cs : list StatusCall) (l : Locals) :
  seg_inv cs l ->
  askUserTriggered l = false ->
  NoDup (seg_ends (cs ++ final_calls l))
  /\ ids_nondecreasing (cs ++ final_calls l)
  /\ (forall k, carried (cs ++ final_calls l) k -> k ∈ seg_ends (cs ++ final_calls l)).
Proof.
  intros Hseg Hask. unfold final_calls. rewrite Hask.
  destruct (flush_props cs l Hseg) as (n & Hn & He & Hlt & Hm).
  rewrite !app_assoc. set (cs1 := cs ++ flush_calls l) in *.
  assert (Hnotice :
    NoDup (seg_ends (cs1 ++ (if timedOut l then notice_calls l else [])))
    /\ ids_nondecreasing (cs1 ++ (if timedOut l then notice_calls l else []))
    /\ (forall k, carried (cs1 ++ (if timedOut l then notice_calls l else [])) k ->
                  k ∈ seg_ends (cs1 ++ (if timedOut l then notice_calls l else [])))).
  { destruct (timedOut l).
    - unfold notice_calls. split; [|split].
      + rewrite seg_ends_app, He. cbn. apply NoDup_app. split; [apply NoDup_seq|].
        split; [|apply NoDup_singleton].
        intros k Hk Hk'. apply elem_of_seq in Hk.
        apply list_elem_of_singleton in Hk'. lia.
      + eapply ids_nondecreasing_app; [done | done | |].
        * intros i j c d a b Hi Hj Ha Hb _.
          assert (Hc : segmentId c = Some (S (currentSegmentId l))).
          { apply list_elem_of_lookup_2 in Hi.
            repeat (apply elem_of_cons in Hi as [->|Hi]; [done|]).
            by apply elem_of_nil in Hi. }
          assert (Hd : segmentId d = Some (S (currentSegmentId l))).
          { apply list_elem_of_lookup_2 in Hj.
            repeat (apply elem_of_cons in Hj as [->|Hj]; [done|]).
            by apply elem_of_nil in Hj. }
          assert (a = b) by congruence. lia.
        * intros k (c & Hc & Hk).
          repeat (apply elem_of_cons in Hc as [->|Hc]; [cbn in Hk; injection Hk; lia|]).
          by apply elem_of_nil in Hc.
      + intros k Hk. rewrite seg_ends_app, He. apply elem_of_app.
        apply carried_app in Hk as [Hk|(c & Hc & Hk)].
        * left. apply elem_of_seq. specialize (Hlt k Hk). lia.
        * right. cbn.
          repeat (apply elem_of_cons in Hc as [->|Hc];
                  [cbn in Hk; injection Hk as <-; apply list_elem_of_singleton; done|]).
          by apply elem_of_nil in Hc.
    - rewrite app_nil_r. split; [rewrite He; apply NoDup_seq|]. split; [done|].
      intros k Hk. rewrite He. apply elem_of_seq. specialize (Hlt k Hk). lia. }
  destruct Hnotice as (Hnd & Hmono & Hall).
  set (cs2 := cs1 ++ _) in *. split; [|split].
  - rewrite seg_ends_app. cbn. by rewrite app_nil_r.
  - by apply ids_nondecreasing_snoc.
  - intros k Hk. apply carried_snoc in Hk as [Hk|Hk]; [|done].
    rewrite seg_ends_app. apply elem_of_app. left. by apply Hall.
Qed.

Lemma segment_end_first (cs : list StatusCall) :
  ids_nondecreasing cs ->
  forall i j c d k k',
    cs !! i = Some c -> segmentId c = Some k ->
    cs !! j = Some d -> segmentId d = Some k' ->
    (k < k')%nat -> (i < j)%nat.
Proof.
  intros Hm i j c d k k' Hi Hk Hj Hk' Hlt.
  destruct (decide (i < j)%nat) as [|Hge]; [done|].
  assert (k' <= k)%nat; [|lia].
  apply (Hm j i d c k' k); auto. lia.
Qed.

Lemma elem_of_seg_ends (cs : list StatusCall) (k : nat) :
  k ∈ seg_ends cs <->
  exists i c, cs !! i = Some c /\ call_kind c = segment_end_k /\ segmentId c = Some k.
Proof.
  unfold seg_ends. rewrite list_elem_of_omap. split.
  - intros (c & Hc & Hk). apply list_elem_of_lookup_1 in Hc as [i Hi].
    exists i, c. destruct (decide _); [done|discriminate].
  - intros (i & c & Hi & Hkind & Hk). exists c.
    split; [by eapply list_elem_of_lookup_2|]. by rewrite decide_True.
Qed.

(** A segment id below a carried one is closed if it is carried itself. *)
Lemma closed_below (cs : list StatusCall) (l : Locals) (fin : list StatusCall) :
  seg_inv cs l ->
  fin = [] \/ fin = final_calls l ->
  forall k k', carried (cs ++ fin) k -> carried (cs ++ fin) k' -> (k < k')%nat ->
               k ∈ seg_ends (cs ++ fin).
Proof.
  intros Hseg Hfin k k' Hk Hk' Hlt.
  assert (Hloop : carried cs k' -> k ∈ seg_ends (cs ++ fin)).
  { intros Hcs. apply (ids_le _ _ Hseg) in Hcs.
    rewrite seg_ends_app, (ends_seq _ _ Hseg). apply elem_of_app. left.
    apply elem_of_seq. lia. }
  destruct Hfin as [-> | ->]; [rewrite app_nil_r in *; auto|].
  destruct (askUserTriggered l) eqn:Hask.
  - apply Hloop. unfold final_calls in Hk'. rewrite Hask in Hk'.
    by apply carried_snoc in Hk' as [Hk'|Hk'].
  - by apply (final_props cs l Hseg Hask).
Qed.

(** C5, as the code has it.  Among the status calls of one call of
    [sendMessageStreaming], whatever the stream: no segment id has more than
    one [segment_end]; the segment ids carried never decrease along the
    calls, so that a [segment_end] for id [k] precedes every call that
    carries a greater id; when a call carries an id, every smaller id that
    some call carries has had its [segment_end] before; and when the call
    returns without an ask-user interaction, every segment id carried by a
    call has exactly one [segment_end]. *)
Theorem segment_ends_of_a_call (cfg : Config) (message : string) (chatId : option Z)
  (ctx : bool) (str : stream) (w : World) :
  exists cs,
    calls (sendMessageStreaming cfg message chatId ctx str w).2 = calls w ++ cs
    /\ (forall k, (ends_count cs k <= 1)%nat)
    /\ ids_nondecreasing cs
    /\ (forall i j c d k k',
          cs !! i = Some c -> call_kind c = segment_end_k -> segmentId c = Some k ->
          cs !! j = Some d -> segmentId d = Some k' ->
          (k < k')%nat -> (i < j)%nat)
    /\ (forall j d k k',
          cs !! j = Some d -> segmentId d = Some k' ->
          carried cs k -> (k < k')%nat ->
          exists i c, (i < j)%nat /\ cs !! i = Some c
                      /\ call_kind c = segment_end_k /\ segmentId c = Some k)
    /\ ((exists r, (sendMessageStreaming cfg message chatId ctx str w).1 = Returns r) ->
        askUserTriggered
          (locals (sendMessageStreaming cfg message chatId ctx str w).2) = false ->
        forall k, carried cs k -> ends_count cs k = 1%nat).
Proof.
  destruct (send_calls cfg message chatId ctx str w)
    as (cs & l & Hseg & _ & Hcalls).
  assert (Hshape : exists fin,
    (fin = [] \/ fin = final_calls l)
    /\ calls (sendMessageStreaming cfg message chatId ctx str w).2 = calls w ++ cs ++ fin
    /\ NoDup (seg_ends (cs ++ fin))
    /\ ids_nondecreasing (cs ++ fin)
    /\ ((exists r, (sendMessageStreaming cfg message chatId ctx str w).1 = Returns r) ->
        askUserTriggered
          (locals (sendMessageStreaming cfg message chatId ctx str w).2) = false ->
        forall k, carried (cs ++ fin) k -> k ∈ seg_ends (cs ++ fin))).
  { destruct Hcalls as [(e & Hthrows & Hcalls)|(r & Hreturns & Hl & Hcalls)].
    - exists []. rewrite !app_nil_r. split; [by left|]. split; [done|].
      split; [rewrite (ends_seq _ _ Hseg); apply NoDup_seq|].
      split; [apply Hseg|]. intros [r Hr]. congruence.
    - exists (final_calls l). split; [by right|]. split; [done|].
      destruct (askUserTriggered l) eqn:Hask.
      + destruct (final_props_ask cs l Hseg) as (Hnd & Hm).
        unfold final_calls. rewrite Hask. split; [done|]. split; [done|].
        intros _ Hno. congruence.
      + destruct (final_props cs l Hseg Hask) as (Hnd & Hm & Hall). by repeat split. }
  destruct Hshape as (fin & Hfin & Hall & Hnd & Hm & Hone).
  exists (cs ++ fin). split; [done|].
  split; [intros k; by apply ends_count_le|].
  split; [done|].
  split; [intros i j c d k k' Hi _; by apply segment_end_first|].
  split.
  - intros j d k k' Hj Hk' Hk Hlt.
    assert (Hin : k ∈ seg_ends (cs ++ fin)).
    { apply (closed_below cs l fin Hseg Hfin k k'); try done.
      exists d. split; [by eapply list_elem_of_lookup_2 | done]. }
    apply elem_of_seg_ends in Hin as (i & c & Hi & Hkind & Hc).
    exists i, c. repeat split; try done.
    by eapply (segment_end_first _ Hm i j c d k k').
  - intros Hr Hask k Hk. apply ends_count_one; auto.
Qed.




(** C5 as stated fails: in the sample message with an ask-user tool, the
    call returns, a [text] call carries segment id 1, and no [segment_end]
    call does. *)
Lemma segment_end_missing :
  (sendMessageStreaming Sample.cfg "hello" (Some 7) true Sample.ask_stream
     Sample.world).1
  = Returns "[Waiting for user selection]"
  /\ (fun c => (call_kind c, segmentId c)) <$>
     calls (sendMessageStreaming Sample.cfg "hello" (Some 7) true Sample.ask_stream
              Sample.world).2
     = [ (segment_end_k, Some 0%nat); (text_k, Some 1%nat); (done_k, None) ]
  /\ ends_count
       (calls (sendMessageStreaming Sample.cfg "hello" (Some 7) true Sample.ask_stream
                 Sample.world).2) 1 = 0%nat.
Proof. repeat split; by vm_compute. Qed.

(** ** What the parts of the loop leave alone *)

(** A property that the code keeps because no primitive changes what it
    reads. *)
Ltac keeps_frame I :=
  repeat first
    [ keeps_struct
    | solve [intros ? ?; unfold I in *; unfold_m; wsimpl; done] ].





Lemma flagged_refl (w : World) : flagged w w.
Proof. by repeat split. Qed.

Lemma flagged_trans (w1 w2 w3 : World) : flagged w1 w2 -> flagged w2 w3 -> flagged w1 w3.
Proof.
  intros (H1 & H2 & H3 & H4 & H5 & H6 & H7) (G1 & G2 & G3 & G4 & G5 & G6 & G7).
  repeat split; try congruence; auto.
Qed.

Lemma stop_flagged (w : World) :
  exists r w', stop w = (Returns r, w') /\ flagged w w'.
Proof.
  unfold stop. run.
  destruct (isQueryRunning (session w) && _); run;
    [|destruct (_isProcessing (session w)); run];
    eexists _, _; split; try reflexivity; by repeat split.
Qed.

Lemma stop_running (w : World) :
  running (session w) ->
  stop w = (Returns stopped, on_session abort (on_session (set_stopRequested true) w)).
Proof.
  intros [Hrun Htoken]. unfold stop. run. rewrite Hrun.
  by rewrite bool_decide_eq_true_2.
Qed.

Lemma inactivityTimeout_run (w : World) :
  inactivityTimeout w
  = (Returns (), on_session abort (on_locals (set_timedOut true) w)).
Proof. reflexivity. Qed.

(** While the generator yields nothing, the loop goes on waiting, and only
    flags change. *)
Lemma consume_quiet (cfg : Config) (chatId : option Z) (ctx : bool)
  (items : list arrival) (w : World) :
  quiet items ->
  exists w', consume cfg chatId ctx items w = (Returns next_event, w') /\ flagged w w'.
Proof.
  intros Hquiet. revert w.
  induction Hquiet as [|a items Ha _ IH]; intros w.
  - exists w. split; [done | apply flagged_refl].
  - destruct a as [e| |]; [done| |]; cbn [consume]; rewrite bind_run.
    + destruct (stop_flagged w) as (r & ws & -> & Hflag).
      destruct (IH ws) as (w' & -> & Hflag').
      exists w'. split; [done|]. by eapply flagged_trans.
    + rewrite inactivityTimeout_run.
      destruct (IH (on_session abort (on_locals (set_timedOut true) w)))
        as (w' & -> & Hflag').
      exists w'. split; [done|]. eapply flagged_trans; [|exact Hflag'].
      by repeat split.
Qed.


(** ** Stopping and timing out *)

Lemma onEvent_stopped (cfg : Config) (chatId : option Z) (ctx : bool) (e : event)
  (w : World) :
  stopRequested (session w) = true ->
  onEvent cfg chatId ctx e w = (Returns break, w).
Proof. intros Hstop. unfold onEvent. run. by rewrite Hstop. Qed.

Lemma Inv_consumed (cfg : Config) (message : string) (chatId : option Z) (ctx : bool)
  (pre : list arrival) (w w0 w1 : World) (o : outcome LoopExit) :
  enter cfg message w = (Returns (), w0) ->
  consume cfg chatId ctx pre w0 = (o, w1) ->
  Inv (calls w) w1.
Proof.
  intros Henter Hpre.
  pose proof (keeps_consume (calls w) cfg chatId ctx pre w0 (Inv_enter _ _ _ _ Henter)) as H.
  by rewrite Hpre in H.
Qed.

Lemma final_calls_kinds (l : Locals) :
  Forall (fun c => call_kind c <> tool_k
                   /\ (call_kind c = text_k ->
                       timedOut l = true /\ payload c = timeoutNotice))
    (final_calls l).
Proof.
  unfold final_calls, flush_calls, notice_calls, done_call.
  destruct (askUserTriggered l), (Js.truthy (currentSegmentText l)),
    (timedOut l); cbn [app]; repeat constructor; cbn; done.
Qed.

Lemma stop_tristate_running (w : World) :
  isQueryRunning (session w) = true ->
  is_Some (abortController (session w)) ->
  exists w', stop w = (Returns stopped, w')
    /\ stopRequested (session w') = true
    /\ abortController (session w') = Some true
    /\ calls w' = calls w
    /\ locals w' = locals w.
Proof.
  intros Hrun [b Hb]. rewrite stop_running by (split; [done | by exists b]).
  eexists. split; [done|]. wsimpl. rewrite Hb. by repeat split.
Qed.

Lemma stop_tristate_processing (cfg : Config) (message : string) (chatId : option Z)
  (ctx : bool) (str : stream) (w : World) :
  _isProcessing (session w) = true ->
  isQueryRunning (session w) = false ->
  exists w1 w2,
    stop w = (Returns pending, w1)
    /\ stopRequested (session w1) = true
    /\ sendMessageStreaming cfg message chatId ctx str w1
       = (Throws (Error "Query cancelled"), w2)
    /\ stopRequested (session w2) = false
    /\ queries w2 = queries w
    /\ calls w2 = calls w.
Proof.
  intros Hproc Hrun.
  set (w1 := on_session (set_stopRequested true) w).
  destruct (enter_throws cfg message w1) as (w2 & Henter & Hstop & Hq & Hc); [done|].
  exists w1, w2. split; [|split; [done|split; [|done]]].
  - unfold stop. run. by rewrite Hrun, Hproc.
  - by apply send_enter_throws.
Qed.

Lemma stop_tristate_idle (w : World) :
  isRunning (session w) = false -> stop w = (Returns nothing_running, w).
Proof.
  unfold isRunning. intros [Hrun Hproc]%orb_false_iff.
  unfold stop. run. by rewrite Hrun, Hproc.
Qed.

Lemma stop_tristate_observed (cfg : Config) (message : string) (chatId : option Z)
  (ctx : bool) (str : stream) (w w0 w1 : World) (pre silent rest : list arrival)
  (e : event) :
  enter cfg message w = (Returns (), w0) ->
  arrivals str = pre ++ StopCalled :: silent ++ Yields e :: rest ->
  quiet silent ->
  consume cfg chatId ctx pre w0 = (Returns next_event, w1) ->
  (stop w1).1 = Returns stopped
  /\ exists r w' tail,
       sendMessageStreaming cfg message chatId ctx str w = (Returns r, w')
       /\ calls w' = calls w1 ++ tail
       /\ Forall (fun c => call_kind c <> tool_k
                           /\ (call_kind c = text_k ->
                               timedOut (locals w') = true
                               /\ payload c = timeoutNotice)) tail.
Proof.
  intros Henter Harr Hquiet Hpre.
  destruct (Inv_consumed _ _ _ _ _ _ _ _ _ Henter Hpre) as (_ & _ & Hrunning).
  pose proof (stop_running w1 Hrunning) as Hstop.
  split; [by rewrite Hstop|].
  set (w2 := on_session abort (on_session (set_stopRequested true) w1)) in *.
  destruct (consume_quiet cfg chatId ctx silent w2 Hquiet) as (w3 & Hsilent & Hflag).
  assert (Hloop : forAwait cfg chatId ctx str w0 = (Returns (), w3)).
  { rewrite forAwait_run, Harr, consume_app, Hpre.
    cbn [consume]. rewrite bind_run, Hstop, consume_app, Hsilent.
    cbn [consume]. rewrite bind_run, onEvent_stopped; [done|].
    by apply Hflag. }
  pose proof (send_left _ _ _ _ _ _ _ _ _ Henter Hloop I) as Hsend.
  destruct (assemble_world (leave w3)) as (Hc & Hl & _ & _ & r & Hr).
  destruct (leave_world w3) as (Hc' & Hl' & _).
  destruct (assemble (leave w3)) as [o w'] eqn:Hassemble. cbn [fst snd] in *.
  subst o. exists r, w', (final_calls (locals w3)).
  split; [done|]. split.
  - rewrite Hc, Hc', Hl'. f_equal. destruct Hflag as (-> & _). done.
  - rewrite Hl, Hl'. apply final_calls_kinds.
Qed.

(** C1, as the code has it.  [stop] answers by the state of the session: it
    cancels the token and returns ["stopped"] when a query is running; it
    sets the pending flag and returns ["pending"] when processing has
    started and no query is running, and the next [sendMessageStreaming]
    clears the flag and fails with "Query cancelled" without calling
    [query]; it returns [false] and changes nothing otherwise.  When [stop]
    is called while the loop of a query waits, the next event the generator
    yields is not reduced and the loop is left: no [tool] call follows, and
    no [text] call other than the timeout notice of a query whose timer has
    fired. *)
Theorem stop_tristate :
  (forall w,
     isQueryRunning (session w) = true -> is_Some (abortController (session w)) ->
     exists w', stop w = (Returns stopped, w')
       /\ stopRequested (session w') = true
       /\ abortController (session w') = Some true
       /\ calls w' = calls w
       /\ locals w' = locals w)
  /\ (forall cfg message chatId ctx str w,
        _isProcessing (session w) = true -> isQueryRunning (session w) = false ->
        exists w1 w2,
          stop w = (Returns pending, w1)
          /\ stopRequested (session w1) = true
          /\ sendMessageStreaming cfg message chatId ctx str w1
             = (Throws (Error "Query cancelled"), w2)
          /\ stopRequested (session w2) = false
          /\ queries w2 = queries w
          /\ calls w2 = calls w)
  /\ (forall w, isRunning (session w) = false -> stop w = (Returns nothing_running, w))
  /\ (forall cfg message chatId ctx str w w0 w1 pre silent rest e,
        enter cfg message w = (Returns (), w0) ->
        arrivals str = pre ++ StopCalled :: silent ++ Yields e :: rest ->
        quiet silent ->
        consume cfg chatId ctx pre w0 = (Returns next_event, w1) ->
        (stop w1).1 = Returns stopped
        /\ exists r w' tail,
             sendMessageStreaming cfg message chatId ctx str w = (Returns r, w')
             /\ calls w' = calls w1 ++ tail
             /\ Forall (fun c => call_kind c <> tool_k
                                 /\ (call_kind c = text_k ->
                                     timedOut (locals w') = true
                                     /\ payload c = timeoutNotice)) tail).
Proof.
  split; [exact stop_tristate_running|].
  split; [exact stop_tristate_processing|].
  split; [exact stop_tristate_idle|].
  intros. by eapply stop_tristate_observed.
Qed.

(** C1 as stated fails on its last part: in the sample stream the timer
    fires, [stop] is then called while the query runs, no status call has
    been made so far, and after the next event is met with the stop flag
    set, a [text] call is made (the timeout notice). *)
Lemma stop_then_timeout_notice :
  let w0 := (enter Sample.cfg "hello" Sample.world).2 in
  let at_stop := consume Sample.cfg (Some 7) true Sample.silent_arrivals w0 in
  at_stop.1 = Returns next_event
  /\ calls at_stop.2 = []
  /\ (stop at_stop.2).1 = Returns stopped
  /\ call_kind <$>
     calls (sendMessageStreaming Sample.cfg "hello" (Some 7) true Sample.stopped_stream
              Sample.world).2
     = [segment_end_k; text_k; segment_end_k; done_k].
Proof. repeat split; by vm_compute. Qed.




(** ** Blocked tool invocations *)

Lemma checks_throw (cfg : Config) (toolName : string) (toolInput : tool_input)
  (w w' : World) (err : JsError) :
  (checkBash cfg toolName toolInput ;; checkFile cfg toolName toolInput) w
  = (Throws err, w') ->
  exists c,
    w' = on_calls (fun cs => cs ++ [c]) w
    /\ call_kind c = tool_k /\ awaited c = true /\ toolId c = None /\ denial c
    /\ ((exists reason, err = Error ("Unsafe command blocked: " +:+ reason))
        \/ (exists filePath, err = Error ("File access blocked: " +:+ filePath))).
Proof.
  unfold checkBash, checkFile. run.
  destruct (bool_decide (toolName = "Bash")); run.
  - destruct (checkCommandSafety cfg _) as [[] reason]; cbn [negb]; run.
    + destruct (bool_decide (toolName ∈ _)); run; [|done].
      destruct (Js.truthy _); run; [|done].
      destruct (_ && _); run; [|done].
      intros [= <- <-]. eexists. split; [reflexivity|].
      repeat split; [right; by eexists | right; by eexists].
    + intros [= <- <-]. eexists. split; [reflexivity|].
      repeat split; [left; by eexists | left; by eexists].
  - destruct (bool_decide (toolName ∈ _)); run; [|done].
    destruct (Js.truthy _); run; [|done].
    destruct (_ && _); run; [|done].
    intros [= <- <-]. eexists. split; [reflexivity|].
    repeat split; [right; by eexists | right; by eexists].
Qed.

Lemma toolUseBlock_blocked (cfg : Config) (chatId : option Z) (ctx : bool)
  (toolName : string) (toolInput : tool_input) (toolUseId : option string)
  (w w' : World) (err : JsError) :
  (checkBash cfg toolName toolInput ;; checkFile cfg toolName toolInput) w
  = (Throws err, w') ->
  toolUseBlock cfg chatId ctx toolName toolInput toolUseId w = (Throws err, w').
Proof.
  unfold toolUseBlock. rewrite !bind_run.
  destruct (checkBash cfg toolName toolInput w) as [[[]|e] wb]; [|done].
  rewrite bind_run.
  destruct (checkFile cfg toolName toolInput wb) as [[[]|e] wf]; [done|done].
Qed.

(** C3, as the code has it.  The loop of a query reaches a tool-use block
    that fails the check of Bash commands or the check of file paths.  Then
    an awaited [tool] call reports the block, the failure is raised at once,
    and no later block or event is reduced; and when the failure is not
    suppressed by the [catch] clause, [sendMessageStreaming] fails with it,
    having set [lastError] to the first 100 characters of its text and
    [lastErrorTime] to the time of the failure. *)
Theorem blocked_tool_is_recorded (cfg : Config) (message : string) (chatId : option Z)
  (ctx : bool) (str : stream) (w w0 w1 w2 w3 : World) (pre rest : list arrival)
  (ev : event) (before after : list block)
  (toolName : string) (toolInput : tool_input) (toolUseId : option string)
  (err : JsError) :
  enter cfg message w = (Returns (), w0) ->
  arrivals str = pre ++ Yields ev :: rest ->
  consume cfg chatId ctx pre w0 = (Returns next_event, w1) ->
  stopRequested (session w1) = false ->
  ev_body ev = Assistant (before ++ ToolUse toolName toolInput toolUseId :: after) ->
  (captureSessionId cfg ev ;; for_of (assistantBlock cfg chatId ctx) before) w1
  = (Returns (), w2) ->
  (checkBash cfg toolName toolInput ;; checkFile cfg toolName toolInput) w2
  = (Throws err, w3) ->
  isSuppressed err (session w3) (locals w3) = false ->
  exists w' c,
    sendMessageStreaming cfg message chatId ctx str w = (Throws err, w')
    /\ lastError (session w') = Some (Js.slice0 100 (String_of_error err))
    /\ lastErrorTime (session w') = Some (clock w3 (ticks w3))
    /\ calls w' = calls w2 ++ [c]
    /\ call_kind c = tool_k /\ awaited c = true /\ denial c
    /\ ((exists reason, err = Error ("Unsafe command blocked: " +:+ reason))
        \/ (exists filePath, err = Error ("File access blocked: " +:+ filePath))).
Proof.
  intros Henter Harr Hpre Hstop Hbody Hbefore Hcheck Hsup.
  destruct (checks_throw _ _ _ _ _ _ Hcheck) as (c & Hw3 & Hk & Haw & _ & Hden & Herr).
  assert (Hev : onEvent cfg chatId ctx ev w1 = (Throws err, w3)).
  { unfold onEvent. rewrite bind_run. unfold get_session at 1. cbv beta iota.
    rewrite Hstop, Hbody. rewrite bind_run in Hbefore. rewrite bind_run.
    destruct (captureSessionId cfg ev w1) as [[[]|e] wc]; [|done].
    rewrite bind_run, for_of_app, Hbefore. cbn [for_of assistantBlock].
    rewrite bind_run.
    by rewrite (toolUseBlock_blocked _ _ _ _ _ _ _ _ _ Hcheck). }
  assert (Hloop : forAwait cfg chatId ctx str w0 = (Throws err, w3)).
  { rewrite forAwait_run, Harr, consume_app, Hpre.
    cbn [consume]. by rewrite bind_run, Hev. }
  exists (fail_with err w3), c.
  destruct (fail_with_world err w3) as (Hc & _ & _ & _ & Hle & Hlt).
  split; [by eapply send_failed|].
  repeat split; try done.
  rewrite Hc, Hw3. done.
Qed.

(** The sample stream asks for an unsafe shell command: the call fails with
    the blocking error, and [lastError] holds its text. *)
Lemma blocked_tool_is_recorded_witness :
  exists w',
    sendMessageStreaming Sample.cfg "hello" (Some 7) true Sample.unsafe_stream
      Sample.world
    = (Throws (Error "Unsafe command blocked: dangerous pattern"), w')
    /\ lastError (session w')
       = Some "Error: Unsafe command blocked: dangerous pattern".
Proof.
  set (w0 := (enter Sample.cfg "hello" Sample.world).2).
  set (ev := {| ev_session_id := Some "sess-1";
                ev_body := Assistant
                  [ToolUse "Bash" {[ "command" := "rm -rf / --no-preserve-root" ]}
                     (Some "toolu_3")] |}).
  set (w2 := (captureSessionId Sample.cfg ev w0).2).
  destruct (blocked_tool_is_recorded Sample.cfg "hello" (Some 7) true
              Sample.unsafe_stream Sample.world w0 w0 w2
              (checkBash Sample.cfg "Bash"
                 {[ "command" := "rm -rf / --no-preserve-root" ]} w2).2
              [] [] ev [] []
              "Bash" {[ "command" := "rm -rf / --no-preserve-root" ]} (Some "toolu_3")
              (Error "Unsafe command blocked: dangerous pattern"))
    as (w' & c & Hsend & Herror & _); try by vm_compute.
  exists w'. split; [exact Hsend | exact Herror].
Defined.

(** C3 as stated fails: the sample call with an unsafe shell command fails,
    and it leaves [lastError] and [lastErrorTime] set, which they were not
    before. *)
Lemma blocked_tool_sets_lastError :
  lastError (session Sample.world) = None
  /\ lastErrorTime (session Sample.world) = None
  /\ (sendMessageStreaming Sample.cfg "hello" (Some 7) true Sample.unsafe_stream
        Sample.world).1
     = Throws (Error "Unsafe command blocked: dangerous pattern")
  /\ lastError
       (session (sendMessageStreaming Sample.cfg "hello" (Some 7) true
                   Sample.unsafe_stream Sample.world).2)
     = Some "Error: Unsafe command blocked: dangerous pattern"
  /\ lastErrorTime
       (session (sendMessageStreaming Sample.cfg "hello" (Some 7) true
                   Sample.unsafe_stream Sample.world).2)
     = Some 4000.
Proof. repeat split; by vm_compute. Qed.

(** ** Reads of temporary files, and tool results *)

Lemma closeSegment_returns (w : World) :
  exists w', closeSegment w = (Returns (), w').
Proof.
  unfold closeSegment. run.
  destruct (Js.truthy (currentSegmentText (locals w))); run; by eexists.
Qed.

Lemma checkFile_exempt (cfg : Config) (toolInput : tool_input) (w : World) :
  Js.some (fun p => Js.startsWith (field_or toolInput "file_path" "") p) (TEMP_PATHS cfg)
  || Js.includes (field_or toolInput "file_path" "") "/.claude/" = true ->
  checkFile cfg "Read" toolInput w = (Returns (), w).
Proof.
  intros Hexempt. unfold checkFile, isTmpRead. rewrite Hexempt.
  rewrite (bool_decide_eq_true_2 ("Read" = "Read")) by done.
  destruct (bool_decide _); [|done].
  by destruct (Js.truthy _).
Qed.

Lemma checkFile_denies (cfg : Config) (toolName : string) (toolInput : tool_input)
  (w : World) :
  toolName = "Write" \/ toolName = "Edit" ->
  Js.truthy (field_or toolInput "file_path" "") = true ->
  isPathAllowed cfg (field_or toolInput "file_path" "") = false ->
  checkFile cfg toolName toolInput w
  = (Throws (Error ("File access blocked: " +:+ field_or toolInput "file_path" "")),
     on_calls (fun cs => cs ++
       [ {| call_kind := tool_k;
            payload := "Access denied: " +:+ field_or toolInput "file_path" "";
            segmentId := None; toolId := None; awaited := true |} ]) w).
Proof.
  intros Hname Htruthy Hallowed. unfold checkFile, isTmpRead.
  rewrite bool_decide_eq_true_2 by (destruct Hname as [-> | ->]; set_solver).
  rewrite Htruthy, Hallowed.
  rewrite (bool_decide_eq_false_2 (toolName = "Read"))
    by (destruct Hname as [-> | ->]; done).
  reflexivity.
Qed.

(** C10.  A Read of a file whose path starts with a configured temp path or
    contains ["/.claude/"] passes the safety checks and its tool-use block
    is reduced without failure, whether or not the path is allowed.  A Write
    or an Edit of a file whose path is not allowed is blocked, whatever the
    path starts with or contains: the block is reported by an awaited [tool]
    call and a failure is raised. *)
Theorem temp_reads_bypass_allowlist (cfg : Config) (chatId : option Z) (ctx : bool)
  (toolInput : tool_input) (toolUseId : option string) (w : World) :
  (Js.some (fun p => Js.startsWith (field_or toolInput "file_path" "") p) (TEMP_PATHS cfg)
   || Js.includes (field_or toolInput "file_path" "") "/.claude/" = true ->
   exists w', toolUseBlock cfg chatId ctx "Read" toolInput toolUseId w = (Returns (), w'))
  /\ (forall toolName,
        toolName = "Write" \/ toolName = "Edit" ->
        Js.truthy (field_or toolInput "file_path" "") = true ->
        isPathAllowed cfg (field_or toolInput "file_path" "") = false ->
        toolUseBlock cfg chatId ctx toolName toolInput toolUseId w
        = (Throws (Error ("File access blocked: " +:+ field_or toolInput "file_path" "")),
           on_calls (fun cs => cs ++
             [ {| call_kind := tool_k;
                  payload := "Access denied: " +:+ field_or toolInput "file_path" "";
                  segmentId := None; toolId := None; awaited := true |} ]) w)).
Proof.
  split.
  - intros Hexempt. unfold toolUseBlock. rewrite bind_run.
    unfold checkBash at 1. rewrite (bool_decide_eq_false_2 ("Read" = "Bash")) by done.
    unfold skip at 1, mret, M_ret. cbv beta iota.
    rewrite bind_run, (checkFile_exempt cfg toolInput w Hexempt). rewrite bind_run.
    destruct (closeSegment_returns w) as (w1 & ->).
    change (Js.startsWith "Read" "mcp__ask-user") with false. cbn [negb andb].
    destruct toolUseId as [i|]; [destruct (Js.truthy i) eqn:Hi|]; run;
      rewrite ?Hi; run; by eexists.
  - intros toolName Hname Htruthy Hallowed. apply toolUseBlock_blocked.
    rewrite bind_run. unfold checkBash.
    rewrite bool_decide_eq_false_2 by (destruct Hname as [-> | ->]; done).
    unfold skip, mret, M_ret. cbv beta iota. by apply checkFile_denies.
Qed.



(** ** The theorems at the samples *)



(** A file under the temporary directory that the allowlist refuses: [Read]
    goes through, [Write] is blocked. *)
Lemma temp_reads_bypass_allowlist_witness :
  (exists w',
     toolUseBlock Sample.cfg (Some 7) true "Read"
       {[ "file_path" := "/tmp/telegram-bot/photo_1.jpg" ]} (Some "toolu_4")
       Sample.entered_world
     = (Returns (), w'))
  /\ isPathAllowed Sample.cfg "/tmp/telegram-bot/photo_1.jpg" = false
  /\ (toolUseBlock Sample.cfg (Some 7) true "Write"
        {[ "file_path" := "/tmp/telegram-bot/photo_1.jpg" ]} (Some "toolu_4")
        Sample.entered_world).1
     = Throws (Error "File access blocked: /tmp/telegram-bot/photo_1.jpg").
Proof.
  destruct (temp_reads_bypass_allowlist Sample.cfg (Some 7) true
              {[ "file_path" := "/tmp/telegram-bot/photo_1.jpg" ]} (Some "toolu_4")
              Sample.entered_world) as [Hread Hwrite].
  split; [|split].
  - apply Hread. by vm_compute.
  - by vm_compute.
  - rewrite (Hwrite "Write"); [by vm_compute | by left | by vm_compute | by vm_compute].
Defined.

(** [stop] in the processing phase of the sample, then the call that follows
    it; and the sample call during which [stop] is called. *)
Lemma stop_tristate_witness :
  (exists w1 w2,
     stop Sample.processing_world = (Returns pending, w1)
     /\ sendMessageStreaming Sample.cfg "hello" (Some 7) true Sample.tool_stream w1
        = (Throws (Error "Query cancelled"), w2)
     /\ queries w2 = [])
  /\ (exists r w',
        sendMessageStreaming Sample.cfg "hello" (Some 7) true Sample.stopped_stream
          Sample.world
        = (Returns r, w')).
Proof.
  destruct stop_tristate as (_ & Hpending & _ & Hobserved). split.
  - destruct (Hpending Sample.cfg "hello" (Some 7) true Sample.tool_stream
                Sample.processing_world)
      as (w1 & w2 & Hstop & _ & Hsend & _ & Hqueries & _); [done | done |].
    by exists w1, w2.
  - destruct (Hobserved Sample.cfg "hello" (Some 7) true Sample.stopped_stream
                Sample.world Sample.entered_world
                (consume Sample.cfg (Some 7) true Sample.silent_arrivals
                   Sample.entered_world).2
                Sample.silent_arrivals [] [] {| ev_session_id := Some "sess-1";
                                                ev_body := Result None |})
      as (_ & r & w' & tail & Hsend & _).
    + by vm_compute.
    + done.
    + constructor.
    + by vm_compute.
    + by exists r, w'.
Defined.

Lemma carried_at (cs : list StatusCall) (i k : nat) :
  segmentId <$> cs !! i = Some (Some k) -> carried cs k.
Proof.
  destruct (cs !! i) as [c|] eqn:Hc; [|done].
  intros [= Hk]. exists c. split; [by eapply list_elem_of_lookup_2 | done].
Qed.

(** The sample reply around a file read: the call returns without an
    ask-user interaction, and each of its two segments has one
    [segment_end]. *)
Lemma segment_ends_of_a_call_witness :
  ends_count
    (calls (sendMessageStreaming Sample.cfg "hello" (Some 7) true Sample.tool_stream
              Sample.world).2) 0 = 1%nat
  /\ ends_count
       (calls (sendMessageStreaming Sample.cfg "hello" (Some 7) true Sample.tool_stream
                 Sample.world).2) 1 = 1%nat.
Proof.
  destruct (segment_ends_of_a_call Sample.cfg "hello" (Some 7) true Sample.tool_stream
              Sample.world) as (cs & Hcalls & _ & _ & _ & _ & Hall).
  assert (Hbase : calls Sample.world = []) by reflexivity.
  rewrite Hbase in Hcalls. cbn [app] in Hcalls. rewrite Hcalls.
  assert (Hreturns : exists r,
    (sendMessageStreaming Sample.cfg "hello" (Some 7) true Sample.tool_stream
       Sample.world).1 = Returns r).
  { eexists. by vm_compute. }
  assert (Hask : askUserTriggered
    (locals (sendMessageStreaming Sample.cfg "hello" (Some 7) true Sample.tool_stream
               Sample.world).2) = false) by (by vm_compute).
  split; apply (Hall Hreturns Hask); rewrite <- Hcalls.
  - apply (carried_at _ 0). by vm_compute.
  - apply (carried_at _ 4). by vm_compute.
Defined.

(** * Further properties *)

(** ** Strings as lists of characters *)

Lemma append_assoc (a b c : string) : (a +:+ b) +:+ c = a +:+ (b +:+ c).
Proof. induction a as [|x a IH]; [done|]. by rewrite !append_cons, IH. Qed.

Lemma append_nil_r (s : string) : s +:+ "" = s.
Proof. induction s as [|x s IH]; [done|]. by rewrite append_cons, IH. Qed.

Lemma length_append (a b : string) :
  String.length (a +:+ b) = (String.length a + String.length b)%nat.
Proof. induction a as [|x a IH]; [done|]. rewrite append_cons. cbn. by rewrite IH. Qed.

Lemma chars_append (a b : string) : chars (a +:+ b) = chars a ++ chars b.
Proof.
  induction a as [|x a IH]; [done|]. rewrite append_cons.
  unfold chars in *. cbn. by rewrite IH.
Qed.

Lemma chars_cons (c : ascii) (s : string) : chars (String c s) = c :: chars s.
Proof. reflexivity. Qed.

Lemma chars_map (f : ascii -> ascii) (s : string) :
  chars (Js.map_string f s) = f <$> chars s.
Proof.
  induction s as [|x s IH]; [done|].
  cbn [Js.map_string]. by rewrite !chars_cons, IH.
Qed.

Lemma length_chars (s : string) : length (chars s) = String.length s.
Proof. induction s as [|x s IH]; [done|]. rewrite chars_cons. cbn. by rewrite IH. Qed.

Lemma chars_inj (a b : string) : chars a = chars b -> a = b.
Proof.
  intros H. rewrite <- (string_of_list_ascii_of_string a),
    <- (string_of_list_ascii_of_string b). unfold chars in H. by rewrite H.
Qed.


Lemma count_char_cons (c d : ascii) (s : string) :
  count_char c (String d s) = ((if bool_decide (d = c) then 1 else 0) + count_char c s)%nat.
Proof. unfold count_char. rewrite chars_cons. cbn. by destruct (bool_decide (d = c)). Qed.

Lemma count_char_0 (c : ascii) (s : string) :
  count_char c s = 0%nat <-> c ∉ chars s.
Proof.
  induction s as [|d s IH].
  - split; [intros _; apply not_elem_of_nil | done].
  - rewrite count_char_cons, chars_cons, not_elem_of_cons, <- IH.
    case_bool_decide as Hd.
    + split; [lia | intros [Hne _]; congruence].
    + split; [intros H; split; [congruence | lia] | intros [_ H]; lia].
Qed.

Lemma length_map_string (f : ascii -> ascii) (s : string) :
  String.length (Js.map_string f s) = String.length s.
Proof. by rewrite <- !length_chars, chars_map, length_fmap. Qed.

(** ** Reversal, trimming and slices *)

Lemma chars_rev_app (s acc : string) :
  chars (String.rev_app s acc) = reverse (chars s) ++ chars acc.
Proof.
  revert acc. induction s as [|x s IH]; intros acc; [done|].
  cbn [String.rev_app]. rewrite IH, !chars_cons, reverse_cons, <- app_assoc. done.
Qed.

Lemma chars_rev (s : string) : chars (String.rev s) = reverse (chars s).
Proof. unfold String.rev. by rewrite chars_rev_app, app_nil_r. Qed.

Lemma rev_rev (s : string) : String.rev (String.rev s) = s.
Proof. apply chars_inj. by rewrite !chars_rev, reverse_involutive. Qed.

Lemma trimStart_suffix (s : string) : exists pre, s = pre +:+ Js.trimStart s.
Proof.
  induction s as [|x s [pre IH]]; [by exists ""|]. cbn.
  destruct (Ascii.is_space x); [|by exists ""].
  exists (String x pre). by rewrite append_cons, <- IH.
Qed.

Lemma chars_trim (s : string) : exists pre post, chars s = pre ++ chars (Js.trim s) ++ post.
Proof.
  unfold Js.trim.
  destruct (trimStart_suffix s) as [pre Hpre].
  destruct (trimStart_suffix (String.rev (Js.trimStart s))) as [post Hpost].
  exists (chars pre), (reverse (chars post)).
  set (t := Js.trimStart s) in *. set (u := Js.trimStart (String.rev t)) in *.
  rewrite Hpre at 1. rewrite chars_append. f_equal.
  rewrite chars_rev, <- (reverse_involutive (chars t)), <- chars_rev, Hpost.
  by rewrite chars_append, reverse_app.
Qed.

Lemma length_trim (s : string) : (String.length (Js.trim s) <= String.length s)%nat.
Proof.
  destruct (chars_trim s) as (pre & post & H).
  rewrite <- !length_chars, H, !length_app. lia.
Qed.

Lemma elem_of_chars_trim (c : ascii) (s : string) : c ∈ chars (Js.trim s) -> c ∈ chars s.
Proof. destruct (chars_trim s) as (pre & post & ->). set_solver. Qed.

Lemma slice0_prefix (n : nat) (s : string) : exists post, s = Js.slice0 n s +:+ post.
Proof.
  unfold Js.slice0. revert n. induction s as [|x s IH]; intros [|n]; cbn.
  - by exists "".
  - by exists "".
  - by exists (String x s).
  - destruct (IH n) as [post Hpost]. exists post. by rewrite append_cons, <- Hpost.
Qed.

Lemma length_slice0 (n : nat) (s : string) : (String.length (Js.slice0 n s) <= n)%nat.
Proof.
  unfold Js.slice0. revert n. induction s as [|x s IH]; intros [|n]; cbn; try lia.
  specialize (IH n). lia.
Qed.

Lemma elem_of_chars_slice0 (c : ascii) (n : nat) (s : string) :
  c ∈ chars (Js.slice0 n s) -> c ∈ chars s.
Proof.
  destruct (slice0_prefix n s) as [post Hpost]. rewrite Hpost at 2.
  rewrite chars_append. set_solver.
Qed.

Lemma slice_from_append (p post : string) :
  Js.slice_from (String.length p) (p +:+ post) = post.
Proof. induction p as [|x p IH]; [by destruct post|]. by rewrite append_cons. Qed.

(** ** Splitting at a character, and joining *)

Lemma startsWith_nil (s : string) : Js.startsWith s "" = true.
Proof. by destruct s. Qed.

Lemma startsWith_char (c a : ascii) (s : string) :
  Js.startsWith (String a s) (String c "") = bool_decide (a = c).
Proof.
  unfold Js.startsWith. cbn. destruct (ascii_dec c a) as [->|Hne].
  - rewrite bool_decide_true by done. by destruct s.
  - by rewrite bool_decide_false by congruence.
Qed.

Lemma split_go_char (c a : ascii) (s cur : string) :
  Js.split_go (String c "") (String a s) 0 cur =
  if bool_decide (a = c) then cur :: Js.split_go (String c "") s 0 ""
  else Js.split_go (String c "") s 0 (cur +:+ String a "").
Proof. cbn [Js.split_go]. by rewrite startsWith_char. Qed.

Lemma split_go_nonempty (sep s : string) (k : nat) (cur : string) :
  Js.split_go sep s k cur <> [].
Proof.
  revert k cur. induction s as [|a s IH]; intros k cur; cbn [Js.split_go]; [done|].
  destruct k; [|apply IH]. destruct (Js.startsWith _ _); [done | apply IH].
Qed.

Lemma join_cons (sep p : string) (rest : list string) :
  rest <> [] -> Js.join sep (p :: rest) = p +:+ sep +:+ Js.join sep rest.
Proof. by destruct rest. Qed.

Lemma join_split_go (c : ascii) (s cur : string) :
  Js.join (String c "") (Js.split_go (String c "") s 0 cur) = cur +:+ s.
Proof.
  revert cur. induction s as [|a s IH]; intros cur.
  - cbn. by rewrite append_nil_r.
  - rewrite split_go_char. case_bool_decide as Hc.
    + subst a. rewrite join_cons by apply split_go_nonempty. by rewrite IH.
    + rewrite IH, append_assoc. done.
Qed.

Lemma join_split (c : ascii) (s : string) :
  Js.join (String c "") (Js.split s (String c "")) = s.
Proof. unfold Js.split. by rewrite join_split_go. Qed.





Lemma split_go_none (c : ascii) (s cur : string) :
  c ∉ chars s -> Js.split_go (String c "") s 0 cur = [cur +:+ s].
Proof.
  revert cur. induction s as [|a s IH]; intros cur Hs.
  - cbn. by rewrite append_nil_r.
  - rewrite chars_cons, not_elem_of_cons in Hs. destruct Hs as [Hne Hs].
    rewrite split_go_char, bool_decide_false by congruence.
    rewrite IH by done. by rewrite append_assoc.
Qed.

Lemma split_none (c : ascii) (s : string) :
  c ∉ chars s -> Js.split s (String c "") = [s].
Proof. intros Hs. unfold Js.split. by rewrite split_go_none. Qed.

Lemma split_go_append (c : ascii) (a b cur : string) :
  Js.split_go (String c "") (a +:+ String c b) 0 cur =
  Js.split_go (String c "") a 0 cur ++ Js.split_go (String c "") b 0 "".
Proof.
  revert cur. induction a as [|x a IH]; intros cur.
  - rewrite append_nil_l, split_go_char, bool_decide_true by done. done.
  - rewrite append_cons, !split_go_char. case_bool_decide; [|apply IH].
    by rewrite IH.
Qed.

Lemma split_append (c : ascii) (a b : string) :
  Js.split (a +:+ String c b) (String c "") =
  Js.split a (String c "") ++ Js.split b (String c "").
Proof. apply split_go_append. Qed.

Lemma split_go_map (f : ascii -> ascii) (c : ascii) (s cur : string) :
  (forall x, f x = c <-> x = c) ->
  Js.split_go (String c "") (Js.map_string f s) 0 (Js.map_string f cur) =
  Js.map_string f <$> Js.split_go (String c "") s 0 cur.
Proof.
  intros Hf. revert cur. induction s as [|a s IH]; intros cur; [done|].
  cbn [Js.map_string]. rewrite !split_go_char.
  rewrite (bool_decide_ext _ _ (Hf a)). case_bool_decide.
  - rewrite fmap_cons. f_equal. apply (IH "").
  - rewrite <- IH. f_equal. apply chars_inj.
    by rewrite chars_append, !chars_map, chars_append, fmap_app.
Qed.

Lemma split_map (f : ascii -> ascii) (c : ascii) (s : string) :
  (forall x, f x = c <-> x = c) ->
  Js.split (Js.map_string f s) (String c "") =
  Js.map_string f <$> Js.split s (String c "").
Proof. intros Hf. apply (split_go_map f c s "" Hf). Qed.

Lemma last_app_nonempty {A} (l1 l2 : list A) (d : A) :
  l2 <> [] -> List.last (l1 ++ l2) d = List.last l2 d.
Proof.
  intros Hl2. induction l1 as [|x l1 IH]; [done|].
  cbn [app]. destruct (l1 ++ l2) eqn:Happ; [|by rewrite <- IH].
  by destruct l1, l2.
Qed.

Lemma last_fmap {A B} (f : A -> B) (l : list A) (d : A) :
  List.last (f <$> l) (f d) = f (List.last l d).
Proof. induction l as [|x [|y l] IH]; done. Qed.


Lemma join_empty_app (l1 l2 : list string) :
  Js.join "" (l1 ++ l2) = Js.join "" l1 +:+ Js.join "" l2.
Proof.
  induction l1 as [|p l1 IH]; [done|].
  assert (Hcons : forall l, Js.join "" (p :: l) = p +:+ Js.join "" l).
  { intros [|q l]; [by rewrite append_nil_r | done]. }
  cbn [app]. by rewrite !Hcons, IH, append_assoc.
Qed.

(** ** Escaping *)

Lemma plain_append (a b : string) : plain (a +:+ b) <-> plain a /\ plain b.
Proof. unfold plain. by rewrite chars_append, forallb_app, andb_true_iff. Qed.

Lemma plain_elem (s : string) :
  plain s <-> forall c, c ∈ chars s -> markup_char c = false.
Proof.
  unfold plain. rewrite forallb_forall. split.
  - intros H c Hc. apply negb_true_iff, H. by apply list_elem_of_In.
  - intros H c Hc. apply negb_true_iff, H. by apply list_elem_of_In.
Qed.

Lemma escape_char_plain (c : ascii) : plain (Formatting.escape_char c).
Proof.
  unfold Formatting.escape_char. repeat case_decide; try reflexivity.
  unfold plain, markup_char. cbn. rewrite bool_decide_false; [done|].
  rewrite !elem_of_cons, elem_of_nil. tauto.
Qed.

Lemma escapeHtml_plain (text : string) : plain (Formatting.escapeHtml text).
Proof.
  induction text as [|c text IH]; [done|].
  cbn [Formatting.escapeHtml]. apply plain_append. split; [apply escape_char_plain | done].
Qed.

Lemma escapeHtml_append (a b : string) :
  Formatting.escapeHtml (a +:+ b) = Formatting.escapeHtml a +:+ Formatting.escapeHtml b.
Proof.
  induction a as [|c a IH]; [done|].
  rewrite append_cons. cbn [Formatting.escapeHtml]. by rewrite IH, append_assoc.
Qed.

Lemma escape_char_length (c : ascii) : (1 <= String.length (Formatting.escape_char c))%nat.
Proof. unfold Formatting.escape_char. repeat case_decide; cbn; lia. Qed.

Lemma escapeHtml_length (text : string) :
  (String.length text <= String.length (Formatting.escapeHtml text))%nat.
Proof.
  induction text as [|c text IH]; [done|].
  cbn [Formatting.escapeHtml]. rewrite length_append.
  pose proof (escape_char_length c). cbn [String.length]. lia.
Qed.

Lemma escape_char_clean (c : ascii) :
  special_char c = false -> Formatting.escape_char c = String c "".
Proof.
  unfold special_char. intros H. apply bool_decide_eq_false in H.
  rewrite !elem_of_cons, elem_of_nil in H.
  unfold Formatting.escape_char. repeat case_decide; tauto.
Qed.

(** X1.  Escaped text holds no character that opens or closes markup: none
    of its characters is [<], [>] or the double quote. *)
Theorem escapeHtml_no_markup (text : string) :
  Forall (fun c => c <> "<"%char /\ c <> ">"%char /\ c <> "034"%char)
    (chars (Formatting.escapeHtml text)).
Proof.
  apply Forall_forall. intros c Hc.
  pose proof (proj1 (plain_elem _) (escapeHtml_plain text) c Hc) as Hm.
  unfold markup_char in Hm. apply bool_decide_eq_false in Hm.
  rewrite !elem_of_cons, elem_of_nil in Hm. tauto.
Qed.

(** X2.  Escaping loses nothing: two texts with the same escaped form are
    the same text. *)
Theorem escapeHtml_injective (a b : string) :
  Formatting.escapeHtml a = Formatting.escapeHtml b -> a = b.
Proof.
  revert b. induction a as [|c a IH]; intros [|d b]; cbn [Formatting.escapeHtml].
  - done.
  - intros H. apply (f_equal String.length) in H. rewrite length_append in H.
    pose proof (escape_char_length d). cbn in H. lia.
  - intros H. apply (f_equal String.length) in H. rewrite length_append in H.
    pose proof (escape_char_length c). cbn in H. lia.
  - unfold Formatting.escape_char.
    repeat case_decide; subst; rewrite ?append_cons, ?append_nil_l;
      intros Heq; simplify_eq; f_equal; auto.
Qed.

(** The escaped form of a comparison determines the comparison. *)
Lemma escapeHtml_injective_witness : "1 < 2 & 3" = "1 < 2 & 3".
Proof. apply (escapeHtml_injective "1 < 2 & 3" "1 < 2 & 3"). reflexivity. Defined.

(** X3.  Escaping leaves a text as it is exactly when the text has none of
    the characters [&], [<], [>] and the double quote. *)
Theorem escapeHtml_fixed (text : string) :
  Formatting.escapeHtml text = text <->
  forall c, c ∈ chars text -> special_char c = false.
Proof.
  induction text as [|c text IH].
  - split; [intros _ c Hc; by apply elem_of_nil in Hc | done].
  - cbn [Formatting.escapeHtml]. rewrite chars_cons. split.
    + intros H d Hd. destruct (special_char c) eqn:Hsp.
      * exfalso. unfold special_char in Hsp. apply bool_decide_eq_true in Hsp.
        rewrite !elem_of_cons, elem_of_nil in Hsp.
        pose proof (escapeHtml_length text) as Hlen.
        unfold Formatting.escape_char in H.
        destruct Hsp as [->|[->|[->|[->|[]]]]];
          repeat case_decide; try done;
          rewrite ?append_cons, ?append_nil_l in H; simplify_eq.
        match goal with
        | Heq : _ = text |- _ => apply (f_equal String.length) in Heq; cbn in Heq; lia
        end.
      * rewrite (escape_char_clean c Hsp), append_cons, append_nil_l in H.
        apply elem_of_cons in Hd as [->|Hd]; [done|].
        apply IH; [congruence | done].
    + intros H. rewrite (escape_char_clean c) by (apply H; by left).
      rewrite append_cons, append_nil_l. f_equal. apply IH.
      intros d Hd. apply H. by right.
Qed.

(** ** Paths and excerpts *)




(** X5.  An excerpt of at most [maxLen] characters.  [truncate] returns the
    empty text for the empty text; its result never has a line feed and is
    never longer than [maxLen] characters plus the three of the ellipsis;
    and a text without line feeds and without blanks at its ends that is no
    longer than [maxLen] is returned as it is. *)
Theorem truncate_bounds (text : string) (maxLen : nat) :
  Formatting.truncate "" maxLen = ""
  /\ (String.length (Formatting.truncate text maxLen) <= maxLen + 3)%nat
  /\ ("010"%char ∉ chars (Formatting.truncate text maxLen))
  /\ (("010"%char ∉ chars text) -> Js.trim text = text ->
      (String.length text <= maxLen)%nat ->
      Formatting.truncate text maxLen = text).
Proof.
  split; [reflexivity|].
  unfold Formatting.truncate.
  destruct text as [|c text]; [cbn; repeat split; [lia | apply not_elem_of_nil]|].
  cbn [Js.truthy negb]. cbv zeta.
  set (spaced := Js.map_string _ (String c text)).
  assert (Hspaced : "010"%char ∉ chars spaced).
  { unfold spaced. rewrite chars_map. intros Hin.
    apply list_elem_of_fmap in Hin as (d & Hd & _).
    by case_decide. }
  split; [|split].
  - destruct (String.length (Js.trim spaced) <=? maxLen)%nat eqn:Hshort.
    + apply Nat.leb_le in Hshort. lia.
    + rewrite length_append. pose proof (length_slice0 maxLen (Js.trim spaced)).
      change (String.length "...") with 3%nat. lia.
  - destruct (String.length (Js.trim spaced) <=? maxLen)%nat.
    + intros Hin. by apply Hspaced, elem_of_chars_trim.
    + rewrite chars_append, not_elem_of_app. split.
      * intros Hin. by apply Hspaced, elem_of_chars_trim, (elem_of_chars_slice0 _ maxLen).
      * intros Hin. repeat (apply elem_of_cons in Hin as [Hin|Hin]; [done|]).
        by apply elem_of_nil in Hin.
  - intros Hnl Htrim Hlen.
    assert (Hsame : spaced = String c text).
    { unfold spaced. clear -Hnl. induction (String c text) as [|d s IH]; [done|].
      rewrite chars_cons, not_elem_of_cons in Hnl. destruct Hnl as [Hd Hs].
      cbn [Js.map_string]. rewrite IH by done. by rewrite decide_False by congruence. }
    rewrite Hsame, Htrim. by apply Nat.leb_le in Hlen as ->.
Qed.

(** A short command is shown as it is. *)
Lemma truncate_bounds_witness : Formatting.truncate "ls -la" 50 = "ls -la".
Proof.
  destruct (truncate_bounds "ls -la" 50) as (_ & _ & _ & Hsame).
  apply Hsame; [by apply count_char_0 | reflexivity | cbn; lia].
Defined.

(** ** Tool displays *)

Lemma wm_plain (s : string) : plain s -> well_marked s.
Proof. intros Hs. exists [Plain s]. split; [done | by repeat constructor]. Qed.

Lemma wm_code (text : string) : well_marked (Formatting.code text).
Proof.
  exists [Code (Formatting.escapeHtml text)]. split; [done|].
  repeat constructor. apply escapeHtml_plain.
Qed.

Lemma wm_app (a b : string) : well_marked a -> well_marked b -> well_marked (a +:+ b).
Proof.
  intros (ps & -> & Hps) (qs & -> & Hqs). exists (ps ++ qs).
  split; [by rewrite fmap_app, join_empty_app | by apply Forall_app].
Qed.

Lemma emoji_plain (toolName : string) :
  plain
    match List.find (fun kv => Js.includes toolName (fst kv)) Formatting.emojiMap with
    | Some kv => snd kv
    | None => "🔧"
    end.
Proof.
  unfold Formatting.emojiMap. cbn [List.find fst snd].
  repeat (destruct (Js.includes toolName _); [reflexivity|]). reflexivity.
Qed.

Ltac well_marked :=
  repeat first
    [ apply wm_code
    | apply wm_app
    | apply wm_plain; first [assumption | apply escapeHtml_plain | reflexivity] ].

(** X6.  The display of a tool that is not an MCP tool is sound markup,
    whatever the tool's name and input: it is made of text without [<], [>]
    and double quote, and of [<code>] elements whose content has none of
    them. *)
Theorem formatToolStatus_well_marked (toolName : string) (toolInput : tool_input) :
  Js.startsWith toolName "mcp__" = false ->
  well_marked (Formatting.formatToolStatus toolName toolInput).
Proof.
  intros Hmcp. unfold Formatting.formatToolStatus. cbv zeta. rewrite Hmcp.
  pose proof (emoji_plain toolName) as Hemoji. revert Hemoji.
  generalize (match List.find (fun kv => Js.includes toolName (fst kv))
                      Formatting.emojiMap with
              | Some kv => snd kv
              | None => "🔧"
              end).
  intros emoji Hemoji.
  repeat (case_decide; [repeat case_match; by well_marked|]).
  by well_marked.
Qed.

(** The display of the bash command [ls <dir>] is sound markup. *)
Lemma formatToolStatus_well_marked_witness :
  well_marked (Formatting.formatToolStatus "Bash" {[ "command" := "ls <dir>" ]}).
Proof. by apply formatToolStatus_well_marked. Defined.

(** X7.  The display of a tool is never the empty text, whatever the tool's
    name and input. *)
Theorem formatToolStatus_not_empty (toolName : string) (toolInput : tool_input) :
  Formatting.formatToolStatus toolName toolInput <> "".
Proof. apply truthy_true, formatToolStatus_truthy. Qed.

Lemma replace_first_Some (pats : list string) (rep s r : string) :
  Js.replace_first pats rep s = Some r ->
  exists pre p post, p ∈ pats /\ s = pre +:+ p +:+ post /\ r = pre +:+ rep +:+ post.
Proof.
  assert (Hhere : forall s p,
    List.find (Js.startsWith s) pats = Some p ->
    exists post, p ∈ pats /\ s = p +:+ post
                 /\ rep +:+ Js.slice_from (String.length p) s = rep +:+ post).
  { intros s' p Hfind. apply find_some in Hfind as [Hin Hstarts].
    apply startsWith_spec in Hstarts as [post ->]. exists post.
    rewrite slice_from_append. split; [by apply list_elem_of_In | done]. }
  revert r. induction s as [|c s IH]; intros r; cbn [Js.replace_first].
  - destruct (List.find _ pats) as [p|] eqn:Hfind; [|done]. intros [= <-].
    destruct (Hhere _ _ Hfind) as (post & Hin & Hs & Hr).
    exists "", p, post. by rewrite !append_nil_l.
  - destruct (List.find _ pats) as [p|] eqn:Hfind.
    + intros [= <-]. destruct (Hhere _ _ Hfind) as (post & Hin & Hs & Hr).
      exists "", p, post. by rewrite !append_nil_l.
    + destruct (Js.replace_first pats rep s) as [r'|]; [|done]. intros [= <-].
      destruct (IH r' eq_refl) as (pre & p & post & Hin & -> & ->).
      exists (String c pre), p, post. by rewrite !append_cons.
Qed.

Lemma replace_first_None (pats : list string) (rep s : string) :
  Js.replace_first pats rep s = None ->
  forall p, p ∈ pats -> Js.includes s p = false.
Proof.
  induction s as [|c s IH]; cbn [Js.replace_first];
    destruct (List.find _ pats) as [q|] eqn:Hfind; try done.
  - intros _ p Hp. rewrite includes_nil.
    apply (find_none _ _ Hfind). by apply list_elem_of_In.
  - destruct (Js.replace_first pats rep s) as [r'|]; [done|]. intros _ p Hp.
    rewrite includes_cons, (IH eq_refl p Hp), orb_false_r.
    apply (find_none _ _ Hfind). by apply list_elem_of_In.
Qed.

Lemma formatToolDone_go_shape (rs : list (list string * string)) (toolStatus : string) :
  (exists pats replacement pre p post,
      (pats, replacement) ∈ rs /\ p ∈ pats
      /\ toolStatus = pre +:+ p +:+ post
      /\ Formatting.formatToolDone_go rs toolStatus = pre +:+ replacement +:+ post)
  \/ ((forall pats replacement p,
          (pats, replacement) ∈ rs -> p ∈ pats -> Js.includes toolStatus p = false)
      /\ Formatting.formatToolDone_go rs toolStatus = "✅ " +:+ toolStatus).
Proof.
  induction rs as [|[pats replacement] rs IH]; cbn [Formatting.formatToolDone_go].
  - right. split; [|done]. intros pats replacement p Hin. by apply elem_of_nil in Hin.
  - destruct (Js.replace_first pats replacement toolStatus) as [r|] eqn:Hfirst.
    + left. apply replace_first_Some in Hfirst as (pre & p & post & Hp & Hs & Hr).
      exists pats, replacement, pre, p, post. split; [by left | done].
    + destruct IH as [(pats' & rep' & pre & p & post & Hin & Hp & Hs & Hr) | [Hnone Hr]].
      * left. exists pats', rep', pre, p, post. split; [by right | done].
      * right. split; [|done]. intros pats' rep' p Hin Hp.
        apply elem_of_cons in Hin as [[= -> ->] | Hin].
        -- by apply (replace_first_None _ _ _ Hfirst).
        -- by apply (Hnone pats' rep').
Qed.

(** X8.  The display of a tool that is done.  It is the display of the tool
    with one occurrence of one of the verb patterns replaced by its done
    form, all the text before and after kept as it is; when no pattern
    occurs, it is the display behind a check mark.  So it always holds the
    check mark. *)
Theorem formatToolDoneStatus_shape (toolStatus : string) :
  ((exists pats replacement pre p post,
       (pats, replacement) ∈ Formatting.replacements /\ p ∈ pats
       /\ toolStatus = pre +:+ p +:+ post
       /\ Formatting.formatToolDoneStatus toolStatus = pre +:+ replacement +:+ post)
   \/ ((forall pats replacement p,
           (pats, replacement) ∈ Formatting.replacements -> p ∈ pats ->
           Js.includes toolStatus p = false)
       /\ Formatting.formatToolDoneStatus toolStatus = "✅ " +:+ toolStatus))
  /\ Js.includes (Formatting.formatToolDoneStatus toolStatus) "✅" = true.
Proof.
  pose proof (formatToolDone_go_shape Formatting.replacements toolStatus) as Hshape.
  split; [exact Hshape|]. apply includes_spec.
  destruct Hshape as [(pats & rep & pre & p & post & Hin & _ & _ & Hr) | [_ Hr]];
    unfold Formatting.formatToolDoneStatus; rewrite Hr.
  - assert (Hmark : exists tail, rep = "✅" +:+ tail).
    { unfold Formatting.replacements in Hin.
      repeat (apply elem_of_cons in Hin as [[= _ ->] | Hin]; [by eexists|]).
      by apply elem_of_nil in Hin. }
    destruct Hmark as [tail ->]. exists pre, (tail +:+ post). by rewrite !append_assoc.
  - exists "", (" " +:+ toolStatus). done.
Qed.

(** ** What a call leaves alone *)

Lemma keeps_try_catch (I : World -> Prop) {A} (body : M A) (handler : JsError -> M A) :
  keeps I body -> (forall e, keeps I (handler e)) -> keeps I (try_catch body handler).
Proof.
  intros Hbody Hhandler w Hw. unfold try_catch. specialize (Hbody w Hw).
  destruct (body w) as [[a|e] w1]; cbn [snd] in *; [done | by apply Hhandler].
Qed.

Lemma keeps_try_finally (I : World -> Prop) {A} (body : M A) (fin : M unit) :
  keeps I body -> keeps I fin -> keeps I (try_finally body fin).
Proof.
  intros Hbody Hfin w Hw. unfold try_finally. specialize (Hbody w Hw).
  destruct (body w) as [r w1]; cbn [snd] in *. specialize (Hfin w1 Hbody).
  by destruct (fin w1) as [[[]|e] w2].
Qed.

Lemma onEvent_eventBody (cfg : Config) (chatId : option Z) (ctx : bool) (e : event) :
  onEvent cfg chatId ctx e =
  (s ← get_session;
   if stopRequested s then mret break
   else captureSessionId cfg e ;; eventBody cfg chatId ctx e).
Proof. reflexivity. Qed.

(** A property of worlds that the primitives of the loop keep is kept by
    the loop, given that the capture of the session id keeps it. *)
Section LoopFrame.

Variable I : World -> Prop.
Variable cfg : Config.
Variable chatId : option Z.
Variable ctx : bool.

Hypothesis I_locals : forall f w, I w -> I (on_locals f w).
Hypothesis I_calls : forall f w, I w -> I (on_calls f w).
Hypothesis I_tick : forall w, I w -> I (tick w).
Hypothesis I_poll : forall w, I w -> I (poll w).
Hypothesis I_currentTool : forall v w, I w -> I (on_session (set_currentTool v) w).
Hypothesis I_lastTool : forall v w, I w -> I (on_session (set_lastTool v) w).
Hypothesis I_lastUsage : forall v w, I w -> I (on_session (set_lastUsage v) w).
Hypothesis I_stopRequested : forall w, I w -> I (on_session (set_stopRequested true) w).
Hypothesis I_abort : forall w, I w -> I (on_session abort w).

Lemma frame_update_locals (f : Locals -> Locals) : keeps I (update_locals f).
Proof. intros w Hw. by apply I_locals. Qed.

Lemma frame_statusCallback (aw : bool) (k : kind) (text : string) (seg : option nat)
  (tid : option string) : keeps I (statusCallback aw k text seg tid).
Proof. intros w Hw. by apply I_calls. Qed.

Lemma frame_Date_now : keeps I Date_now.
Proof. intros w Hw. by apply I_tick. Qed.

Lemma frame_poll : keeps I checkPendingAskUserRequests.
Proof. intros w Hw. by apply I_poll. Qed.

Lemma frame_currentTool v : keeps I (update_session (set_currentTool v)).
Proof. intros w Hw. by apply I_currentTool. Qed.

Lemma frame_lastTool v : keeps I (update_session (set_lastTool v)).
Proof. intros w Hw. by apply I_lastTool. Qed.

Lemma frame_lastUsage v : keeps I (update_session (set_lastUsage v)).
Proof. intros w Hw. by apply I_lastUsage. Qed.

Lemma frame_stopRequested : keeps I (update_session (set_stopRequested true)).
Proof. intros w Hw. by apply I_stopRequested. Qed.

Lemma frame_abort : keeps I (update_session abort).
Proof. intros w Hw. by apply I_abort. Qed.

Ltac frame_step :=
  first
    [ apply frame_update_locals | apply frame_statusCallback | apply frame_Date_now
    | apply frame_poll | apply frame_currentTool | apply frame_lastTool
    | apply frame_lastUsage | apply frame_stopRequested | apply frame_abort
    | keeps_struct ].

Lemma frame_pollAskUser (attempts : nat) : keeps I (pollAskUser attempts).
Proof. induction attempts as [|n IH]; cbn [pollAskUser]; repeat frame_step. done. Qed.

Lemma frame_toolUseBlock (toolName : string) (toolInput : tool_input)
  (toolUseId : option string) :
  keeps I (toolUseBlock cfg chatId ctx toolName toolInput toolUseId).
Proof.
  unfold toolUseBlock, checkBash, checkFile, closeSegment.
  repeat first [apply frame_pollAskUser | frame_step].
Qed.

Lemma frame_assistantBlock (b : block) : keeps I (assistantBlock cfg chatId ctx b).
Proof.
  destruct b; cbn [assistantBlock]; try apply keeps_skip.
  - unfold thinkingBlock. repeat frame_step.
  - apply frame_toolUseBlock.
  - unfold textBlock. repeat frame_step.
Qed.

Lemma frame_userBlock (b : block) : keeps I (userBlock cfg b).
Proof.
  destruct b; cbn [userBlock]; try apply keeps_skip.
  unfold toolResultBlock. repeat frame_step.
Qed.

Lemma frame_eventBody (e : event) : keeps I (eventBody cfg chatId ctx e).
Proof.
  unfold eventBody.
  repeat first [apply frame_assistantBlock | apply frame_userBlock | frame_step].
Qed.

Lemma frame_stop : keeps I stop.
Proof. unfold stop. repeat frame_step. Qed.

Lemma frame_inactivityTimeout : keeps I inactivityTimeout.
Proof. unfold inactivityTimeout. repeat frame_step. Qed.

Hypothesis I_capture : forall e, keeps I (captureSessionId cfg e).

Lemma frame_onEvent (e : event) : keeps I (onEvent cfg chatId ctx e).
Proof.
  rewrite onEvent_eventBody.
  repeat first [apply I_capture | apply frame_eventBody | frame_step].
Qed.

Lemma frame_consume (items : list arrival) : keeps I (consume cfg chatId ctx items).
Proof.
  induction items as [|[e| |] items IH]; cbn [consume];
    repeat first
      [ apply frame_onEvent | apply frame_stop | apply frame_inactivityTimeout
      | apply IH | frame_step ].
Qed.

Lemma frame_forAwait (str : stream) : keeps I (forAwait cfg chatId ctx str).
Proof. intros w Hw. rewrite forAwait_world. by apply frame_consume. Qed.

End LoopFrame.

(** The same for a whole call, from its parts. *)
Lemma frame_send (I : World -> Prop) (cfg : Config) (message : string)
  (chatId : option Z) (ctx : bool) (str : stream) :
  keeps I (preamble cfg message) -> keeps I begin -> (forall q, keeps I (query q)) ->
  keeps I (forAwait cfg chatId ctx str) -> (forall e, keeps I (onError e)) ->
  keeps I cleanup -> keeps I recordActivity -> keeps I assemble ->
  keeps I (sendMessageStreaming cfg message chatId ctx str).
Proof.
  intros Hpreamble Hbegin Hquery Hloop Herror Hcleanup Hactivity Hassemble.
  unfold sendMessageStreaming.
  repeat first
    [ assumption | apply Hquery | apply Herror
    | apply keeps_try_finally | apply keeps_try_catch | keeps_struct ].
Qed.

(** ** The ways a call ends *)

Lemma enter_returns (cfg : Config) (message : string) (w : World) :
  stopRequested (session w) = false ->
  exists w0, enter cfg message w = (Returns (), w0).
Proof.
  intros Hstop. unfold enter, preamble, begin. run.
  destruct (isActive (session w)); cbn [negb]; run;
    destruct (truthy_opt (sessionId (session w))); cbn [andb negb]; run;
    rewrite Hstop; by eexists.
Qed.

Lemma send_cases (cfg : Config) (message : string) (chatId : option Z) (ctx : bool)
  (str : stream) (w : World) :
  (exists w',
      stopRequested (session w) = true
      /\ enter cfg message w = (Throws (Error "Query cancelled"), w')
      /\ sendMessageStreaming cfg message chatId ctx str w
         = (Throws (Error "Query cancelled"), w'))
  \/ (exists w0 o w1,
        stopRequested (session w) = false
        /\ enter cfg message w = (Returns (), w0)
        /\ forAwait cfg chatId ctx str w0 = (o, w1)
        /\ ((match o with
             | Returns _ => True
             | Throws e => isSuppressed e (session w1) (locals w1) = true
             end
             /\ sendMessageStreaming cfg message chatId ctx str w = assemble (leave w1))
            \/ (exists e,
                  o = Throws e
                  /\ isSuppressed e (session w1) (locals w1) = false
                  /\ sendMessageStreaming cfg message chatId ctx str w
                     = (Throws e, fail_with e w1)))).
Proof.
  destruct (stopRequested (session w)) eqn:Hstop.
  - left. destruct (enter_throws cfg message w Hstop) as (w' & Henter & _).
    exists w'. split; [done|]. split; [done|]. by apply send_enter_throws.
  - right. destruct (enter_returns cfg message w Hstop) as [w0 Henter].
    destruct (forAwait cfg chatId ctx str w0) as [o w1] eqn:Hloop.
    exists w0, o, w1. split; [done|]. split; [done|]. split; [done|].
    destruct o as [[]|e].
    + left. split; [done|]. by eapply send_left.
    + destruct (isSuppressed e (session w1) (locals w1)) eqn:Hsup.
      * left. split; [done|]. by eapply send_left.
      * right. exists e. split; [done|]. split; [done|]. by eapply send_failed.
Qed.

(** ** The session around a call *)

(** Discharges the side conditions of the frame lemmas for a property that
    is an equation between fields. *)
Ltac field_frame I :=
  try solve [intros; unfold I, handler_fields in *; wsimpl; done].

Lemma same_handler_fields_loop (s0 : ClaudeSession) (cfg : Config) (chatId : option Z)
  (ctx : bool) (str : stream) :
  keeps (same_handler_fields s0) (forAwait cfg chatId ctx str).
Proof.
  apply frame_forAwait; field_frame same_handler_fields.
  intros e. unfold captureSessionId, saveSession. keeps_frame same_handler_fields.
Qed.

Lemma same_handler_fields_send (s0 : ClaudeSession) (cfg : Config) (message : string)
  (chatId : option Z) (ctx : bool) (str : stream) :
  keeps (same_handler_fields s0) (sendMessageStreaming cfg message chatId ctx str).
Proof.
  apply frame_send; [| | | apply same_handler_fields_loop | | | |].
  - unfold preamble. keeps_frame same_handler_fields.
  - unfold begin. keeps_frame same_handler_fields.
  - intros q. keeps_frame same_handler_fields.
  - intros e. unfold onError. keeps_frame same_handler_fields.
  - unfold cleanup. keeps_frame same_handler_fields.
  - unfold recordActivity. keeps_frame same_handler_fields.
  - unfold assemble. keeps_frame same_handler_fields.
Qed.

Lemma leave_released (w : World) : released (session (leave w)).
Proof. unfold leave, cleanup, recordActivity. run. by repeat split. Qed.

Lemma fail_with_released (e : JsError) (w : World) : released (session (fail_with e w)).
Proof. unfold fail_with, cleanup. run. by repeat split. Qed.

(** X9.  Whatever the stream and however the call ends, a call of
    [sendMessageStreaming] leaves the fields of the handlers as they were:
    the processing flag, the interrupt flag and the title.  And a call that
    finds no stop pending leaves the session released: no query runs, there
    is no cancellation token, no query start and no current tool, so that
    [isRunning] is then the processing flag alone. *)
Theorem send_releases_session (cfg : Config) (message : string) (chatId : option Z)
  (ctx : bool) (str : stream) (w : World) :
  handler_fields (session (sendMessageStreaming cfg message chatId ctx str w).2)
  = handler_fields (session w)
  /\ (stopRequested (session w) = false ->
      released (session (sendMessageStreaming cfg message chatId ctx str w).2)
      /\ isRunning (session (sendMessageStreaming cfg message chatId ctx str w).2)
         = _isProcessing (session w)).
Proof.
  pose proof (same_handler_fields_send (session w) cfg message chatId ctx str w eq_refl)
    as Hfields.
  split; [exact Hfields|]. intros Hstop.
  assert (Hreleased :
    released (session (sendMessageStreaming cfg message chatId ctx str w).2)).
  { destruct (send_cases cfg message chatId ctx str w)
      as [(w' & Hstop' & _) | (w0 & o & w1 & _ & _ & _ & [[_ ->] | (e & _ & _ & ->)])].
    - congruence.
    - destruct (assemble_world (leave w1)) as (_ & _ & -> & _). apply leave_released.
    - apply fail_with_released. }
  split; [done|]. unfold isRunning. destruct Hreleased as (-> & _).
  unfold same_handler_fields, handler_fields in Hfields. by injection Hfields as ->.
Qed.

(** The sample call around a file read leaves the session released. *)
Lemma send_releases_session_witness :
  released (session (sendMessageStreaming Sample.cfg "hello" (Some 7) true
                       Sample.tool_stream Sample.world).2).
Proof.
  destruct (send_releases_session Sample.cfg "hello" (Some 7) true Sample.tool_stream
              Sample.world) as [_ Hreleased].
  by destruct (Hreleased eq_refl) as [Hr _].
Defined.

Lemma same_activity_loop (a : option Z) (cfg : Config) (chatId : option Z)
  (ctx : bool) (str : stream) :
  keeps (same_activity a) (forAwait cfg chatId ctx str).
Proof.
  apply frame_forAwait; field_frame same_activity.
  intros e. unfold captureSessionId, saveSession. keeps_frame same_activity.
Qed.

Lemma same_activity_enter (a : option Z) (cfg : Config) (message : string) :
  keeps (same_activity a) (enter cfg message).
Proof. unfold enter, preamble, begin. keeps_frame same_activity. Qed.

(** X10.  What a call records of its outcome.  When it returns, the last
    error and its time are cleared and the time of the last activity is
    set.  When it fails, the time of the last activity is what it was. *)
Theorem send_records_outcome (cfg : Config) (message : string) (chatId : option Z)
  (ctx : bool) (str : stream) (w : World) :
  (forall r w',
      sendMessageStreaming cfg message chatId ctx str w = (Returns r, w') ->
      lastError (session w') = None /\ lastErrorTime (session w') = None
      /\ is_Some (lastActivity (session w')))
  /\ (forall e w',
        sendMessageStreaming cfg message chatId ctx str w = (Throws e, w') ->
        lastActivity (session w') = lastActivity (session w)).
Proof.
  pose proof (same_activity_enter (lastActivity (session w)) cfg message w eq_refl)
    as Henter.
  destruct (send_cases cfg message chatId ctx str w)
    as [(w1 & _ & Hent & ->) | (w0 & o & w1 & _ & Hent & Hloop & [[_ ->] | (e1 & _ & _ & ->)])].
  - split; [done|]. intros e w' [= _ <-]. by rewrite Hent in Henter.
  - split; [|intros e w'; destruct (assemble_world (leave w1)) as (_ & _ & _ & _ & r & Hr);
              destruct (assemble (leave w1)) as [o' w2]; cbn in Hr; by intros [= -> _]].
    intros r w' Hsend.
    destruct (assemble_world (leave w1)) as (_ & _ & Hsession & _).
    rewrite Hsend in Hsession. cbn [snd] in Hsession. rewrite Hsession.
    unfold leave, cleanup, recordActivity. run. by repeat split.
  - split; [done|]. intros e w' [= _ <-].
    rewrite Hent in Henter. cbn [snd] in Henter.
    pose proof (same_activity_loop _ cfg chatId ctx str w0 Henter) as Hw1.
    rewrite Hloop in Hw1. cbn [snd] in Hw1.
    unfold same_activity in Hw1. rewrite <- Hw1. unfold fail_with, cleanup. by run.
Qed.

(** ** The reply *)

Lemma assemble_reply (w : World) : (assemble w).1 = Returns (reply_of (locals w)).
Proof.
  unfold assemble, reply_of. run.
  destruct (askUserTriggered (locals w)); run; [done|].
  destruct (Js.truthy (currentSegmentText (locals w))); run;
    by destruct (timedOut (locals w)).
Qed.

Lemma reply_of_not_empty (l : Locals) : reply_of l <> "".
Proof.
  unfold reply_of. cbv zeta. destruct (askUserTriggered l); [done|].
  destruct (timedOut l).
  - destruct (Js.truthy _) eqn:Hp; [|done].
    apply truthy_true. by apply truthy_app.
  - unfold Js.or_else. destruct (Js.truthy _) eqn:Hp; [by apply truthy_true | done].
Qed.

(** X11.  The reply of a call that returns is never the empty text.  It is
    the waiting note when an ask-user interaction was triggered; else the
    text gathered, followed by the timeout notice when the timer fired; and
    the text [No response from Claude.] when no text was gathered and the
    timer did not fire. *)
Theorem reply_never_empty (cfg : Config) (message : string) (chatId : option Z)
  (ctx : bool) (str : stream) (w w' : World) (r : string) :
  sendMessageStreaming cfg message chatId ctx str w = (Returns r, w') ->
  r <> "" /\ r = reply_of (locals w').
Proof.
  intros Hsend.
  assert (Hr : r = reply_of (locals w')).
  { destruct (send_cases cfg message chatId ctx str w)
      as [(w1 & _ & _ & Hs) | (w0 & o & w1 & _ & _ & _ & [[_ Hs] | (e1 & _ & _ & Hs)])];
      rewrite Hs in Hsend; try done.
    pose proof (assemble_reply (leave w1)) as Hreply.
    destruct (assemble_world (leave w1)) as (_ & Hlocals & _).
    rewrite Hsend in Hreply, Hlocals. cbn [fst snd] in *.
    rewrite Hlocals. congruence. }
  split; [|done]. rewrite Hr. apply reply_of_not_empty.
Qed.

(** The sample call around a file read returns the two texts of the reply,
    one after the other. *)
Lemma reply_never_empty_witness :
  "Let me read the file you mentioned.The file holds three lines of notes."
  = reply_of (locals (sendMessageStreaming Sample.cfg "hello" (Some 7) true
                        Sample.tool_stream Sample.world).2).
Proof.
  refine (proj2 (reply_never_empty Sample.cfg "hello" (Some 7) true Sample.tool_stream
                   Sample.world _ _ _)).
  by vm_compute.
Defined.

(** ** Resumed and fresh sessions *)

Lemma resumed_capture (id : string) (file : option (list SavedSession))
  (qs : list QueryRequest) (cfg : Config) (e : event) :
  Js.truthy id = true -> keeps (resumed id file qs) (captureSessionId cfg e).
Proof.
  intros Hid w (Hs & Hf & Hq). unfold captureSessionId. run.
  rewrite Hs. cbn [truthy_opt]. rewrite Hid. done.
Qed.

Lemma resumed_loop (id : string) (file : option (list SavedSession))
  (qs : list QueryRequest) (cfg : Config) (chatId : option Z) (ctx : bool)
  (str : stream) :
  Js.truthy id = true -> keeps (resumed id file qs) (forAwait cfg chatId ctx str).
Proof.
  intros Hid. apply frame_forAwait; field_frame resumed.
  intros e. by apply resumed_capture.
Qed.

Lemma resumed_leave (id : string) (file : option (list SavedSession))
  (qs : list QueryRequest) (w : World) :
  resumed id file qs w -> resumed id file qs (assemble (leave w)).2.
Proof.
  intros Hw. destruct (assemble_world (leave w)) as (_ & _ & Hs & Hf & _).
  unfold resumed. rewrite Hs, Hf.
  assert (Hq : queries (assemble (leave w)).2 = queries (leave w)).
  { unfold assemble. run. destruct (askUserTriggered _); run; [done|].
    destruct (Js.truthy (currentSegmentText _)); run; by destruct (timedOut _). }
  rewrite Hq. revert Hw. unfold resumed, leave, cleanup, recordActivity. by run.
Qed.

Lemma resumed_fail_with (id : string) (file : option (list SavedSession))
  (qs : list QueryRequest) (e : JsError) (w : World) :
  resumed id file qs w -> resumed id file qs (fail_with e w).
Proof. unfold resumed, fail_with, cleanup. by run. Qed.

(** X12.  A call on a session that has an id resumes it and leaves it as it
    is.  Whatever the stream and however the call ends, the session id and
    the session file are afterwards what they were; and unless a stop was
    pending, exactly one query is made: it resumes the session id and its
    prompt is the message as given, without a date. *)
Theorem resumed_session_is_kept (cfg : Config) (message : string) (chatId : option Z)
  (ctx : bool) (str : stream) (w : World) (id : string) :
  sessionId (session w) = Some id -> Js.truthy id = true ->
  sessionId (session (sendMessageStreaming cfg message chatId ctx str w).2) = Some id
  /\ sessionFile (sendMessageStreaming cfg message chatId ctx str w).2 = sessionFile w
  /\ queries (sendMessageStreaming cfg message chatId ctx str w).2
     = queries w ++
       (if stopRequested (session w) then []
        else [ {| prompt := message;
                  maxThinkingTokens := getThinkingLevel cfg message;
                  resume := Some id |} ]).
Proof.
  intros Hs Hid.
  set (q := {| prompt := message; maxThinkingTokens := getThinkingLevel cfg message;
               resume := Some id |}).
  assert (Henter : resumed id (sessionFile w)
                     (queries w ++ if stopRequested (session w) then [] else [q])
                     (enter cfg message w).2).
  { unfold resumed, enter, preamble, begin, isActive. run. rewrite Hs.
    cbn [negb truthy_opt]. rewrite Hid. cbn [andb negb]. run.
    destruct (stopRequested (session w)); run; by rewrite ?app_nil_r. }
  destruct (send_cases cfg message chatId ctx str w)
    as [(w1 & Hstop & Hent & ->) | (w0 & o & w1 & Hstop & Hent & Hloop & Hend)];
    rewrite Hstop in *; rewrite Hent in Henter; cbn [snd] in Henter.
  - exact Henter.
  - pose proof (resumed_loop id _ _ cfg chatId ctx str Hid w0 Henter) as Hw1.
    rewrite Hloop in Hw1. cbn [snd] in Hw1.
    destruct Hend as [[_ ->] | (e & _ & _ & ->)].
    + by apply resumed_leave.
    + by apply resumed_fail_with.
Qed.

(** The second session of the sample file, resumed: a call leaves the file
    as it is. *)
Lemma resumed_session_is_kept_witness :
  sessionFile (sendMessageStreaming Sample.cfg "hello" (Some 7) true Sample.tool_stream
                 Sample.resumed_world).2
  = Some Sample.two_sessions.
Proof.
  destruct (resumed_session_is_kept Sample.cfg "hello" (Some 7) true Sample.tool_stream
              Sample.resumed_world "sess-b") as (_ & Hfile & _); [done | done |].
  exact Hfile.
Defined.

Lemma resumed_eventBody (id : string) (file : option (list SavedSession))
  (qs : list QueryRequest) (cfg : Config) (chatId : option Z) (ctx : bool) (e : event) :
  keeps (resumed id file qs) (eventBody cfg chatId ctx e).
Proof. apply frame_eventBody; field_frame resumed. Qed.

Lemma resumed_consume (id : string) (file : option (list SavedSession))
  (qs : list QueryRequest) (cfg : Config) (chatId : option Z) (ctx : bool)
  (items : list arrival) :
  Js.truthy id = true -> keeps (resumed id file qs) (consume cfg chatId ctx items).
Proof.
  intros Hid. apply frame_consume; field_frame resumed.
  intros e. by apply resumed_capture.
Qed.

Lemma enter_fresh (cfg : Config) (message : string) (w : World) :
  sessionId (session w) = None -> stopRequested (session w) = false ->
  exists w0,
    enter cfg message w = (Returns (), w0)
    /\ sessionId (session w0) = None
    /\ stopRequested (session w0) = false
    /\ conversationTitle (session w0) = conversationTitle (session w)
    /\ sessionFile w0 = sessionFile w
    /\ clock w0 = clock w /\ ticks w0 = S (S (ticks w))
    /\ queries w0 = queries w ++
         [ {| prompt := "[Current date/time: "
                        +:+ toLocaleDateString cfg (clock w (ticks w))
                        +:+ "]" +:+ Js.nlnl +:+ message;
              maxThinkingTokens := getThinkingLevel cfg message;
              resume := None |} ].
Proof.
  intros Hs Hstop. unfold enter, preamble, begin, isActive. run.
  rewrite Hs. cbn [negb truthy_opt andb]. run. rewrite Hstop. run.
  eexists. split; [reflexivity|]. by repeat split.
Qed.

Lemma captureSessionId_fresh (cfg : Config) (e : event) (w : World) (id : string) :
  sessionId (session w) = None -> ev_session_id e = Some id -> Js.truthy id = true ->
  exists wc,
    captureSessionId cfg e w = (Returns (), wc)
    /\ resumed id
         (Some (upsert {| session_id := id;
                          saved_at := toISOString cfg (clock w (ticks w));
                          working_dir := WORKING_DIR cfg;
                          title := Js.or_else (default "" (conversationTitle (session w)))
                                     "Sessione senza titolo" |}
                  (persisted w)))
         (queries w) wc.
Proof.
  intros Hs He Hid. unfold captureSessionId, saveSession. run.
  rewrite Hs, He. cbn [negb truthy_opt andb]. rewrite Hid. run.
  eexists. split; [reflexivity|]. by unfold resumed.
Qed.

(** X13.  A call on a session without an id starts a new one.  Unless a
    stop is pending, its query resumes nothing and its prompt is the message
    behind the current date.  The session id of the first event, when that
    event carries one, becomes the id of the session and is saved to the
    session file at once, under the title of the session or, without one,
    under [Sessione senza titolo]; and whatever follows in the stream and
    however the call ends, the session id and the session file then stay as
    they are. *)
Theorem fresh_session_is_captured (cfg : Config) (message : string) (chatId : option Z)
  (ctx : bool) (e : event) (rest : list arrival) (ending : stream_end) (w : World)
  (id : string) :
  sessionId (session w) = None -> stopRequested (session w) = false ->
  ev_session_id e = Some id -> Js.truthy id = true ->
  let w' := (sendMessageStreaming cfg message chatId ctx
               {| arrivals := Yields e :: rest; ending := ending |} w).2 in
  sessionId (session w') = Some id
  /\ (exists r,
         sessionFile w' = Some (upsert r (persisted w))
         /\ session_id r = id /\ working_dir r = WORKING_DIR cfg
         /\ title r = Js.or_else (default "" (conversationTitle (session w)))
                        "Sessione senza titolo")
  /\ queries w' = queries w ++
       [ {| prompt := "[Current date/time: " +:+ toLocaleDateString cfg (clock w (ticks w))
                      +:+ "]" +:+ Js.nlnl +:+ message;
            maxThinkingTokens := getThinkingLevel cfg message;
            resume := None |} ].
Proof.
  intros Hs Hstop He Hid.
  set (str := {| arrivals := Yields e :: rest; ending := ending |}).
  cbv zeta.
  destruct (enter_fresh cfg message w Hs Hstop)
    as (w0 & Hent & Hs0 & Hstop0 & Htitle & Hfile & Hclock & Hticks & Hqs).
  destruct (captureSessionId_fresh cfg e w0 id Hs0 He Hid) as (wc & Hcap & Hwc).
  rewrite Htitle, Hclock, Hticks, Hqs in Hwc.
  replace (persisted w0) with (persisted w) in Hwc by (unfold persisted; by rewrite Hfile).
  match type of Hwc with resumed _ (Some (upsert ?r0 _)) ?qs0 _ =>
    set (r := r0) in *; set (qs := qs0) in * end.
  assert (Hgoal : resumed id (Some (upsert r (persisted w))) qs
                    (sendMessageStreaming cfg message chatId ctx str w).2).
  { destruct (send_cases cfg message chatId ctx str w)
      as [(w1 & Hstop' & _) | (w0' & o & w1 & _ & Hent' & Hloop & Hend)]; [congruence|].
    assert (w0' = w0) as -> by congruence.
    assert (Hevent : resumed id (Some (upsert r (persisted w))) qs
                       (onEvent cfg chatId ctx e w0).2).
    { rewrite onEvent_eventBody, bind_run. unfold get_session at 1. cbv beta iota.
      rewrite Hstop0, bind_run, Hcap. by apply resumed_eventBody. }
    assert (Hw1 : resumed id (Some (upsert r (persisted w))) qs w1).
    { pose proof (forAwait_world cfg chatId ctx str w0) as Hworld.
      rewrite Hloop in Hworld. cbn [snd] in Hworld. rewrite Hworld.
      unfold str. cbn [arrivals consume]. rewrite bind_run.
      destruct (onEvent cfg chatId ctx e w0) as [[[]|err] wb]; cbn [snd] in *; try done.
      by apply resumed_consume. }
    destruct Hend as [[_ ->] | (err & _ & _ & ->)].
    - by apply resumed_leave.
    - by apply resumed_fail_with. }
  destruct Hgoal as (Hsid & Hfile' & Hqs').
  split; [done|]. split; [|done]. by exists r.
Qed.

(** The sample call around a file read starts the session [sess-1]. *)
Lemma fresh_session_is_captured_witness :
  sessionId (session (sendMessageStreaming Sample.cfg "hello" (Some 7) true
                        Sample.tool_stream Sample.world).2)
  = Some "sess-1".
Proof.
  exact (proj1 (fresh_session_is_captured Sample.cfg "hello" (Some 7) true
                  {| ev_session_id := Some "sess-1";
                     ev_body := Assistant [Text "Let me read the file you mentioned."] |}
                  (tail (arrivals Sample.tool_stream)) Completes Sample.world "sess-1"
                  eq_refl eq_refl eq_refl eq_refl)).
Defined.

(** ** The reply to a calm stream *)

Lemma gathers_ret {A} (a : A) : gathers (mret a : M A) [] a.
Proof. intros w Hw. exists w. by rewrite app_nil_r. Qed.

Lemma gathers_bind {A B} (m : M A) (f : A -> M B) (t1 t2 : list string) (a : A) (b : B) :
  gathers m t1 a -> gathers (f a) t2 b -> gathers (m ≫= f) (t1 ++ t2) b.
Proof.
  intros Hm Hf w Hw. destruct (Hm w Hw) as (w1 & Hrun1 & Hw1 & Hparts1).
  destruct (Hf w1 Hw1) as (w2 & Hrun2 & Hw2 & Hparts2).
  exists w2. rewrite bind_run, Hrun1. split; [done|]. split; [done|].
  by rewrite Hparts2, Hparts1, app_assoc.
Qed.

Lemma gathers_for_of {A} (f : A -> M unit) (texts : A -> list string) (xs : list A) :
  (forall x, x ∈ xs -> gathers (f x) (texts x) ()) ->
  gathers (for_of f xs) (concat (texts <$> xs)) ().
Proof.
  induction xs as [|x xs IH]; intros Hf; cbn [for_of fmap list_fmap concat].
  - apply gathers_ret.
  - eapply gathers_bind; [apply Hf; by left|]. apply IH. intros y Hy. apply Hf. by right.
Qed.

(** Ends the proof that straight-line code gathers some texts, once the
    code has been run. *)
Ltac gathered :=
  eexists; split; [reflexivity|]; unfold steady; wsimpl; split; [by repeat split|];
  rewrite ?app_nil_r; done.

Lemma gathers_thinkingBlock (thinkingText : string) :
  gathers (thinkingBlock thinkingText) [] ().
Proof.
  intros w (Hstop & Hask & Htimer). unfold thinkingBlock.
  destruct (Js.truthy thinkingText); run; gathered.
Qed.

Lemma gathers_textBlock (cfg : Config) (text : string) :
  gathers (textBlock cfg text) [text] ().
Proof.
  intros w (Hstop & Hask & Htimer). unfold textBlock. run.
  destruct (_ && _); run; gathered.
Qed.

Lemma gathers_checks (cfg : Config) (toolName : string) (toolInput : tool_input)
  (w : World) :
  passes cfg toolName toolInput ->
  (checkBash cfg toolName toolInput ;; checkFile cfg toolName toolInput) w
  = (Returns (), w).
Proof.
  intros [Hbash Hfile]. unfold checkBash, checkFile. rewrite bind_run.
  assert (Hb : (if bool_decide (toolName = "Bash")
                then let (isSafe, reason) :=
                       checkCommandSafety cfg (field_or toolInput "command" "") in
                     if negb isSafe
                     then statusCallback awaiting tool_k ("BLOCKED: " +:+ reason) None None ;;
                          throw (A := unit) (Error ("Unsafe command blocked: " +:+ reason))
                     else skip
                else skip) w = (Returns (), w)).
  { case_bool_decide as Hname; [|done]. specialize (Hbash Hname).
    by destruct (checkCommandSafety cfg _) as [[] reason]. }
  rewrite Hb. clear Hb Hbash. cbv beta iota. case_bool_decide as Hname; [|done].
  destruct (Js.truthy _) eqn:Hpath; [|done].
  specialize (Hfile Hname eq_refl). apply orb_true_iff in Hfile.
  destruct (isTmpRead cfg toolName _), (isPathAllowed cfg _); try done.
  by destruct Hfile.
Qed.

Lemma gathers_toolUseBlock (cfg : Config) (chatId : option Z) (ctx : bool)
  (toolName : string) (toolInput : tool_input) (toolUseId : option string) :
  passes cfg toolName toolInput -> Js.startsWith toolName "mcp__ask-user" = false ->
  gathers (toolUseBlock cfg chatId ctx toolName toolInput toolUseId) [] ().
Proof.
  intros Hpass Hask w (Hstop & Hasked & Htimer). unfold toolUseBlock.
  pose proof (gathers_checks cfg toolName toolInput w Hpass) as Hchecks.
  rewrite bind_run in Hchecks. rewrite bind_run.
  destruct (checkBash cfg toolName toolInput w) as [[[]|e] wb]; [|done].
  rewrite bind_run, Hchecks. rewrite Hask. cbn [negb andb].
  unfold closeSegment. run.
  destruct (Js.truthy (currentSegmentText (locals w))); run;
    destruct toolUseId as [i|]; run; try destruct (Js.truthy i); run; gathered.
Qed.

Lemma gathers_assistantBlock (cfg : Config) (chatId : option Z) (ctx : bool) (b : block) :
  calm_block cfg b ->
  gathers (assistantBlock cfg chatId ctx b) (texts_of [b]) ().
Proof.
  destruct b as [t|n i o|t|i e c|t]; cbn [assistantBlock calm_block]; intros Hcalm.
  - apply gathers_thinkingBlock.
  - destruct Hcalm. by apply gathers_toolUseBlock.
  - apply gathers_textBlock.
  - apply gathers_ret.
  - apply gathers_ret.
Qed.

Lemma gathers_userBlock (cfg : Config) (b : block) : gathers (userBlock cfg b) [] ().
Proof.
  destruct b as [t|n i o|t|[i|] e c|t]; cbn [userBlock]; try apply gathers_ret.
  intros w (Hstop & Hask & Htimer). unfold toolResultBlock. run.
  destruct (Js.truthy i); run; [|gathered].
  destruct (pendingTools (locals w) !! i) as [d|]; run; [|gathered].
  destruct (Js.truthy d); run; gathered.
Qed.

Lemma gathers_captureSessionId (cfg : Config) (e : event) :
  gathers (captureSessionId cfg e) [] ().
Proof.
  intros w (Hstop & Hask & Htimer). unfold captureSessionId, saveSession. run.
  destruct (_ && _); run; [|gathered].
  destruct (truthy_opt (ev_session_id e)); run; gathered.
Qed.

Lemma texts_of_concat (content : list block) :
  concat ((fun b => texts_of [b]) <$> content) = texts_of content.
Proof.
  induction content as [|b content IH]; [done|].
  cbn [fmap list_fmap concat]. rewrite IH. by destruct b.
Qed.

Lemma gathers_onEvent (cfg : Config) (chatId : option Z) (ctx : bool) (e : event) :
  calm cfg e -> gathers (onEvent cfg chatId ctx e) (event_texts e) next_event.
Proof.
  intros Hcalm w Hw. rewrite onEvent_eventBody, bind_run.
  unfold get_session at 1. cbv beta iota.
  destruct Hw as (Hstop & Hask & Htimer). rewrite Hstop.
  assert (Hbody : gathers (eventBody cfg chatId ctx e) (event_texts e) next_event).
  { unfold eventBody, event_texts, calm in *.
    destruct (ev_body e) as [content|[blocks|]|[u|]|t].
    - intros w1 Hw1.
      destruct (gathers_for_of (assistantBlock cfg chatId ctx) (fun b => texts_of [b])
                  content) with (w := w1) as (w2 & Hrun & Hw2 & Hparts); [|done|].
      { intros b Hb. apply gathers_assistantBlock.
        by apply (proj1 (Forall_forall _ _) Hcalm). }
      rewrite bind_run, Hrun. run. destruct Hw2 as (? & Hask2 & ?). rewrite Hask2.
      exists w2. rewrite texts_of_concat in Hparts. by repeat split.
    - apply (gathers_bind _ _ [] [] ()); [|apply gathers_ret].
      induction blocks as [|b blocks IH]; [apply gathers_ret|].
      apply (gathers_bind _ _ [] [] ()); [apply gathers_userBlock | exact IH].
    - intros w1 (Hstop1 & Hask1 & Htimer1). run. gathered.
    - intros w1 (Hstop1 & Hask1 & Htimer1). run. gathered.
    - intros w1 (Hstop1 & Hask1 & Htimer1). run. gathered.
    - apply gathers_ret. }
  apply (gathers_bind _ _ [] _ () _ (gathers_captureSessionId cfg e) Hbody).
  by repeat split.
Qed.

Lemma gathers_consume (cfg : Config) (chatId : option Z) (ctx : bool)
  (events : list event) :
  Forall (calm cfg) events ->
  gathers (consume cfg chatId ctx (Yields <$> events))
    (concat (event_texts <$> events)) next_event.
Proof.
  induction 1 as [|e events He _ IH]; cbn [fmap list_fmap concat consume].
  - apply gathers_ret.
  - eapply gathers_bind; [by apply gathers_onEvent | apply IH].
Qed.

Lemma join_empty_cons (p : string) (rest : list string) :
  Js.join "" (p :: rest) = p +:+ Js.join "" rest.
Proof. destruct rest; [by rewrite append_nil_r | done]. Qed.

Lemma join_getTextFromMessage (events : list event) :
  Js.join "" (omap getTextFromMessage events)
  = Js.join "" (concat (event_texts <$> events)).
Proof.
  induction events as [|e events IH]; [done|].
  cbn [fmap list_fmap concat]. rewrite join_empty_app, <- IH.
  change (omap getTextFromMessage (e :: events)) with
    (match getTextFromMessage e with
     | Some y => y :: omap getTextFromMessage events
     | None => omap getTextFromMessage events
     end).
  unfold getTextFromMessage, event_texts, texts_of.
  destruct (ev_body e) as [content| | |]; try done.
  cbv zeta. destruct (omap _ content) as [|t ts]; [done|].
  cbn [length Nat.ltb Nat.leb]. by rewrite join_empty_cons.
Qed.

(** X14.  The reply to a calm stream is all its text.  When no stop is
    pending and the generator yields events none of whose tool invocations
    is blocked or asks the user, and then completes, the call returns; its
    reply is the texts that [getTextFromMessage] reads off the events, one
    after the other; and when they come to no text at all, the reply is
    [No response from Claude.]. *)
Theorem reply_is_all_text (cfg : Config) (message : string) (chatId : option Z)
  (ctx : bool) (events : list event) (w : World) :
  stopRequested (session w) = false -> Forall (calm cfg) events ->
  exists w',
    sendMessageStreaming cfg message chatId ctx
      {| arrivals := Yields <$> events; ending := Completes |} w
    = (Returns (Js.or_else (Js.join "" (omap getTextFromMessage events))
                  "No response from Claude."), w').
Proof.
  intros Hstop Hcalm.
  set (str := {| arrivals := Yields <$> events; ending := Completes |}).
  destruct (enter_returns cfg message w Hstop) as [w0 Henter].
  destruct (enter_world _ _ _ _ Henter) as (_ & Hlocals & _ & Hstop0 & _).
  assert (Hsteady : steady w0) by (unfold steady; by rewrite Hlocals).
  destruct (gathers_consume cfg chatId ctx events Hcalm w0 Hsteady)
    as (w1 & Hrun & (_ & Hask & Htimer) & Hparts).
  assert (Hloop : forAwait cfg chatId ctx str w0 = (Returns (), w1)).
  { rewrite forAwait_run. unfold str. cbn [arrivals ending]. by rewrite Hrun. }
  rewrite (send_left _ _ _ _ _ _ _ _ _ Henter Hloop I).
  pose proof (assemble_reply (leave w1)) as Hreply.
  destruct (assemble (leave w1)) as [o w2]. cbn [fst] in Hreply. subst o.
  exists w2. f_equal. f_equal.
  destruct (leave_world w1) as (_ & -> & _).
  unfold reply_of. rewrite Hask, Htimer, Hparts, Hlocals. cbn [responseParts new_Locals app].
  by rewrite join_getTextFromMessage.
Qed.

(** The sample reply around a file read. *)
Lemma reply_is_all_text_witness :
  exists w',
    sendMessageStreaming Sample.cfg "hello" (Some 7) true Sample.tool_stream Sample.world
    = (Returns "Let me read the file you mentioned.The file holds three lines of notes.",
       w').
Proof.
  apply (reply_is_all_text Sample.cfg "hello" (Some 7) true
           [ {| ev_session_id := Some "sess-1";
                ev_body := Assistant [Text "Let me read the file you mentioned."] |};
             {| ev_session_id := Some "sess-1";
                ev_body := Assistant [ToolUse "Read"
                                        {[ "file_path" := "/home/bot/work/notes.txt" ]}
                                        (Some "toolu_1")] |};
             {| ev_session_id := Some "sess-1";
                ev_body := User (Some [ToolResult (Some "toolu_1") false
                                         "three lines of notes"]) |};
             {| ev_session_id := Some "sess-1";
                ev_body := Assistant [Text "The file holds three lines of notes."] |};
             {| ev_session_id := Some "sess-1"; ev_body := Result None |} ]
           Sample.world eq_refl).
  repeat constructor; cbn; done.
Defined.

(** ** Failures of the generator *)

Lemma onEvent_result (cfg : Config) (chatId : option Z) (ctx : bool) (e : event)
  (usage : option TokenUsage) (w : World) :
  ev_body e = Result usage -> steady w ->
  exists w',
    onEvent cfg chatId ctx e w = (Returns next_event, w')
    /\ steady w' /\ queryCompleted (locals w') = true
    /\ responseParts (locals w') = responseParts (locals w).
Proof.
  intros He Hw. rewrite onEvent_eventBody, bind_run.
  unfold get_session at 1. cbv beta iota.
  destruct (Hw) as (Hstop & _). rewrite Hstop, bind_run.
  destruct (gathers_captureSessionId cfg e w Hw) as (wc & -> & (Hs & Ha & Ht) & Hparts).
  rewrite app_nil_r in Hparts. unfold eventBody. rewrite He. run.
  destruct usage as [u|]; run; eexists; (split; [reflexivity|]); by repeat split.
Qed.

Lemma consume_calm (cfg : Config) (chatId : option Z) (ctx : bool)
  (events : list event) (w0 : World) :
  steady w0 -> responseParts (locals w0) = [] -> Forall (calm cfg) events ->
  exists w1,
    consume cfg chatId ctx (Yields <$> events) w0 = (Returns next_event, w1)
    /\ steady w1
    /\ Js.join "" (responseParts (locals w1)) = Js.join "" (omap getTextFromMessage events).
Proof.
  intros Hsteady Hnone Hcalm.
  destruct (gathers_consume cfg chatId ctx events Hcalm w0 Hsteady)
    as (w1 & Hrun & Hw1 & Hparts).
  exists w1. split; [done|]. split; [done|].
  by rewrite Hparts, Hnone, join_getTextFromMessage.
Qed.

(** X25.  How a failure of the generator ends a call on a calm stream.  An
    error whose text names neither a cancellation nor an abort is raised to
    the caller, with its text, cut to 100 characters, and its time recorded
    as the last error.  An error whose text names one, raised after the
    result event, is not an error: the call returns the reply, and the last
    error is cleared. *)
Theorem generator_failure (cfg : Config) (message : string) (chatId : option Z)
  (ctx : bool) (events : list event) (error : JsError) (w : World) :
  stopRequested (session w) = false -> Forall (calm cfg) events ->
  (isCleanupError error = false ->
   exists w',
     sendMessageStreaming cfg message chatId ctx
       {| arrivals := Yields <$> events; ending := Raises error |} w
     = (Throws error, w')
     /\ lastError (session w') = Some (Js.slice0 100 (String_of_error error))
     /\ is_Some (lastErrorTime (session w')))
  /\ (isCleanupError error = true ->
      forall res usage, ev_body res = Result usage ->
      exists w',
        sendMessageStreaming cfg message chatId ctx
          {| arrivals := Yields <$> (events ++ [res]); ending := Raises error |} w
        = (Returns (Js.or_else (Js.join "" (omap getTextFromMessage events))
                      "No response from Claude."), w')
        /\ lastError (session w') = None).
Proof.
  intros Hstop Hcalm.
  destruct (enter_returns cfg message w Hstop) as [w0 Henter].
  destruct (enter_world _ _ _ _ Henter) as (_ & Hlocals & _ & Hstop0 & _).
  assert (Hsteady : steady w0) by (unfold steady; by rewrite Hlocals).
  assert (Hnone : responseParts (locals w0) = []) by (by rewrite Hlocals).
  destruct (consume_calm cfg chatId ctx events w0 Hsteady Hnone Hcalm)
    as (w1 & Hrun & Hw1 & Hparts).
  split.
  - intros Hclean.
    set (str := {| arrivals := Yields <$> events; ending := Raises error |}).
    assert (Hloop : forAwait cfg chatId ctx str w0 = (Throws error, w1)).
    { rewrite forAwait_run. unfold str. cbn [arrivals ending]. by rewrite Hrun. }
    assert (Hsup : isSuppressed error (session w1) (locals w1) = false)
      by (unfold isSuppressed; by rewrite Hclean).
    rewrite (send_failed _ _ _ _ _ _ _ _ _ Henter Hloop Hsup).
    exists (fail_with error w1). split; [done|].
    destruct (fail_with_world error w1) as (_ & _ & _ & _ & -> & ->). by eauto.
  - intros Hclean res usage Hres.
    set (str := {| arrivals := Yields <$> (events ++ [res]); ending := Raises error |}).
    destruct (onEvent_result cfg chatId ctx res usage w1 Hres Hw1)
      as (w2 & Hrun2 & (Hstop2 & Hask2 & Htimer2) & Hdone & Hparts2).
    assert (Hloop : forAwait cfg chatId ctx str w0 = (Throws error, w2)).
    { rewrite forAwait_run. unfold str. cbn [arrivals ending].
      rewrite fmap_app, consume_app, Hrun. cbn [fmap list_fmap consume].
      by rewrite bind_run, Hrun2. }
    assert (Hsup : isSuppressed error (session w2) (locals w2) = true)
      by (unfold isSuppressed; by rewrite Hclean, Hdone).
    rewrite (send_left _ _ _ _ _ _ _ _ _ Henter Hloop Hsup).
    pose proof (assemble_reply (leave w2)) as Hreply.
    destruct (assemble_world (leave w2)) as (_ & _ & Hsession & _).
    destruct (assemble (leave w2)) as [o w3]. cbn [fst snd] in *. subst o.
    exists w3. destruct (leave_world w2) as (_ & Hl & _ & _ & _ & _ & Herr & _).
    split; [|by rewrite Hsession].
    f_equal. f_equal. rewrite Hl. unfold reply_of.
    by rewrite Hask2, Htimer2, Hparts2, Hparts.
Qed.

(** The sample reply in one text and a result event, after which the
    generator raises an abort error. *)
Lemma generator_failure_witness :
  exists w',
    sendMessageStreaming Sample.cfg "hello" (Some 7) true
      {| arrivals := [Sample.assistant [Text "Here are the result"]; Sample.result];
         ending := Raises Sample.AbortError |} Sample.world
    = (Returns "Here are the result", w')
    /\ lastError (session w') = None.
Proof.
  destruct (generator_failure Sample.cfg "hello" (Some 7) true
              [ {| ev_session_id := Some "sess-1";
                   ev_body := Assistant [Text "Here are the result"] |} ]
              Sample.AbortError Sample.world eq_refl) as [_ Hclean].
  - by repeat constructor.
  - exact (Hclean eq_refl {| ev_session_id := Some "sess-1"; ev_body := Result None |}
             None eq_refl).
Defined.

(** ** Saving and resuming *)

Lemma find_first {A} (P : A -> bool) (l : list A) (i : nat) (x : A) :
  l !! i = Some x -> P x = true ->
  (forall j y, l !! j = Some y -> (j < i)%nat -> P y = false) ->
  List.find P l = Some x.
Proof.
  revert i. induction l as [|a l IH]; intros i Hi Hx Hfirst; [done|].
  destruct i as [|i]; cbn in Hi.
  - injection Hi as ->. cbn. by rewrite Hx.
  - cbn. rewrite (Hfirst 0%nat a) by (done || lia).
    apply (IH i); [done | done |]. intros j y Hj Hlt. apply (Hfirst (S j) y); [done | lia].
Qed.

Lemma find_upsert (r : SavedSession) (l : list SavedSession) :
  (length l <= MAX_SESSIONS)%nat ->
  List.find (fun s => bool_decide (session_id s = session_id r)) (upsert r l) = Some r.
Proof.
  intros Hlen. destruct (decide (session_id r ∈ session_id <$> l)) as [Hin|Hfresh].
  - destruct (upsert_existing r l Hin) as (i & x & Hi & Hx & Hfirst & ->).
    rewrite take_ge by (by rewrite length_insert).
    apply (find_first _ _ i).
    + apply list_lookup_insert_eq. by eapply lookup_lt_Some.
    + by apply bool_decide_eq_true.
    + intros j y Hj Hlt. apply bool_decide_eq_false.
      rewrite list_lookup_insert_ne in Hj by lia. by apply (Hfirst j).
  - rewrite (upsert_fresh r l Hfresh). cbn. by rewrite bool_decide_true.
Qed.

(** X15.  A session that was saved can be resumed.  After [saveSession] on
    a session with an id and a file of at most [MAX_SESSIONS] records, and
    even after [kill] has cleared the session, [resumeSession] with that id
    succeeds: the session has the id again, and the title it was saved
    under, which is [Sessione senza titolo] when it had none. *)
Theorem saved_session_can_be_resumed (cfg : Config) (w : World) (id : string) :
  sessionId (session w) = Some id -> Js.truthy id = true ->
  (length (persisted w) <= MAX_SESSIONS)%nat ->
  let t := Js.or_else (default "" (conversationTitle (session w)))
             "Sessione senza titolo" in
  exists w',
    (saveSession cfg ;; kill ;; resumeSession cfg id) w
    = (Returns (true, "Ripresa sessione: " +:+ String "034" (t +:+ String "034" "")), w')
    /\ sessionId (session w') = Some id
    /\ conversationTitle (session w') = Some t
    /\ is_Some (lastActivity (session w')).
Proof.
  intros Hs Hid Hlen t.
  pose proof (find_upsert (newSession_of cfg w) (persisted w) Hlen) as Hfind.
  unfold newSession_of in Hfind. rewrite Hs in Hfind.
  change (default "" (Some id)) with id in Hfind. cbn [session_id] in Hfind.
  unfold saveSession, kill, resumeSession. run. rewrite Hs.
  change (default "" (Some id)) with id. cbn [truthy_opt].
  rewrite Hid. run. unfold persisted in Hfind.
  cbn [from_option Datatypes.id] in *. rewrite Hfind. cbn [working_dir].
  rewrite bool_decide_true by done. rewrite andb_false_r. run.
  eexists. split; [reflexivity|]. by repeat split.
Qed.

(** The second session of the sample file is saved under its new title,
    and resumed under it after a [kill]. *)
Lemma saved_session_can_be_resumed_witness :
  exists w',
    (saveSession Sample.cfg ;; kill ;; resumeSession Sample.cfg "sess-b")
      Sample.resumed_world
    = (Returns (true, "Ripresa sessione: " +:+ String "034" ("Renamed" +:+ String "034" "")),
       w')
    /\ sessionId (session w') = Some "sess-b"
    /\ conversationTitle (session w') = Some "Renamed"
    /\ is_Some (lastActivity (session w')).
Proof.
  apply (saved_session_can_be_resumed Sample.cfg Sample.resumed_world "sess-b");
    [reflexivity | reflexivity | vm_compute; lia].
Defined.

(** X16.  What [resumeSession] does.  When the id is not on file it
    answers [Sessione non trovata].  When it answers false, it has changed
    nothing.  And when it answers true, the first record on file of that id
    has no working directory or the configured one, and the session has the
    id and the title of that record. *)
Theorem resumeSession_outcome (cfg : Config) (id : string) (w : World) :
  (id ∉ session_id <$> persisted w ->
   resumeSession cfg id w = (Returns (false, "Sessione non trovata"), w))
  /\ (forall msg w', resumeSession cfg id w = (Returns (false, msg), w') -> w' = w)
  /\ (forall msg w',
        resumeSession cfg id w = (Returns (true, msg), w') ->
        exists s,
          List.find (fun s => bool_decide (session_id s = id)) (persisted w) = Some s
          /\ session_id s = id
          /\ (working_dir s = "" \/ working_dir s = WORKING_DIR cfg)
          /\ sessionId (session w') = Some id
          /\ conversationTitle (session w') = Some (title s)
          /\ sessionFile w' = sessionFile w).
Proof.
  unfold resumeSession, persisted. run.
  destruct (List.find _ (default [] (sessionFile w))) as [s|] eqn:Hfind.
  - apply find_some in Hfind as Hs. destruct Hs as [Hin Hs].
    apply bool_decide_eq_true in Hs.
    assert (Hon : id ∈ session_id <$> default [] (sessionFile w)).
    { apply list_elem_of_fmap. exists s. split; [done | by apply list_elem_of_In]. }
    destruct (Js.truthy (working_dir s)) eqn:Hdir; cbn [andb];
      [case_bool_decide as Hwd; cbn [negb]|]; run.
    + split; [done|]. split; [done|].
      intros msg w' [= <- <-]. exists s. wsimpl. rewrite Hs. by repeat split; auto.
    + split; [done|]. split; [by intros msg w' [= _ <-] | done].
    + split; [done|]. split; [done|].
      intros msg w' [= <- <-]. exists s. wsimpl. rewrite Hs.
      repeat split; auto. left. by destruct (working_dir s).
  - split; [done|]. split; [by intros msg w' [= _ <-] | done].
Qed.

Lemma same_id_same_record (l : list SavedSession) (a b : SavedSession) :
  NoDup (session_id <$> l) -> a ∈ l -> b ∈ l -> session_id a = session_id b -> a = b.
Proof.
  intros Hnd Ha Hb Hid.
  apply list_elem_of_lookup in Ha as [i Hi]. apply list_elem_of_lookup in Hb as [j Hj].
  assert (i = j).
  { apply (NoDup_lookup _ i j (session_id a) Hnd); rewrite list_lookup_fmap.
    - by rewrite Hi.
    - by rewrite Hj, Hid. }
  congruence.
Qed.

(** X17.  [resumeLast] on a file without a repeated id.  When no session
    on file is of the configured working directory or without one, it
    answers [Nessuna sessione salvata] and changes nothing.  Else it
    succeeds, and the session has the id and the title of the first such
    session on file. *)
Theorem resumeLast_resumes_first_listed (cfg : Config) (w : World) :
  NoDup (session_id <$> persisted w) ->
  match (getSessionList cfg w).1 with
  | Returns [] => resumeLast cfg w = (Returns (false, "Nessuna sessione salvata"), w)
  | Returns (first :: _) =>
      exists msg w',
        resumeLast cfg w = (Returns (true, msg), w')
        /\ sessionId (session w') = Some (session_id first)
        /\ conversationTitle (session w') = Some (title first)
  | Throws _ => False
  end.
Proof.
  intros Hnd. unfold resumeLast, getSessionList. run.
  fold (persisted w).
  destruct (List.filter _ (persisted w)) as [|first rest] eqn:Hlist; run; [done|].
  assert (Hfirst : In first (List.filter
    (fun s => negb (Js.truthy (working_dir s))
              || bool_decide (working_dir s = WORKING_DIR cfg)) (persisted w)))
    by (rewrite Hlist; by left).
  apply List.filter_In in Hfirst as [Hin Hdir].
  assert (Hfind : List.find (fun s => bool_decide (session_id s = session_id first))
                    (persisted w) = Some first).
  { destruct (List.find _ (persisted w)) as [s|] eqn:Hfind.
    - apply find_some in Hfind as [Hs Hid]. apply bool_decide_eq_true in Hid.
      f_equal. apply (same_id_same_record (persisted w)); auto; by apply list_elem_of_In.
    - exfalso. pose proof (find_none _ _ Hfind first Hin) as Hno.
      cbv beta in Hno. by rewrite bool_decide_true in Hno. }
  unfold resumeSession. run. fold (persisted w). rewrite Hfind.
  assert (Hcheck : Js.truthy (working_dir first)
                   && negb (bool_decide (working_dir first = WORKING_DIR cfg)) = false).
  { apply orb_true_iff in Hdir as [Hd|Hd].
    - apply negb_true_iff in Hd. by rewrite Hd.
    - rewrite Hd. apply andb_false_r. }
  rewrite Hcheck. run. eexists _, _. split; [reflexivity|]. done.
Qed.

(** On the sample file, [resumeLast] resumes the first session. *)
Lemma resumeLast_resumes_first_listed_witness :
  exists msg w',
    resumeLast Sample.cfg Sample.resumed_world = (Returns (true, msg), w')
    /\ sessionId (session w') = Some "sess-a"
    /\ conversationTitle (session w') = Some "First".
Proof.
  apply (resumeLast_resumes_first_listed Sample.cfg Sample.resumed_world).
  refine (bool_decide_unpack _ _). by vm_compute.
Defined.

(** ** Tool invocations *)

Lemma checks_return (cfg : Config) (toolName : string) (toolInput : tool_input)
  (w w' : World) :
  (checkBash cfg toolName toolInput ;; checkFile cfg toolName toolInput) w
  = (Returns (), w') -> w' = w.
Proof.
  unfold checkBash, checkFile. run.
  destruct (bool_decide (toolName = "Bash")); run.
  - destruct (checkCommandSafety cfg _) as [[] reason]; cbn [negb]; run; [|done].
    destruct (bool_decide (toolName ∈ _)); run; [|by intros [= <-]].
    destruct (Js.truthy _); run; [|by intros [= <-]].
    destruct (_ && _); run; [done | by intros [= <-]].
  - destruct (bool_decide (toolName ∈ _)); run; [|by intros [= <-]].
    destruct (Js.truthy _); run; [|by intros [= <-]].
    destruct (_ && _); run; [done | by intros [= <-]].
Qed.

Lemma pollAskUser_polls (attempts : nat) (w : World) :
  exists w',
    pollAskUser attempts w = (Returns (), w')
    /\ session w' = session w /\ calls w' = calls w /\ buttons w' = buttons w
    /\ pendingTools (locals w') = pendingTools (locals w)
    /\ (polls w <= polls w' <= polls w + attempts)%nat
    /\ ((0 < attempts)%nat -> (polls w < polls w')%nat)
    /\ (forall j, (polls w <= j)%nat -> (S j < polls w')%nat -> buttons w j = false)
    /\ askUserTriggered (locals w')
       = askUserTriggered (locals w)
         || existsb (buttons w) (seq (polls w) attempts).
Proof.
  revert w. induction attempts as [|n IH]; intros w; cbn [pollAskUser].
  - exists w. rewrite orb_false_r. repeat split; try lia. all: intros; lia.
  - run. destruct (buttons w (polls w)) eqn:Hfirst; run.
    + eexists. split; [reflexivity|]. wsimpl.
      repeat split; try lia. all: try (intros; lia).
      cbn [seq existsb]. by rewrite Hfirst, orb_true_r.
    + destruct (IH (poll w)) as (w' & Hrun & Hs & Hc & Hb & Hp & Hle & _ & Hno & Hask).
      revert Hrun Hs Hc Hb Hp Hle Hno Hask. wsimpl. intros Hrun Hs Hc Hb Hp Hle Hno Hask.
      exists w'. split; [done|]. repeat split; try done; try lia.
      * intros j Hj Hlt. destruct (decide (j = polls w)) as [->|Hne]; [done|].
        apply Hno; lia.
      * rewrite Hask. cbn [seq existsb]. by rewrite Hfirst.
Qed.

Lemma ask_user_name (toolName : string) :
  Js.startsWith toolName "mcp__ask-user" = true ->
  toolName <> "Bash" /\ toolName ∉ ["Read"; "Write"; "Edit"].
Proof.
  intros Hname. apply startsWith_spec in Hname as [post ->].
  split; [done|]. rewrite !not_elem_of_cons. repeat split; try done. apply not_elem_of_nil.
Qed.

(** X18.  An ask-user tool is not shown and is not awaited.  Its tool-use
    block is reduced without failure; it makes no status call but, when a
    segment is open, its [segment_end]; and its id is not pending
    afterwards.  With a context and a chat id, the buttons are polled until
    the first positive answer, three times at most, and the interaction
    counts as triggered exactly when one of these answers is positive;
    without them nothing is polled. *)
Theorem ask_user_tool (cfg : Config) (chatId : option Z) (ctx : bool)
  (toolName : string) (toolInput : tool_input) (toolUseId : option string) (w : World) :
  Js.startsWith toolName "mcp__ask-user" = true ->
  exists w',
    toolUseBlock cfg chatId ctx toolName toolInput toolUseId w = (Returns (), w')
    /\ (exists cs, calls w' = calls w ++ cs
                   /\ Forall (fun c => call_kind c = segment_end_k) cs)
    /\ (forall i, toolUseId = Some i -> Js.truthy i = true ->
                  pendingTools (locals w') !! i = None)
    /\ (ctx && truthy_num chatId = false ->
        polls w' = polls w
        /\ askUserTriggered (locals w') = askUserTriggered (locals w))
    /\ (ctx && truthy_num chatId = true ->
        (polls w < polls w' <= polls w + 3)%nat
        /\ (forall j, (polls w <= j)%nat -> (S j < polls w')%nat -> buttons w j = false)
        /\ askUserTriggered (locals w')
           = askUserTriggered (locals w)
             || existsb (buttons w) (seq (polls w) 3)).
Proof.
  intros Hname. destruct (ask_user_name toolName Hname) as [Hbash Hfile].
  assert (Hchecks :
    (checkBash cfg toolName toolInput ;; checkFile cfg toolName toolInput) w
    = (Returns (), w)).
  { apply gathers_checks. split; [done|]. by intros Hin. }
  unfold toolUseBlock. rewrite bind_run in Hchecks. rewrite bind_run.
  destruct (checkBash cfg toolName toolInput w) as [[[]|e] wb]; [|done].
  rewrite bind_run, Hchecks. rewrite Hname. cbn [negb andb].
  unfold closeSegment. run.
  destruct (Js.truthy (currentSegmentText (locals w))); run;
    destruct toolUseId as [i|]; run; try destruct (Js.truthy i) eqn:Hi; run;
    destruct (ctx && truthy_num chatId) eqn:Hctx;
    first
      [ match goal with
        | |- context [pollAskUser 3 ?w1] =>
            destruct (pollAskUser_polls 3 w1)
              as (w' & Hrun & Hs & Hc & Hb & Hp & Hle & Hlt & Hno & Hask);
            revert Hs Hc Hb Hp Hle Hlt Hno Hask; wsimpl;
            intros Hs Hc Hb Hp Hle Hlt Hno Hask;
            exists w'; split; [exact Hrun|]; rewrite Hc, Hp
        end
      | eexists; split; [reflexivity|]; wsimpl ];
    (split;
       [lazymatch goal with
        | |- exists cs, ?a ++ ?b = ?a ++ cs /\ _ =>
            exists b; split; [done | by repeat constructor]
        | |- exists cs, ?a = ?a ++ cs /\ _ =>
            exists []; split; [by rewrite app_nil_r | constructor]
        end|]);
    (split; [intros j [= <-] Hj; first [congruence | by rewrite lookup_delete_eq]|]);
    (split; [by intros|]); intros Htrue; try done;
    (split; [specialize (Hlt ltac:(lia)); lia|]); done.
Qed.

(** The ask-user tool of the sample stream, in the world a call starts in:
    the first poll is answered, and the interaction is triggered. *)
Lemma ask_user_tool_witness :
  exists w',
    toolUseBlock Sample.cfg (Some 7) true "mcp__ask-user__ask_user" ∅ (Some "toolu_2")
      Sample.entered_world = (Returns (), w')
    /\ polls w' = 1%nat /\ askUserTriggered (locals w') = true.
Proof.
  destruct (ask_user_tool Sample.cfg (Some 7) true "mcp__ask-user__ask_user" ∅
              (Some "toolu_2") Sample.entered_world eq_refl)
    as (w' & Hrun & _ & _ & _ & Hpolled).
  exists w'. split; [exact Hrun|].
  destruct (Hpolled eq_refl) as (Hle & Hno & Hask). split; [|exact Hask].
  assert (Hp0 : polls Sample.entered_world = 0%nat) by (by vm_compute).
  assert (Hb0 : buttons Sample.entered_world 0%nat = true) by (by vm_compute).
  rewrite Hp0 in Hle, Hno.
  destruct (polls w') as [|[|k]]; [lia | done |].
  specialize (Hno 0%nat ltac:(lia) ltac:(lia)). congruence.
Defined.

Lemma toolUseBlock_checked (cfg : Config) (chatId : option Z) (ctx : bool)
  (toolName : string) (toolInput : tool_input) (toolUseId : option string) (w : World) :
  (checkBash cfg toolName toolInput ;; checkFile cfg toolName toolInput) w
  = (Returns (), w) ->
  exists w', toolUseBlock cfg chatId ctx toolName toolInput toolUseId w = (Returns (), w').
Proof.
  intros Hchecks. unfold toolUseBlock. rewrite bind_run in Hchecks. rewrite bind_run.
  destruct (checkBash cfg toolName toolInput w) as [[[]|e] wb]; [|done].
  rewrite bind_run, Hchecks. unfold closeSegment. cbn [pollAskUser]. run.
  destruct (Js.truthy (currentSegmentText (locals w))); run;
    destruct toolUseId as [i|]; run; try destruct (Js.truthy i); run;
    destruct (negb (Js.startsWith toolName "mcp__ask-user")); run;
    destruct (Js.startsWith toolName "mcp__ask-user" && ctx && truthy_num chatId); run;
    repeat (match goal with |- context [if buttons ?w0 ?n then _ else _] =>
              destruct (buttons w0 n) end; run);
    by eexists.
Qed.

(** X19.  A blocked tool invocation is not started.  When a tool-use block
    fails, it fails on a safety check: one awaited [tool] call was made, and
    nothing else has changed; the tool is not shown as current or last
    tool, its id is not pending, and an open segment is still open. *)
Theorem blocked_tool_is_not_started (cfg : Config) (chatId : option Z) (ctx : bool)
  (toolName : string) (toolInput : tool_input) (toolUseId : option string)
  (w w' : World) (err : JsError) :
  toolUseBlock cfg chatId ctx toolName toolInput toolUseId w = (Throws err, w') ->
  session w' = session w /\ locals w' = locals w
  /\ sessionFile w' = sessionFile w /\ polls w' = polls w
  /\ exists c, calls w' = calls w ++ [c]
               /\ call_kind c = tool_k /\ awaited c = true /\ denial c.
Proof.
  intros Hblock.
  destruct ((checkBash cfg toolName toolInput ;; checkFile cfg toolName toolInput) w)
    as [[[]|e] wc] eqn:Hchecks.
  - apply checks_return in Hchecks as Hsame. subst wc.
    destruct (toolUseBlock_checked cfg chatId ctx toolName toolInput toolUseId w Hchecks)
      as [w1 Hreturns].
    congruence.
  - rewrite (toolUseBlock_blocked _ _ _ _ _ _ _ _ _ Hchecks) in Hblock.
    injection Hblock as <- <-.
    destruct (checks_throw cfg toolName toolInput w wc e Hchecks) as (c & -> & Hc).
    repeat split; try done. exists c. destruct Hc as (? & ? & ? & ? & _). by repeat split.
Qed.

(** The unsafe command of the sample stream, in the world a call starts
    in. *)
Lemma blocked_tool_is_not_started_witness :
  locals (toolUseBlock Sample.cfg (Some 7) true "Bash"
            {[ "command" := "rm -rf / --no-preserve-root" ]} (Some "toolu_3")
            Sample.entered_world).2
  = locals Sample.entered_world.
Proof.
  refine (proj1 (proj2 (blocked_tool_is_not_started Sample.cfg (Some 7) true "Bash"
            {[ "command" := "rm -rf / --no-preserve-root" ]} (Some "toolu_3")
            Sample.entered_world _
            (Error "Unsafe command blocked: dangerous pattern") _))).
  by vm_compute.
Defined.

(** X20.  An interrupt lets the next message through.  Once an interrupt is
    marked, and whatever [stop] then finds and does,
    [consumeInterruptFlag] answers true and clears both the mark and the
    request to stop, so that the next call opens its query; a second
    [consumeInterruptFlag] answers false.  Without a mark it answers false
    and leaves a request to stop as it is. *)
Theorem interrupt_lets_next_message_through (cfg : Config) (message : string)
  (w : World) :
  (exists r w1 w2 w3 w4,
      (markInterrupt ;; stop) w = (Returns r, w1)
      /\ consumeInterruptFlag w1 = (Returns true, w2)
      /\ stopRequested (session w2) = false
      /\ _wasInterruptedByNewMessage (session w2) = false
      /\ enter cfg message w2 = (Returns (), w3)
      /\ consumeInterruptFlag w2 = (Returns false, w4))
  /\ (_wasInterruptedByNewMessage (session w) = false ->
      exists w', consumeInterruptFlag w = (Returns false, w')
                 /\ stopRequested (session w') = stopRequested (session w)).
Proof.
  split.
  - assert (Hmark : exists r w1,
      (markInterrupt ;; stop) w = (Returns r, w1)
      /\ _wasInterruptedByNewMessage (session w1) = true).
    { unfold markInterrupt, stop. run.
      destruct (isQueryRunning (session w) && _); run;
        [|destruct (_isProcessing (session w)); run]; by eexists _, _. }
    destruct Hmark as (r & w1 & Hrun & Hmarked).
    assert (Hconsume : exists w2,
      consumeInterruptFlag w1 = (Returns true, w2)
      /\ stopRequested (session w2) = false
      /\ _wasInterruptedByNewMessage (session w2) = false).
    { unfold consumeInterruptFlag. run. rewrite Hmarked. run. by eexists. }
    destruct Hconsume as (w2 & Hrun2 & Hstop2 & Hmark2).
    destruct (enter_returns cfg message w2 Hstop2) as [w3 Henter].
    assert (Hagain : exists w4, consumeInterruptFlag w2 = (Returns false, w4)).
    { unfold consumeInterruptFlag. run. rewrite Hmark2. run. by eexists. }
    destruct Hagain as [w4 Hrun4].
    by exists r, w1, w2, w3, w4.
  - intros Hmark. unfold consumeInterruptFlag. run. rewrite Hmark. run. by eexists.
Qed.

(** ** Documents *)

Lemma or_else_empty (s : string) : Js.or_else s "" = s.
Proof. by destruct s. Qed.

Lemma name_char_dot (c : ascii) :
  (if Document.name_char c then c else "_"%char) = "."%char <-> c = "."%char.
Proof.
  split.
  - destruct (Document.name_char c) eqn:Hc; [done | discriminate].
  - by intros ->.
Qed.

Lemma name_char_slash (c : ascii) :
  (if Document.name_char c then c else "_"%char) <> "/"%char.
Proof.
  destruct (Document.name_char c) eqn:Hc; [|discriminate].
  intros ->. discriminate.
Qed.

Lemma safeName_chars (fileName : string) :
  Forall (fun c => Document.name_char c = true) (chars (Document.safeName fileName)).
Proof.
  unfold Document.safeName. rewrite chars_map. apply Forall_fmap, Forall_forall.
  intros c _. cbn. by destruct (Document.name_char c) eqn:Hc.
Qed.

Lemma safeName_no_slash (fileName : string) : "/"%char ∉ chars (Document.safeName fileName).
Proof.
  intros Hin. pose proof (safeName_chars fileName) as Hall.
  rewrite Forall_forall in Hall. by specialize (Hall _ Hin).
Qed.

Lemma safeName_fixed (s : string) :
  Forall (fun c => Document.name_char c = true) (chars s) -> Document.safeName s = s.
Proof.
  induction s as [|c s IH]; [done|]. rewrite chars_cons. intros Hall.
  apply Forall_cons in Hall as [Hc Hs]. unfold Document.safeName in *.
  cbn [Js.map_string]. by rewrite Hc, IH.
Qed.

Lemma download_path (env : Document.Env) (doc : Document.document) (now : Z)
  (transfer : outcome unit) (docPath : string) :
  Document.downloadDocument env (Some doc) now transfer = Returns docPath ->
  let fileName :=
    Js.or_else (default "" (Document.file_name doc)) ("doc_" +:+ pretty now) in
  exists name,
    docPath = Document.TEMP_DIR env +:+ "/" +:+ name
    /\ name = Document.safeName fileName
    /\ Forall (fun c => Document.name_char c = true) (chars name)
    /\ String.length name = String.length fileName
    /\ Js.split docPath "/" = Js.split (Document.TEMP_DIR env) "/" ++ [name]
    /\ (Forall (fun c => Document.name_char c = true) (chars fileName) ->
        name = fileName).
Proof.
  intros Hrun fileName. unfold Document.downloadDocument in Hrun.
  destruct transfer as [[]|e]; [|done]. injection Hrun as <-.
  exists (Document.safeName fileName).
  split; [done|]. split; [done|]. split; [apply safeName_chars|].
  split; [apply length_map_string|]. split; [|apply safeName_fixed].
  rewrite (append_cons "/" ""), append_nil_l, split_append. f_equal.
  apply split_none, safeName_no_slash.
Qed.

(** X21.  Where a document is written.  When [downloadDocument] returns a
    path, the path is the temporary directory, a slash and a name: the file
    name of the document, or [doc_] and the time when it has none, with
    every character that is not a letter, a digit, a dot, an underscore or
    a hyphen replaced by an underscore.  The name is as long as the file
    name and has no slash, so the path has one component more than the
    directory; and a file name of such characters only is kept as it is. *)
Theorem downloadDocument_path (env : Document.Env) (doc : Document.document) (now : Z)
  (transfer : outcome unit) (docPath : string) :
  Document.downloadDocument env (Some doc) now transfer = Returns docPath ->
  let fileName :=
    Js.or_else (default "" (Document.file_name doc)) ("doc_" +:+ pretty now) in
  exists name,
    docPath = Document.TEMP_DIR env +:+ "/" +:+ name
    /\ name = Document.safeName fileName
    /\ Forall (fun c => Document.name_char c = true) (chars name)
    /\ String.length name = String.length fileName
    /\ Js.split docPath "/" = Js.split (Document.TEMP_DIR env) "/" ++ [name]
    /\ (Forall (fun c => Document.name_char c = true) (chars fileName) ->
        name = fileName).
Proof. apply download_path. Qed.

(** A document named [my notes (1).txt]. *)
Lemma downloadDocument_path_witness :
  exists name,
    "/tmp/bot/my_notes__1_.txt" = "/tmp/bot" +:+ "/" +:+ name
    /\ name = "my_notes__1_.txt".
Proof.
  destruct (downloadDocument_path
              {| Document.TEMP_DIR := "/tmp/bot"; Document.isAuthorized := fun _ => true;
                 Document.fileText := fun _ => Returns "";
                 Document.pdfText := fun _ => Returns "" |}
              {| Document.file_name := Some "my notes (1).txt";
                 Document.mime_type := None; Document.file_size := None |}
              0 (Returns ()) "/tmp/bot/my_notes__1_.txt" eq_refl)
    as (name & Hpath & Hname & _).
  exists name. split; [exact Hpath | exact Hname].
Defined.

Lemma lower_letter_name_char (c : ascii) :
  (97 <=? N_of_ascii (Js.lower_ascii c))%N && (N_of_ascii (Js.lower_ascii c) <=? 122)%N
  = true ->
  Document.name_char c = true.
Proof. by destruct c as [[] [] [] [] [] [] [] []]. Qed.

Lemma lower_letters_safeName (s : string) :
  lower_letters (Js.toLowerCase s) = true -> Document.safeName s = s.
Proof.
  intros Hs. apply safeName_fixed. unfold lower_letters, Js.toLowerCase in Hs.
  rewrite chars_map, forallb_forall in Hs. apply Forall_forall. intros c Hc.
  apply lower_letter_name_char, Hs, list_elem_of_In. by apply list_elem_of_fmap_2.
Qed.

Lemma last_split_safeName (fileName : string) :
  List.last (Js.split (Document.safeName fileName) ".") ""
  = Document.safeName (List.last (Js.split fileName ".") "").
Proof.
  unfold Document.safeName. rewrite (split_map _ "." fileName name_char_dot).
  exact (last_fmap (Js.map_string _) (Js.split fileName ".") "").
Qed.

Lemma extension_of_safeName (fileName : string) :
  lower_letters
    (Js.toLowerCase (List.last (Js.split fileName ".") "")) = true ->
  Document.extension_of (Document.safeName fileName) = Document.extension_of fileName.
Proof.
  intros Hletters. unfold Document.extension_of.
  by rewrite !or_else_empty, last_split_safeName, lower_letters_safeName.
Qed.

Lemma supported_letters (fileName : string) :
  Document.extension_of fileName = ".pdf"
  \/ Document.extension_of fileName ∈ Document.TEXT_EXTENSIONS ->
  lower_letters (Js.toLowerCase (List.last (Js.split fileName ".") "")) = true.
Proof.
  unfold Document.extension_of, Document.TEXT_EXTENSIONS. rewrite or_else_empty.
  generalize (Js.toLowerCase (List.last (Js.split fileName ".") "")). intros seg.
  rewrite append_cons, append_nil_l.
  intros [Hpdf | Htext].
  - by injection Hpdf as ->.
  - repeat (apply elem_of_cons in Htext as [Htext|Htext]; [by injection Htext as ->|]).
    by apply elem_of_nil in Htext.
Qed.

Lemma supported_named (fileName : string) :
  Document.extension_of fileName = ".pdf"
  \/ Document.extension_of fileName ∈ Document.TEXT_EXTENSIONS ->
  fileName <> "".
Proof.
  intros Hsupported ->. revert Hsupported. unfold Document.TEXT_EXTENSIONS.
  change (Document.extension_of "") with ".".
  intros [Hpdf | Htext]; [done|].
  repeat (apply elem_of_cons in Htext as [Htext|Htext]; [done|]).
  by apply elem_of_nil in Htext.
Qed.

(** X22.  A document that the handler lets through can be read.  When the
    checks of [handleDocument] accept a document and the download returns
    its path, [extractText] on that path and the type of the document does
    not refuse the type: it reads the file as a PDF or as text, and its
    outcome is that of the reading, the text cut to 100000 characters. *)
Theorem accepted_document_is_read (env : Document.Env) (userId chatId : option Z)
  (doc : Document.document) (now : Z) (transfer : outcome unit) (docPath : string) :
  Document.checks env userId chatId (Some doc) = Document.Accepted ->
  Document.downloadDocument env (Some doc) now transfer = Returns docPath ->
  Document.extractText env docPath (Document.mime_type doc) = Document.pdfText env docPath
  \/ Document.extractText env docPath (Document.mime_type doc)
     = cut_text (Document.fileText env docPath).
Proof.
  intros Hchecks Hdownload.
  destruct (download_path env doc now transfer docPath Hdownload)
    as (name & Hpath & Hname & _ & _ & Hsplit & _).
  set (given := default "" (Document.file_name doc)) in *.
  assert (Htype :
    (Document.mime_type doc = Some "application/pdf"
     \/ Document.extension_of given = ".pdf")
    \/ (Document.extension_of given ∈ Document.TEXT_EXTENSIONS
        \/ from_option (fun m => Js.startsWith m "text/") false (Document.mime_type doc)
           = true)).
  { revert Hchecks. unfold Document.checks. fold given.
    destruct userId as [u|]; [|done].
    destruct (negb (u =? 0) && truthy_num chatId); [|done].
    destruct (negb (Document.isAuthorized env u)); [done|].
    destruct (truthy_num (Document.file_size doc) && _); [done|]. cbv zeta.
    repeat case_bool_decide; cbn [orb negb andb]; auto.
    destruct (from_option _ false (Document.mime_type doc)); cbn; [auto | done]. }
  assert (Hext : Document.extension_of given = ".pdf"
                 \/ Document.extension_of given ∈ Document.TEXT_EXTENSIONS ->
                 Document.extension_of name = Document.extension_of given).
  { intros Hsupported. rewrite Hname.
    assert (Hgiven : Js.or_else given ("doc_" +:+ pretty now) = given).
    { pose proof (supported_named given Hsupported). by destruct given. }
    rewrite Hgiven. by apply extension_of_safeName, supported_letters. }
  unfold Document.extractText, cut_text. rewrite Hsplit.
  rewrite last_app_nonempty by done. cbn [List.last]. rewrite or_else_empty.
  destruct Htype as [[Hpdf | Hpdf] | [Htext | Htext]].
  - left. by rewrite Hpdf.
  - left. rewrite Hext, Hpdf by auto. by rewrite orb_true_r.
  - rewrite Hext by auto.
    destruct (bool_decide (Document.mime_type doc = Some "application/pdf")
              || bool_decide (Document.extension_of given = ".pdf")); [by left|].
    right. by rewrite bool_decide_true.
  - destruct (bool_decide (Document.mime_type doc = Some "application/pdf")
              || bool_decide (Document.extension_of name = ".pdf")); [by left|].
    right. by rewrite Htext, orb_true_r.
Qed.

(** A document named [Report Q3.TXT], sent without a type. *)
Lemma accepted_document_is_read_witness :
  Document.extractText
    {| Document.TEMP_DIR := "/tmp/bot"; Document.isAuthorized := fun _ => true;
       Document.fileText := fun _ => Returns "quarterly figures";
       Document.pdfText := fun _ => Throws (Error "not a PDF") |}
    "/tmp/bot/Report_Q3.TXT" None
  = Returns "quarterly figures".
Proof.
  destruct (accepted_document_is_read
              {| Document.TEMP_DIR := "/tmp/bot"; Document.isAuthorized := fun _ => true;
                 Document.fileText := fun _ => Returns "quarterly figures";
                 Document.pdfText := fun _ => Throws (Error "not a PDF") |}
              (Some 42) (Some 7)
              {| Document.file_name := Some "Report Q3.TXT";
                 Document.mime_type := None; Document.file_size := Some 2048 |}
              0 (Returns ()) "/tmp/bot/Report_Q3.TXT" eq_refl eq_refl)
    as [Hpdf | Htext].
  - exfalso. revert Hpdf. by vm_compute.
  - exact (eq_trans Htext eq_refl).
Defined.

(** ** Blockquotes *)

Lemma quote_plain_lines (st : Markdown.quoting) (lines : list string) :
  Markdown.inBlockquote st = false ->
  Forall (fun line => quoted_line line = false) lines ->
  foldl Markdown.quote_line st lines
  = {| Markdown.result := Markdown.result st ++ lines;
       Markdown.inBlockquote := false;
       Markdown.blockquoteLines := Markdown.blockquoteLines st |}.
Proof.
  intros Hst Hlines. revert st Hst.
  induction Hlines as [|line lines Hline _ IH]; intros st Hst.
  - rewrite app_nil_r. by destruct st; cbn in *; subst.
  - cbn [foldl]. rewrite IH.
    + unfold Markdown.quote_line. unfold quoted_line in Hline. rewrite Hline, Hst.
      cbn. by rewrite <- app_assoc.
    + unfold Markdown.quote_line. unfold quoted_line in Hline. by rewrite Hline, Hst.
Qed.

Lemma quote_quoted_lines (st : Markdown.quoting) (lines : list string) :
  lines <> [] ->
  Forall (fun line => quoted_line line = true) lines ->
  foldl Markdown.quote_line st lines
  = {| Markdown.result := Markdown.result st;
       Markdown.inBlockquote := true;
       Markdown.blockquoteLines := Markdown.blockquoteLines st ++ (quoted_text <$> lines) |}.
Proof.
  intros Hne Hlines. revert st.
  induction Hlines as [|line lines Hline Hrest IH]; intros st; [done|].
  cbn [foldl]. unfold Markdown.quote_line at 2. unfold quoted_line in Hline.
  rewrite Hline. destruct lines as [|line' lines]; [done|].
  rewrite IH by done. cbn. by rewrite <- app_assoc.
Qed.

Lemma quote_after_quoted (st : Markdown.quoting) (lines : list string) :
  Markdown.inBlockquote st = true ->
  Forall (fun line => quoted_line line = false) lines ->
  (let st' := foldl Markdown.quote_line st lines in
   if Markdown.inBlockquote st'
   then Markdown.result st' ++ [Markdown.blockquote (Markdown.blockquoteLines st')]
   else Markdown.result st')
  = Markdown.result st ++ [Markdown.blockquote (Markdown.blockquoteLines st)] ++ lines.
Proof.
  intros Hst Hlines. destruct lines as [|line lines]; cbn [foldl].
  - cbv zeta. by rewrite Hst.
  - apply Forall_cons in Hlines as [Hline Hlines]. cbv zeta.
    rewrite quote_plain_lines; [| |done];
      unfold Markdown.quote_line; unfold quoted_line in Hline; rewrite Hline, Hst; [|done].
    cbn. by rewrite <- app_assoc.
Qed.

(** X23.  Text without quoted lines is left as it is by
    [convertBlockquotes]: when no line starts with [&gt; ] and none is
    [&gt;], the result is the text. *)
Theorem convertBlockquotes_plain (text : string) :
  Forall (fun line => quoted_line line = false) (Js.split text Js.nl) ->
  Markdown.convertBlockquotes text = text.
Proof.
  intros Hlines. unfold Markdown.convertBlockquotes. cbv zeta.
  rewrite quote_plain_lines by done. cbn. apply (join_split "010" text).
Qed.

(** Two lines, and a [>] that is not at the start of its line. *)
Lemma convertBlockquotes_plain_witness :
  Markdown.convertBlockquotes ("first line" +:+ Js.nl +:+ "2 &gt; 1")
  = "first line" +:+ Js.nl +:+ "2 &gt; 1".
Proof.
  apply convertBlockquotes_plain. vm_compute. by repeat constructor.
Defined.

(** X24.  A run of quoted lines becomes one blockquote.  When the lines of
    a text are lines that are not quoted, then one or more quoted lines,
    then lines that are not quoted, the result is the lines before, one
    [blockquote] element, and the lines after; the element holds the quoted
    lines without their mark and without any [#], and an empty line for a
    line that is [&gt;] alone. *)
Theorem convertBlockquotes_run (text : string) (before run after : list string) :
  Js.split text Js.nl = before ++ run ++ after ->
  Forall (fun line => quoted_line line = false) before ->
  Forall (fun line => quoted_line line = true) run -> run <> [] ->
  Forall (fun line => quoted_line line = false) after ->
  Markdown.convertBlockquotes text
  = Js.join Js.nl (before ++ [Markdown.blockquote (quoted_text <$> run)] ++ after)
  /\ Forall (fun line => "#"%char ∉ chars line) (quoted_text <$> run).
Proof.
  intros Hsplit Hbefore Hrun Hne Hafter. split.
  - unfold Markdown.convertBlockquotes. rewrite Hsplit, !foldl_app.
    rewrite (quote_plain_lines _ before) by done.
    rewrite (quote_quoted_lines _ run) by done.
    rewrite quote_after_quoted by done. cbn. done.
  - apply Forall_fmap, Forall_forall. intros line _. cbn. unfold quoted_text.
    case_bool_decide; [apply not_elem_of_nil|].
    induction (Js.slice_from 5 line) as [|c s IH]; [apply not_elem_of_nil|].
    cbn [Markdown.strip_hashes]. case_decide; [done|].
    rewrite chars_cons, not_elem_of_cons. split; [congruence | done].
Qed.

(** A quotation of two lines between two lines. *)
Lemma convertBlockquotes_run_witness :
  Markdown.convertBlockquotes
    ("They said:" +:+ Js.nl +:+ "&gt; see #42" +:+ Js.nl +:+ "&gt;" +:+ Js.nl +:+ "So be it.")
  = "They said:" +:+ Js.nl +:+ "<blockquote>see 42" +:+ Js.nl +:+ "</blockquote>"
    +:+ Js.nl +:+ "So be it.".
Proof.
  refine (proj1 (convertBlockquotes_run _ ["They said:"] ["&gt; see #42"; "&gt;"]
                   ["So be it."] _ _ _ _ _)); try done; by repeat constructor.
Defined.

(** ** The segments of a reply *)

Lemma join_empty_snoc (l : list string) (x : string) :
  Js.join "" (l ++ [x]) = Js.join "" l +:+ x.
Proof. by rewrite join_empty_app. Qed.

Lemma segment_texts_app (cs ds : list StatusCall) :
  segment_texts (cs ++ ds) = segment_texts cs ++ segment_texts ds.
Proof. unfold segment_texts. by rewrite List.filter_app, fmap_app. Qed.

Lemma segment_texts_other (cs : list StatusCall) (c : StatusCall) :
  call_kind c <> segment_end_k -> segment_texts (cs ++ [c]) = segment_texts cs.
Proof.
  intros Hkind. rewrite segment_texts_app. unfold segment_texts at 2. cbn.
  rewrite bool_decide_false by done. apply app_nil_r.
Qed.

Section AddsUp.

Variable base : list StatusCall.

Lemma adds_up_call (aw : bool) (k : kind) (text : string) (seg : option nat)
  (tid : option string) :
  k <> segment_end_k -> keeps (adds_up base) (statusCallback aw k text seg tid).
Proof.
  intros Hk w (cs & Hc & Hj). eexists. unfold statusCallback. wsimpl. split.
  - rewrite Hc, <- app_assoc. reflexivity.
  - by rewrite segment_texts_other.
Qed.

(** A step of the code that changes neither the calls nor the texts. *)
Ltac adds_up_same :=
  solve [intros w (cs & Hc & Hj); unfold adds_up; exists cs; unfold_m; wsimpl;
         split; [exact Hc | exact Hj]].

Ltac adds_up_step :=
  first [ keeps_struct | apply adds_up_call; done | adds_up_same ].

Lemma adds_up_closeSegment : keeps (adds_up base) closeSegment.
Proof.
  intros w (cs & Hc & Hj). unfold closeSegment, adds_up. run.
  destruct (Js.truthy (currentSegmentText (locals w))); run; [|by exists cs].
  eexists. split; [rewrite Hc, <- app_assoc; reflexivity|].
  rewrite segment_texts_app, join_empty_app. cbn. by rewrite append_nil_r.
Qed.

Lemma adds_up_textBlock (cfg : Config) (text : string) :
  keeps (adds_up base) (textBlock cfg text).
Proof.
  intros w (cs & Hc & Hj). unfold textBlock, adds_up. run.
  destruct (_ && _); run.
  - eexists. split; [rewrite Hc, <- app_assoc; reflexivity|].
    rewrite segment_texts_other by done.
    by rewrite join_empty_snoc, <- Hj, append_assoc.
  - exists cs. split; [done|]. by rewrite join_empty_snoc, <- Hj, append_assoc.
Qed.

Lemma adds_up_pollAskUser (attempts : nat) : keeps (adds_up base) (pollAskUser attempts).
Proof. induction attempts as [|n IH]; cbn [pollAskUser]; repeat adds_up_step. done. Qed.

Lemma adds_up_toolUseBlock (cfg : Config) (chatId : option Z) (ctx : bool)
  (toolName : string) (toolInput : tool_input) (toolUseId : option string) :
  keeps (adds_up base) (toolUseBlock cfg chatId ctx toolName toolInput toolUseId).
Proof.
  unfold toolUseBlock, checkBash, checkFile.
  repeat first [apply adds_up_closeSegment | apply adds_up_pollAskUser | adds_up_step].
Qed.

Lemma adds_up_eventBody (cfg : Config) (chatId : option Z) (ctx : bool) (e : event) :
  keeps (adds_up base) (eventBody cfg chatId ctx e).
Proof.
  unfold eventBody.
  repeat first
    [ adds_up_step
    | match goal with
      | |- keeps _ (assistantBlock _ _ _ ?b) =>
          destruct b; cbn [assistantBlock]; unfold thinkingBlock
      | |- keeps _ (userBlock _ ?b) =>
          destruct b; cbn [userBlock]; unfold toolResultBlock
      end
    | apply adds_up_toolUseBlock | apply adds_up_textBlock ].
Qed.

Lemma adds_up_consume (cfg : Config) (chatId : option Z) (ctx : bool)
  (items : list arrival) :
  keeps (adds_up base) (consume cfg chatId ctx items).
Proof.
  induction items as [|[e| |] items IH]; cbn [consume];
    rewrite ?onEvent_eventBody; unfold captureSessionId, saveSession, stop,
      inactivityTimeout;
    repeat first [apply adds_up_eventBody | apply IH | adds_up_step].
Qed.

End AddsUp.

Lemma send_returns_parts (cfg : Config) (message : string) (chatId : option Z)
  (ctx : bool) (str : stream) (w w' : World) (r : string) :
  sendMessageStreaming cfg message chatId ctx str w = (Returns r, w') ->
  exists w1,
    adds_up (calls w) w1
    /\ w' = (assemble (leave w1)).2
    /\ r = reply_of (locals w').
Proof.
  intros Hsend.
  destruct (send_cases cfg message chatId ctx str w)
    as [(w1 & _ & _ & Hs) | (w0 & o & w1 & _ & Henter & Hloop & [[_ Hs] | (e1 & _ & _ & Hs)])];
    rewrite Hs in Hsend; try done.
  exists w1. split; [|split].
  - destruct (enter_world _ _ _ _ Henter) as (Hcalls & Hlocals & _).
    assert (Hw0 : adds_up (calls w) w0).
    { exists []. rewrite app_nil_r, Hlocals. by split. }
    pose proof (adds_up_consume (calls w) cfg chatId ctx (arrivals str) w0 Hw0) as Hw1.
    rewrite <- forAwait_world, Hloop in Hw1. exact Hw1.
  - by rewrite Hsend.
  - pose proof (assemble_reply (leave w1)) as Hreply.
    destruct (assemble_world (leave w1)) as (_ & Hlocals & _).
    rewrite Hsend in Hreply, Hlocals. cbn [fst snd] in *. rewrite Hlocals. congruence.
Qed.

(** X26.  The segments shown add up to the reply.  When a call returns
    without an ask-user interaction and without a timeout, the texts of the
    [segment_end] calls it made, one after the other, are the text it
    gathered: the reply, unless there is no text at all and the reply is
    [No response from Claude.]. *)
Theorem segments_add_up (cfg : Config) (message : string) (chatId : option Z)
  (ctx : bool) (str : stream) (w w' : World) (r : string) :
  sendMessageStreaming cfg message chatId ctx str w = (Returns r, w') ->
  askUserTriggered (locals w') = false -> timedOut (locals w') = false ->
  exists cs,
    calls w' = calls w ++ cs
    /\ Js.join "" (segment_texts cs) = Js.join "" (responseParts (locals w'))
    /\ r = Js.or_else (Js.join "" (segment_texts cs)) "No response from Claude.".
Proof.
  intros Hsend Hask Htimer.
  destruct (send_returns_parts cfg message chatId ctx str w w' r Hsend)
    as (w1 & (cs & Hc & Hj) & Hw' & Hr).
  destruct (assemble_world (leave w1)) as (Hcalls & Hlocals & _).
  destruct (leave_world w1) as (Hc1 & Hl1 & _).
  assert (Hl : locals w' = locals w1) by (by rewrite Hw', Hlocals, Hl1).
  assert (Hcs : calls w' = calls w ++ cs ++ final_calls (locals w1))
    by (by rewrite Hw', Hcalls, Hc1, Hl1, Hc, app_assoc).
  rewrite Hl in *.
  exists (cs ++ final_calls (locals w1)). split; [done|].
  assert (Hsum : Js.join "" (segment_texts (cs ++ final_calls (locals w1)))
                 = Js.join "" (responseParts (locals w1))).
  { rewrite <- Hj, segment_texts_app, join_empty_app. f_equal.
    unfold final_calls, flush_calls. rewrite Hask, Htimer.
    by destruct (currentSegmentText (locals w1)). }
  split; [done|]. rewrite Hsum, Hr.
  unfold reply_of. by rewrite Hask, Htimer.
Qed.

(** The sample reply around a file read: two segments. *)
Lemma segments_add_up_witness :
  exists cs,
    calls (sendMessageStreaming Sample.cfg "hello" (Some 7) true Sample.tool_stream
             Sample.world).2 = calls Sample.world ++ cs
    /\ segment_texts cs
       = ["Let me read the file you mentioned."; "The file holds three lines of notes."].
Proof.
  destruct (segments_add_up Sample.cfg "hello" (Some 7) true Sample.tool_stream
              Sample.world
              (sendMessageStreaming Sample.cfg "hello" (Some 7) true Sample.tool_stream
                 Sample.world).2
              "Let me read the file you mentioned.The file holds three lines of notes.")
    as (cs & Hcalls & _); [by vm_compute | by vm_compute | by vm_compute |].
  exists cs. split; [exact Hcalls|].
  assert (Hbase : calls Sample.world = []) by reflexivity.
  rewrite Hbase in Hcalls. cbn [app] in Hcalls. rewrite <- Hcalls. by vm_compute.
Defined.

(** ** The query of a call *)

Lemma same_queries_loop (qs : list QueryRequest) (cfg : Config) (chatId : option Z)
  (ctx : bool) (str : stream) :
  keeps (same_queries qs) (forAwait cfg chatId ctx str).
Proof.
  apply frame_forAwait; field_frame same_queries.
  intros e. unfold captureSessionId, saveSession. keeps_frame same_queries.
Qed.

Lemma enter_queries (cfg : Config) (message : string) (w : World) :
  queries (enter cfg message w).2
  = queries w ++ (if stopRequested (session w) then [] else [request_of cfg message w]).
Proof.
  unfold enter, preamble, begin, request_of, isActive. run.
  destruct (sessionId (session w)) as [id|]; cbn [negb truthy_opt andb]; run;
    [destruct (Js.truthy id); cbn [negb andb]; run|];
    destruct (stopRequested (session w)); run; by rewrite ?app_nil_r.
Qed.

Lemma queries_of_send (cfg : Config) (message : string) (chatId : option Z)
  (ctx : bool) (str : stream) (w : World) :
  queries (sendMessageStreaming cfg message chatId ctx str w).2
  = queries w ++ (if stopRequested (session w) then [] else [request_of cfg message w]).
Proof.
  pose proof (enter_queries cfg message w) as Henter.
  destruct (send_cases cfg message chatId ctx str w)
    as [(w1 & _ & Hent & ->) | (w0 & o & w1 & _ & Hent & Hloop & Hend)];
    rewrite Hent in Henter; cbn [snd] in Henter; [done|].
  pose proof (same_queries_loop _ cfg chatId ctx str w0 Henter) as Hw1.
  rewrite Hloop in Hw1. cbn [snd] in Hw1. unfold same_queries in Hw1.
  destruct Hend as [[_ ->] | (e & _ & _ & ->)].
  - destruct (leave_world w1) as (_ & _ & _ & Hq & _). rewrite <- Hw1, <- Hq.
    unfold assemble. run. destruct (askUserTriggered _); run; [done|].
    destruct (Js.truthy (currentSegmentText _)); run; by destruct (timedOut _).
  - rewrite <- Hw1. unfold fail_with, cleanup. by run.
Qed.

(** X27.  One call, one query.  A call that finds a stop pending makes no
    query.  Any other call makes exactly one, whatever the stream and
    however the call ends: its thinking budget is that of
    [getThinkingLevel] for the message; it resumes the session id when
    there is one; and its prompt is the message, behind the current date
    when the session is new. *)
Theorem one_call_one_query (cfg : Config) (message : string) (chatId : option Z)
  (ctx : bool) (str : stream) (w : World) :
  queries (sendMessageStreaming cfg message chatId ctx str w).2
  = queries w ++ (if stopRequested (session w) then [] else [request_of cfg message w]).
Proof. apply queries_of_send. Qed.

(** X28.  [kill] forgets the session and nothing else.  After it the
    session is not active, while the session file, the running state and a
    request to stop are what they were; and the next call, unless a stop is
    pending, makes a query that resumes nothing and whose prompt starts
    with the current date. *)
Theorem kill_forgets_session (cfg : Config) (message : string) (chatId : option Z)
  (ctx : bool) (str : stream) (w : World) :
  exists w1,
    kill w = (Returns (), w1)
    /\ isActive (session w1) = false
    /\ sessionFile w1 = sessionFile w
    /\ isRunning (session w1) = isRunning (session w)
    /\ stopRequested (session w1) = stopRequested (session w)
    /\ (stopRequested (session w) = false ->
        queries (sendMessageStreaming cfg message chatId ctx str w1).2
        = queries w ++
          [ {| prompt := "[Current date/time: "
                         +:+ toLocaleDateString cfg (clock w (ticks w))
                         +:+ "]" +:+ Js.nlnl +:+ message;
               maxThinkingTokens := getThinkingLevel cfg message;
               resume := None |} ]).
Proof.
  eexists. split; [reflexivity|]. unfold isActive, isRunning. wsimpl.
  repeat split. intros Hstop. rewrite queries_of_send. wsimpl.
  by rewrite Hstop.
Qed.
